(** * The NRT memory-info runtime (numba/core/runtime/nrt.cpp)

    A shallow embedding of the reference-counted MemInfo runtime: the global
    memory system [TheMSys], the [MemInfo] record, the allocation variants,
    the resizable-buffer API and the sample external allocator.

    C objects are modelled on an LP64 target: [size_t] and pointers are
    64-bit, [unsigned] is 32-bit.  Pointers (data and code alike) are
    addresses in [Z], [NULL] is [0].  The program state is threaded through
    a small state-and-error monad whose failures are [Abort] (the
    [abort()] of [nrt_fatal_error] or of a failed [assert]; assertions are
    taken as compiled in) and [Undefined] (a dereference of a pointer that
    holds no object, a call through a null function pointer, a division by
    zero).  Payload memory is a map from addresses to bytes without block
    extents: a [memset] outside the block that was allocated is not reported
    as [Undefined], so the properties about fills state where the bytes
    lie.

    The environment is part of the state: what the platform's and the
    callers' allocation functions return is read off an oracle, and what a
    caller-supplied destructor does to payload memory is a function the
    state carries.  A caller-supplied function is not modelled calling back
    into the runtime. *)

From Stdlib Require Import ZArith List String Lia.
From stdpp Require Import base gmap list.

Local Open Scope Z_scope.

(** ** Machine integers *)

Definition SIZE_MAX : Z := 2 ^ 64 - 1.

(** Arithmetic on [size_t] (and on pointers cast to it) wraps modulo 2^64. *)
Definition wrap64 (z : Z) : Z := z mod 2 ^ 64.

(** Arithmetic on [unsigned] wraps modulo 2^32. *)
Definition wrap32 (z : Z) : Z := z mod 2 ^ 32.

Definition NULL : Z := 0.

(** [#define MIN(a, b) ((a) < (b)) ? (a) : (b)] *)
Definition MIN (a b : Z) : Z := if a <? b then a else b.

(** ** Data model *)

(** [struct MemInfo]: six 8-byte fields. *)
Record MemInfo : Type := mkMemInfo {
  refct : Z;
  dtor : Z;
  dtor_info : Z;
  data : Z;
  size : Z;
  external_allocator : Z
}.

Definition sizeof_MemInfo : Z := 48.

(** The [allocator] member of [struct MemSys]. *)
Record Allocator : Type := mkAllocator {
  malloc : Z;
  realloc : Z;
  free : Z
}.

(** [struct MemSys]. *)
Record MemSys : Type := mkMemSys {
  shutting : Z;
  stats_alloc : Z;
  stats_free : Z;
  stats_mi_alloc : Z;
  stats_mi_free : Z;
  allocator : Allocator
}.

(** [NRT_ExternalAllocator]: the members in the order of the initialiser of
    [sample_external_allocator]. *)
Record NRT_ExternalAllocator : Type := mkExternalAllocator {
  ext_malloc : Z;
  ext_realloc : Z;
  ext_free : Z;
  opaque_data : Z
}.

(** The functions and static objects of the translation unit, together with
    the three libc functions it binds to by default. *)
Inductive symbol : Type :=
  | S_malloc | S_realloc | S_free
  | S_nrt_internal_dtor_safe
  | S_nrt_internal_custom_dtor_safe
  | S_nrt_varsize_dtor
  | S_nrt_manage_memory_dtor
  | S_sample_external_malloc
  | S_sample_external_realloc
  | S_sample_external_free
  | S_sample_external_opaque_data
  | S_sample_external_allocator.

Definition all_symbols : list symbol :=
  S_malloc :: S_realloc :: S_free :: S_nrt_internal_dtor_safe ::
  S_nrt_internal_custom_dtor_safe :: S_nrt_varsize_dtor ::
  S_nrt_manage_memory_dtor :: S_sample_external_malloc ::
  S_sample_external_realloc :: S_sample_external_free ::
  S_sample_external_opaque_data :: S_sample_external_allocator :: nil.

(** The address the linker gave each symbol.  Only two facts about this
    table are ever used: it is injective and never [NULL]. *)
Definition addr_of (s : symbol) : Z :=
  match s with
  | S_malloc => 4096
  | S_realloc => 4112
  | S_free => 4128
  | S_nrt_internal_dtor_safe => 8192
  | S_nrt_internal_custom_dtor_safe => 8208
  | S_nrt_varsize_dtor => 8224
  | S_nrt_manage_memory_dtor => 8240
  | S_sample_external_malloc => 8256
  | S_sample_external_realloc => 8272
  | S_sample_external_free => 8288
  | S_sample_external_opaque_data => 12288
  | S_sample_external_allocator => 12320
  end.

Notation "'&' s" := (addr_of s) (at level 5, s at level 0, format "& s").

(** The symbol found at an address, if any. *)
Definition symbol_at (a : Z) : option symbol :=
  List.find (fun s => addr_of s =? a) all_symbols.

(** One call made through a function pointer: the address called and the
    arguments passed. *)
Record event : Type := mkEvent {
  callee : Z;
  args : list Z
}.

Definition event_eqb (e1 e2 : event) : bool :=
  (callee e1 =? callee e2) && bool_decide (args e1 = args e2).

(** The program state.
    - [TheMSys] is the global of that name;
    - [meminfos] holds the live [MemInfo] objects by address, [allocators]
      the [NRT_ExternalAllocator] objects;
    - [bytes] is the byte-addressed payload memory;
    - [oracle] is what the environment's allocation functions will return,
      call after call (an exhausted oracle is an exhausted heap: [NULL]);
    - [effect] is what a function from outside the runtime (a caller-supplied
      destructor) does to payload memory;
    - [trace] lists the calls made through function pointers (allocator
      functions, destructors), oldest first. *)
Record World : Type := mkWorld {
  TheMSys : MemSys;
  meminfos : gmap Z MemInfo;
  allocators : gmap Z NRT_ExternalAllocator;
  bytes : gmap Z Z;
  oracle : list Z;
  effect : Z -> list Z -> gmap Z Z -> gmap Z Z;
  trace : list event
}.

Definition set_TheMSys (s : MemSys) (w : World) : World :=
  mkWorld s (meminfos w) (allocators w) (bytes w) (oracle w) (effect w) (trace w).

Definition set_meminfos (h : gmap Z MemInfo) (w : World) : World :=
  mkWorld (TheMSys w) h (allocators w) (bytes w) (oracle w) (effect w) (trace w).

Definition set_bytes (b : gmap Z Z) (w : World) : World :=
  mkWorld (TheMSys w) (meminfos w) (allocators w) b (oracle w) (effect w) (trace w).

Definition set_oracle (o : list Z) (w : World) : World :=
  mkWorld (TheMSys w) (meminfos w) (allocators w) (bytes w) o (effect w) (trace w).

Definition log (e : event) (w : World) : World :=
  mkWorld (TheMSys w) (meminfos w) (allocators w) (bytes w) (oracle w) (effect w)
          (trace w ++ e :: nil).

(** ** The monad *)

Inductive outcome (A : Type) : Type :=
  | Ret (a : A) (w : World)
  | Abort (msg : string) (w : World)
  | Undefined.

Arguments Ret {A} a w.
Arguments Abort {A} msg w.
Arguments Undefined {A}.

Definition M (A : Type) : Type := World -> outcome A.

Definition ret {A} (a : A) : M A := fun w => Ret a w.

Definition bind {A B} (m : M A) (k : A -> M B) : M B :=
  fun w => match m w with
           | Ret a w' => k a w'
           | Abort msg w' => Abort msg w'
           | Undefined => Undefined
           end.

Notation "'do' x <- m ; k" := (bind m (fun x => k))
  (at level 10, x name, m at level 100, k at level 200).
Notation "m ;; k" := (bind m (fun _ => k))
  (at level 100, k at level 200, right associativity).

Definition get_world : M World := fun w => Ret w w.
Definition modify (f : World -> World) : M unit := fun w => Ret tt (f w).
Definition undefined {A} : M A := fun _ => Undefined.

(** [mi->field]: reading through a pointer that holds no live [MemInfo]
    (in particular through [NULL]) is undefined. *)
Definition load (mi : Z) : M MemInfo :=
  fun w => match meminfos w !! mi with
           | Some m => Ret m w
           | None => Undefined
           end.

(** [mi->field = v] on a live [MemInfo]. *)
Definition store (mi : Z) (f : MemInfo -> MemInfo) : M unit :=
  do m <- load mi; modify (fun w => set_meminfos (<[mi := f m]> (meminfos w)) w).

Definition load_allocator (a : Z) : M NRT_ExternalAllocator :=
  fun w => match allocators w !! a with
           | Some ea => Ret ea w
           | None => Undefined
           end.

Definition set_data (p : Z) (m : MemInfo) : MemInfo :=
  mkMemInfo (refct m) (dtor m) (dtor_info m) p (size m) (external_allocator m).
Definition set_size (n : Z) (m : MemInfo) : MemInfo :=
  mkMemInfo (refct m) (dtor m) (dtor_info m) (data m) n (external_allocator m).
Definition set_refct (n : Z) (m : MemInfo) : MemInfo :=
  mkMemInfo n (dtor m) (dtor_info m) (data m) (size m) (external_allocator m).
Definition set_dtor_info (i : Z) (m : MemInfo) : MemInfo :=
  mkMemInfo (refct m) (dtor m) i (data m) (size m) (external_allocator m).

Definition get_msys : M MemSys := fun w => Ret (TheMSys w) w.
Definition modify_msys (f : MemSys -> MemSys) : M unit :=
  modify (fun w => set_TheMSys (f (TheMSys w)) w).

(** ** Calls through function pointers *)

(** [f(a...)] through the pointer [f]: the call is recorded; calling through
    [NULL] is undefined. *)
Definition indirect (f : Z) (a : list Z) : M unit :=
  if f =? NULL then undefined else modify (log (mkEvent f a)).

(** What an allocation function of the environment returns: the next answer
    of the oracle, [NULL] when it has none. *)
Definition env_alloc : M Z :=
  fun w => Ret (hd NULL (oracle w)) (set_oracle (tl (oracle w)) w).

(** What a release function of the environment does to the block at [ptr]:
    a [MemInfo] living in that block is gone afterwards. *)
Definition env_free (ptr : Z) : M unit :=
  modify (fun w => set_meminfos (delete ptr (meminfos w)) w).

(** A call of an allocation function [f] of the environment. *)
Definition call_alloc (f : Z) (a : list Z) : M Z :=
  indirect f a ;; env_alloc.

(** A call of a release function [f] of the environment on [ptr]. *)
Definition call_free (f : Z) (ptr : Z) (a : list Z) : M unit :=
  indirect f (ptr :: a) ;; env_free ptr.

(** What a caller-supplied function does: it may write payload memory. *)
Definition env_effect (f : Z) (a : list Z) : M unit :=
  modify (fun w => set_bytes (effect w f a (bytes w)) w).

(** A call of a caller-supplied function [f]. *)
Definition call_extern (f : Z) (a : list Z) : M unit :=
  indirect f a ;; env_effect f a.

(** [memset(ptr, c, n)].  The bytes are written wherever [ptr] points: the
    state keeps no block extents, see [inside]. *)
Definition fill (ptr c n : Z) (b : gmap Z Z) : gmap Z Z :=
  foldr (fun i b => <[ptr + i := c]> b) b (seqZ 0 n).

Definition memset (ptr c n : Z) : M unit :=
  modify (fun w => set_bytes (fill ptr c n (bytes w)) w).

(** ** Misc helpers *)

Definition nrt_fatal_error {A} (msg : string) : M A := fun w => Abort msg w.

(** [assert(c && msg)] *)
Definition assert (c : bool) (msg : string) : M unit :=
  if c then ret tt else fun w => Abort msg w.

(** ** Global resources *)

Definition NRT_MemSys_init : M unit :=
  modify_msys (fun _ =>
    mkMemSys 0 0 0 0 0 (mkAllocator &S_malloc &S_realloc &S_free)).

Definition NRT_MemSys_shutdown : M unit :=
  modify_msys (fun s =>
    mkMemSys 1 (stats_alloc s) (stats_free s) (stats_mi_alloc s)
             (stats_mi_free s) (allocator s)).

Definition set_allocator (a : Allocator) (s : MemSys) : MemSys :=
  mkMemSys (shutting s) (stats_alloc s) (stats_free s) (stats_mi_alloc s)
           (stats_mi_free s) a.

Definition NRT_MemSys_set_allocator (malloc_func realloc_func free_func : Z) : M unit :=
  do s <- get_msys;
  (if (negb (malloc_func =? malloc (allocator s)) ||
       negb (realloc_func =? realloc (allocator s)) ||
       negb (free_func =? free (allocator s))) &&
      (negb (stats_alloc s =? stats_free s) ||
       negb (stats_mi_alloc s =? stats_mi_free s))
   then nrt_fatal_error "cannot change allocator while blocks are allocated"
   else ret tt) ;;
  modify_msys (set_allocator (mkAllocator malloc_func realloc_func free_func)).

Definition NRT_MemSys_get_stats_alloc : M Z := do s <- get_msys; ret (stats_alloc s).
Definition NRT_MemSys_get_stats_free : M Z := do s <- get_msys; ret (stats_free s).
Definition NRT_MemSys_get_stats_mi_alloc : M Z := do s <- get_msys; ret (stats_mi_alloc s).
Definition NRT_MemSys_get_stats_mi_free : M Z := do s <- get_msys; ret (stats_mi_free s).

(** The four [stats_x++] on [std::atomic_size_t]. *)
Definition incr_stats_alloc (s : MemSys) : MemSys :=
  mkMemSys (shutting s) (wrap64 (stats_alloc s + 1)) (stats_free s)
           (stats_mi_alloc s) (stats_mi_free s) (allocator s).
Definition incr_stats_free (s : MemSys) : MemSys :=
  mkMemSys (shutting s) (stats_alloc s) (wrap64 (stats_free s + 1))
           (stats_mi_alloc s) (stats_mi_free s) (allocator s).
Definition incr_stats_mi_alloc (s : MemSys) : MemSys :=
  mkMemSys (shutting s) (stats_alloc s) (stats_free s)
           (wrap64 (stats_mi_alloc s + 1)) (stats_mi_free s) (allocator s).
Definition incr_stats_mi_free (s : MemSys) : MemSys :=
  mkMemSys (shutting s) (stats_alloc s) (stats_free s)
           (stats_mi_alloc s) (wrap64 (stats_mi_free s + 1)) (allocator s).

(** ** Low-level allocation wrappers *)

Definition sample_external_malloc (sz opaque : Z) : M Z :=
  if negb (opaque =? &S_sample_external_opaque_data) then ret NULL
  else do s <- get_msys; call_alloc (malloc (allocator s)) (sz :: nil).

Definition sample_external_realloc (ptr new_size opaque : Z) : M Z :=
  if negb (opaque =? &S_sample_external_opaque_data) then ret NULL
  else do s <- get_msys; call_alloc (realloc (allocator s)) (ptr :: new_size :: nil).

Definition sample_external_free (ptr opaque : Z) : M unit :=
  do s <- get_msys; call_free (free (allocator s)) ptr nil.

(** The object [sample_external_allocator]. *)
Definition sample_external_allocator : NRT_ExternalAllocator :=
  mkExternalAllocator &S_sample_external_malloc &S_sample_external_realloc
                      &S_sample_external_free &S_sample_external_opaque_data.

Definition _nrt_get_sample_external_allocator : M Z :=
  ret &S_sample_external_allocator.

(** [allocator->malloc(size, allocator->opaque_data)]: the sample allocator
    when the pointer is its [malloc], a function of the environment
    otherwise. *)
Definition call_ext_malloc (f sz opaque : Z) : M Z :=
  indirect f (sz :: opaque :: nil) ;;
  match symbol_at f with
  | Some S_sample_external_malloc => sample_external_malloc sz opaque
  | _ => env_alloc
  end.

(** [allocator->free(ptr, allocator->opaque_data)] *)
Definition call_ext_free (f ptr opaque : Z) : M unit :=
  indirect f (ptr :: opaque :: nil) ;;
  match symbol_at f with
  | Some S_sample_external_free => sample_external_free ptr opaque
  | _ => env_free ptr
  end.

Definition NRT_Allocate_External (sz allocator_p : Z) : M Z :=
  do ptr <- (if negb (allocator_p =? NULL)
             then do ea <- load_allocator allocator_p;
                  call_ext_malloc (ext_malloc ea) sz (opaque_data ea)
             else do s <- get_msys;
                  call_alloc (malloc (allocator s)) (sz :: nil));
  modify_msys incr_stats_alloc ;;
  ret ptr.

Definition NRT_Allocate (sz : Z) : M Z := NRT_Allocate_External sz NULL.

Definition NRT_Reallocate (ptr sz : Z) : M Z :=
  do s <- get_msys;
  do new_ptr <- call_alloc (realloc (allocator s)) (ptr :: sz :: nil);
  ret new_ptr.

Definition NRT_Free (ptr : Z) : M unit :=
  do s <- get_msys;
  call_free (free (allocator s)) ptr nil ;;
  modify_msys incr_stats_free.

(** ** The MemInfo structure *)

Definition NRT_MemInfo_init (mi data_p sz dtor_p dtor_info_p ext : Z) : M unit :=
  (if mi =? NULL then undefined
   else modify (fun w => set_meminfos
          (<[mi := mkMemInfo 1 dtor_p dtor_info_p data_p sz ext]> (meminfos w)) w)) ;;
  modify_msys incr_stats_mi_alloc.

Definition NRT_MemInfo_new (data_p sz dtor_p dtor_info_p : Z) : M Z :=
  do mi <- NRT_Allocate sizeof_MemInfo;
  NRT_MemInfo_init mi data_p sz dtor_p dtor_info_p NULL ;;
  ret mi.

Definition NRT_MemInfo_refcount (mi : Z) : M Z :=
  if mi =? NULL then ret SIZE_MAX
  else do m <- load mi;
       if negb (data m =? NULL) then ret (refct m) else ret SIZE_MAX.

Definition nrt_internal_dtor_safe (ptr sz info : Z) : M unit :=
  memset ptr 222 (MIN sz 256).

Definition nrt_allocate_meminfo_and_data (sz allocator_p : Z) : M (Z * Z) :=
  do base <- NRT_Allocate_External (wrap64 (sizeof_MemInfo + sz)) allocator_p;
  let mi := base in
  ret (wrap64 (base + sizeof_MemInfo), mi).

Definition nrt_internal_custom_dtor_safe (ptr sz info : Z) : M unit :=
  let dtor_p := info in
  (if negb (dtor_p =? NULL) then call_extern dtor_p (ptr :: sz :: NULL :: nil)
   else ret tt) ;;
  nrt_internal_dtor_safe ptr sz NULL.

Definition NRT_MemInfo_alloc (sz : Z) : M Z :=
  do r <- nrt_allocate_meminfo_and_data sz NULL;
  let '(data_p, mi) := r in
  NRT_MemInfo_init mi data_p sz NULL NULL NULL ;;
  ret mi.

Definition NRT_MemInfo_alloc_external (sz allocator_p : Z) : M Z :=
  do r <- nrt_allocate_meminfo_and_data sz allocator_p;
  let '(data_p, mi) := r in
  NRT_MemInfo_init mi data_p sz NULL NULL allocator_p ;;
  ret mi.

Definition NRT_MemInfo_alloc_dtor_safe (sz dtor_p : Z) : M Z :=
  do r <- nrt_allocate_meminfo_and_data sz NULL;
  let '(data_p, mi) := r in
  memset data_p 203 (MIN sz 256) ;;
  NRT_MemInfo_init mi data_p sz &S_nrt_internal_custom_dtor_safe dtor_p NULL ;;
  ret mi.

Definition NRT_MemInfo_alloc_safe (sz : Z) : M Z :=
  NRT_MemInfo_alloc_dtor_safe sz NULL.

(** [size + 2 * align] multiplies in [unsigned] and adds in [size_t];
    [intptr % align] with [align == 0] is a division by zero. *)
Definition nrt_allocate_meminfo_and_data_align (sz align allocator_p : Z) : M (Z * Z) :=
  do r <- nrt_allocate_meminfo_and_data (wrap64 (sz + wrap32 (2 * align))) allocator_p;
  let '(base, mi) := r in
  let intptr := base in
  if align =? 0 then undefined else
  let remainder := intptr mod align in
  let offset := if remainder =? 0 then 0 else align - remainder in
  ret (wrap64 (base + offset), mi).

Definition NRT_MemInfo_alloc_aligned (sz align : Z) : M Z :=
  do r <- nrt_allocate_meminfo_and_data_align sz align NULL;
  let '(data_p, mi) := r in
  NRT_MemInfo_init mi data_p sz NULL NULL NULL ;;
  ret mi.

Definition NRT_MemInfo_alloc_safe_aligned (sz align : Z) : M Z :=
  do r <- nrt_allocate_meminfo_and_data_align sz align NULL;
  let '(data_p, mi) := r in
  memset data_p 203 (MIN sz 256) ;;
  NRT_MemInfo_init mi data_p sz &S_nrt_internal_dtor_safe sz NULL ;;
  ret mi.

Definition NRT_MemInfo_alloc_safe_aligned_external (sz align allocator_p : Z) : M Z :=
  do r <- nrt_allocate_meminfo_and_data_align sz align allocator_p;
  let '(data_p, mi) := r in
  memset data_p 203 (MIN sz 256) ;;
  NRT_MemInfo_init mi data_p sz &S_nrt_internal_dtor_safe sz allocator_p ;;
  ret mi.

Definition NRT_dealloc (mi : Z) : M unit :=
  do m <- load mi;
  if negb (external_allocator m =? NULL) then
    do ea <- load_allocator (external_allocator m);
    call_ext_free (ext_free ea) mi (opaque_data ea) ;;
    modify_msys incr_stats_free
  else NRT_Free mi.

Definition NRT_MemInfo_destroy (mi : Z) : M unit :=
  NRT_dealloc mi ;;
  modify_msys incr_stats_mi_free.

Definition NRT_MemInfo_acquire (mi : Z) : M unit :=
  do m <- load mi;
  assert (0 <? refct m) "RefCt cannot be zero" ;;
  store mi (fun m => set_refct (wrap64 (refct m + 1)) m).

(** *** Resizable buffer API: the destructor *)

Definition nrt_varsize_dtor (ptr sz info : Z) : M unit :=
  (if negb (info =? NULL) then call_extern info (ptr :: nil) else ret tt) ;;
  NRT_Free ptr.

Definition nrt_manage_memory_dtor (data_p sz info : Z) : M unit :=
  call_extern info (data_p :: nil).

(** [mi->dtor(mi->data, mi->size, mi->dtor_info)]: one of the runtime's own
    destructors when the pointer is theirs, a caller's function otherwise. *)
Definition call_dtor (f ptr sz info : Z) : M unit :=
  indirect f (ptr :: sz :: info :: nil) ;;
  match symbol_at f with
  | Some S_nrt_internal_dtor_safe => nrt_internal_dtor_safe ptr sz info
  | Some S_nrt_internal_custom_dtor_safe => nrt_internal_custom_dtor_safe ptr sz info
  | Some S_nrt_varsize_dtor => nrt_varsize_dtor ptr sz info
  | Some S_nrt_manage_memory_dtor => nrt_manage_memory_dtor ptr sz info
  | _ => env_effect f (ptr :: sz :: info :: nil)
  end.

Definition NRT_MemInfo_call_dtor (mi : Z) : M unit :=
  do m <- load mi;
  do s <- get_msys;
  (if negb (dtor m =? NULL) && (shutting s =? 0)
   then call_dtor (dtor m) (data m) (size m) (dtor_info m)
   else ret tt) ;;
  NRT_MemInfo_destroy mi.

Definition NRT_MemInfo_release (mi : Z) : M unit :=
  do m <- load mi;
  assert (0 <? refct m) "RefCt cannot be 0" ;;
  let n := wrap64 (refct m - 1) in
  store mi (set_refct n) ;;
  if n =? 0 then NRT_MemInfo_call_dtor mi else ret tt.

Definition NRT_MemInfo_data (mi : Z) : M Z := do m <- load mi; ret (data m).
Definition NRT_MemInfo_size (mi : Z) : M Z := do m <- load mi; ret (size m).
Definition NRT_MemInfo_external_allocator (mi : Z) : M Z :=
  do m <- load mi; ret (external_allocator m).
Definition NRT_MemInfo_parent (mi : Z) : M Z := do m <- load mi; ret (dtor_info m).

(** ** Resizable buffer API *)

Definition NRT_MemInfo_new_varsize (sz : Z) : M Z :=
  do data_p <- NRT_Allocate sz;
  if data_p =? NULL then ret NULL else
  do mi <- NRT_MemInfo_new data_p sz &S_nrt_varsize_dtor NULL;
  ret mi.

Definition NRT_MemInfo_new_varsize_dtor (sz dtor_p : Z) : M Z :=
  do mi <- NRT_MemInfo_new_varsize sz;
  (if negb (mi =? NULL) then store mi (set_dtor_info dtor_p) else ret tt) ;;
  ret mi.

Definition NRT_MemInfo_varsize_alloc (mi sz : Z) : M Z :=
  do m <- load mi;
  if negb (dtor m =? &S_nrt_varsize_dtor) then
    nrt_fatal_error
      "ERROR: NRT_MemInfo_varsize_alloc called with a non varsize-allocated meminfo"
  else
  do p <- NRT_Allocate sz;
  store mi (set_data p) ;;
  if p =? NULL then ret NULL else
  store mi (set_size sz) ;;
  ret p.

Definition NRT_MemInfo_varsize_realloc (mi sz : Z) : M Z :=
  do m <- load mi;
  if negb (dtor m =? &S_nrt_varsize_dtor) then
    nrt_fatal_error
      "ERROR: NRT_MemInfo_varsize_realloc called with a non varsize-allocated meminfo"
  else
  do p <- NRT_Reallocate (data m) sz;
  store mi (set_data p) ;;
  if p =? NULL then ret NULL else
  store mi (set_size sz) ;;
  ret p.

Definition NRT_MemInfo_varsize_free (mi ptr : Z) : M unit :=
  NRT_Free ptr ;;
  do m <- load mi;
  if ptr =? data m then store mi (set_data NULL) else ret tt.

(** ** The stable API table *)

Definition nrt_manage_memory (data_p dtor_p : Z) : M Z :=
  NRT_MemInfo_new data_p 0 &S_nrt_manage_memory_dtor dtor_p.

(** ** Initial state *)

(** The state at process start, before [NRT_MemSys_init]: zero-initialised
    statics, no live [MemInfo], the sample allocator object in place. *)
Definition initial_world (o : list Z) (eff : Z -> list Z -> gmap Z Z -> gmap Z Z) : World :=
  mkWorld (mkMemSys 0 0 0 0 0 (mkAllocator NULL NULL NULL))
          ∅
          {[ &S_sample_external_allocator := sample_external_allocator ]}
          ∅ o eff nil.

Definition no_effect : Z -> list Z -> gmap Z Z -> gmap Z Z := fun _ _ b => b.

(** The state after [NRT_MemSys_init], in an environment whose allocation
    functions will answer [o] and whose caller-supplied functions do [eff]. *)
Definition started_with (o : list Z) (eff : Z -> list Z -> gmap Z Z -> gmap Z Z) : World :=
  match NRT_MemSys_init (initial_world o eff) with
  | Ret _ w => w
  | _ => initial_world o eff
  end.

Definition started (o : list Z) : World := started_with o no_effect.

(** A caller-supplied function that writes the byte 7 at its first
    argument. *)
Definition scribble : Z -> list Z -> gmap Z Z -> gmap Z Z :=
  fun _ a b => match a with p :: _ => <[p := 7]> b | nil => b end.


(** * Vocabulary of the statements *)

(** One of the three functions differs from the current binding. *)
Definition differs (m r f : Z) (s : MemSys) : Prop :=
  m <> malloc (allocator s) \/ r <> realloc (allocator s) \/ f <> free (allocator s).

(** Allocations are outstanding. *)
Definition unbalanced (s : MemSys) : Prop :=
  stats_alloc s <> stats_free s \/ stats_mi_alloc s <> stats_mi_free s.

Definition rebound (m r f : Z) (w : World) : World :=
  set_TheMSys (set_allocator (mkAllocator m r f) (TheMSys w)) w.

(** The state after [NRT_Free ptr]. *)
Definition freed (ptr : Z) (w : World) : World :=
  set_TheMSys (incr_stats_free (TheMSys w))
    (set_meminfos (delete ptr (meminfos w))
       (log (mkEvent (free (allocator (TheMSys w))) (ptr :: nil)) w)).

(** The state after [NRT_Allocate sz] (and after [NRT_Allocate_External sz
    NULL]): the platform allocator was called once and [stats_alloc]
    counted the call. *)
Definition allocated (sz : Z) (w : World) : World :=
  set_TheMSys (incr_stats_alloc (TheMSys w))
    (set_oracle (tl (oracle w))
       (log (mkEvent (malloc (allocator (TheMSys w))) (sz :: nil)) w)).

(** The state after [NRT_Reallocate ptr sz]. *)
Definition reallocated (ptr sz : Z) (w : World) : World :=
  set_oracle (tl (oracle w))
    (log (mkEvent (realloc (allocator (TheMSys w))) (ptr :: sz :: nil)) w).

(** The underlying allocation function is about to fail: its next answer
    is [NULL]. *)
Definition allocation_fails (w : World) : Prop := hd NULL (oracle w) = NULL.

(** The state an outcome leaves behind (the state of the call when it is
    undefined). *)
Definition world_of {A} (w : World) (o : outcome A) : World :=
  match o with
  | Ret _ w' => w'
  | Abort _ w' => w'
  | Undefined => w
  end.

(** [w] after running [m]. *)
Definition after {A} (m : M A) (w : World) : World := world_of w (m w).

(** The value an outcome returns, if it returns. *)
Definition value_of {A} (o : outcome A) : option A :=
  match o with
  | Ret a _ => Some a
  | _ => None
  end.

(** A variable-size handle of 16 bytes: the handle at 2000, its payload at
    1000, and a heap with nothing left to give. *)
Definition ex_varsize : World :=
  after (NRT_MemInfo_new_varsize 16) (started (1000 :: 2000 :: nil)).

(** The state after [NRT_MemInfo_init] wrote the handle [m] at [mi]. *)
Definition initialised (mi : Z) (m : MemInfo) (w : World) : World :=
  set_TheMSys (incr_stats_mi_alloc (TheMSys w))
    (set_meminfos (<[mi := m]> (meminfos w)) w).

(** The state after [NRT_Allocate_External sz a] went through the [malloc]
    of an external allocator that is a function of the environment. *)
Definition allocated_by (ea : NRT_ExternalAllocator) (sz : Z) (w : World) : World :=
  set_TheMSys (incr_stats_alloc (TheMSys w))
    (set_oracle (tl (oracle w))
       (log (mkEvent (ext_malloc ea) (sz :: opaque_data ea :: nil)) w)).

(** The state after [NRT_Allocate_External sz a] went through
    [sample_external_malloc] with the expected token ... *)
Definition allocated_by_sample (ea : NRT_ExternalAllocator) (sz : Z) (w : World) : World :=
  set_TheMSys (incr_stats_alloc (TheMSys w))
    (set_oracle (tl (oracle w))
       (log (mkEvent (malloc (allocator (TheMSys w))) (sz :: nil))
          (log (mkEvent (ext_malloc ea) (sz :: opaque_data ea :: nil)) w))).

(** ... and with another one: the platform allocator is not called. *)
Definition refused_by_sample (ea : NRT_ExternalAllocator) (sz : Z) (w : World) : World :=
  set_TheMSys (incr_stats_alloc (TheMSys w))
    (log (mkEvent (ext_malloc ea) (sz :: opaque_data ea :: nil)) w).

(** A copy of the sample allocator, at 12400, that carries the token 999
    instead of [&sample_external_opaque_data]. *)
Definition mismatched_allocator : NRT_ExternalAllocator :=
  mkExternalAllocator &S_sample_external_malloc &S_sample_external_realloc
                      &S_sample_external_free 999.

Definition ex_two_allocators (o : list Z) : World :=
  let w := started o in
  mkWorld (TheMSys w) (meminfos w) (<[12400 := mismatched_allocator]> (allocators w))
          (bytes w) (oracle w) (effect w) (trace w).

(** How often the call [e] occurs in a trace. *)
Fixpoint count_event (e : event) (t : list event) : nat :=
  match t with
  | nil => 0%nat
  | x :: r => ((if event_eqb e x then 1 else 0) + count_event e r)%nat
  end.

(** The invocation of the destructor a handle carries:
    [mi->dtor(mi->data, mi->size, mi->dtor_info)]. *)
Definition dtor_call (m : MemInfo) : event :=
  mkEvent (dtor m) (data m :: size m :: dtor_info m :: nil).

(** The destructor of [m] is invoked when [m] is destroyed in [w]: there is
    one and the runtime is not shutting down. *)
Definition dtor_fires (w : World) (m : MemInfo) : bool :=
  negb (dtor m =? NULL) && (shutting (TheMSys w) =? 0).

(** The calls by which the block of the handle [m] at [mi] goes back to the
    allocator it came from: the [free] of its external allocator, with that
    allocator's [opaque_data], when it has one ([sample_external_free] in
    turn calls the bound [free]); the bound [free] otherwise. *)
Definition release_calls (w : World) (mi : Z) (m : MemInfo) : list event :=
  if external_allocator m =? NULL
  then mkEvent (free (allocator (TheMSys w))) (mi :: nil) :: nil
  else match allocators w !! external_allocator m with
       | Some ea =>
           mkEvent (ext_free ea) (mi :: opaque_data ea :: nil) ::
           (if ext_free ea =? &S_sample_external_free
            then mkEvent (free (allocator (TheMSys w))) (mi :: nil) :: nil
            else nil)
       | None => nil
       end.

(** The block of [m] can be given back: the allocator object exists and no
    function that is called for it is a null pointer. *)
Definition can_dealloc (w : World) (m : MemInfo) : Prop :=
  if external_allocator m =? NULL
  then free (allocator (TheMSys w)) <> NULL
  else exists ea,
         allocators w !! external_allocator m = Some ea /\
         ext_free ea <> NULL /\
         (ext_free ea = &S_sample_external_free ->
          free (allocator (TheMSys w)) <> NULL).

(** The destructor of the handle [m] at [mi] can run: [nrt_varsize_dtor]
    needs a bound [free] and a payload that is not the handle's own block,
    [nrt_manage_memory_dtor] a function to call. *)
Definition dtor_defined (w : World) (mi : Z) (m : MemInfo) : Prop :=
  (dtor m = &S_nrt_varsize_dtor ->
   free (allocator (TheMSys w)) <> NULL /\ data m <> mi) /\
  (dtor m = &S_nrt_manage_memory_dtor -> dtor_info m <> NULL).

Definition destructible (w : World) (mi : Z) (m : MemInfo) : Prop :=
  can_dealloc w m /\ dtor_defined w mi m.

(** The two reference-counting operations. *)
Inductive rc_op : Type := Acquire | Release.

(** A caller's sequence of acquires and releases of the handle [mi]. *)
Fixpoint run_ops (ops : list rc_op) (mi : Z) : M unit :=
  match ops with
  | nil => ret tt
  | Acquire :: rest => NRT_MemInfo_acquire mi ;; run_ops rest mi
  | Release :: rest => NRT_MemInfo_release mi ;; run_ops rest mi
  end.

(** The count the claim predicts after [ops], from the count [n]: one up per
    acquire, one down per release, and no count at all ([None]) once an
    operation addresses a handle whose count has reached 0. *)
Fixpoint refcount_after (ops : list rc_op) (n : Z) : option Z :=
  match ops with
  | nil => Some n
  | o :: rest =>
      if n =? 0 then None
      else refcount_after rest (match o with Acquire => n + 1 | Release => n - 1 end)
  end.

(** A handle at 1000 that wraps the foreign block 5000 (8 bytes) with the
    caller's destructor 777, after [NRT_MemSys_shutdown]. *)
Definition ex_shut_down : World :=
  after NRT_MemSys_shutdown
    (after (NRT_MemInfo_new 5000 8 777 NULL) (started (1000 :: nil))).

(** The forward offset [nrt_allocate_meminfo_and_data_align] adds to the
    address [base] for the alignment [align]. *)
Definition align_offset (base align : Z) : Z :=
  let remainder := base mod align in
  if remainder =? 0 then 0 else align - remainder.

(** The [n] bytes of [b] from [ptr] on all hold [c]. *)
Definition pattern_at (b : gmap Z Z) (ptr n c : Z) : Prop :=
  forall i, 0 <= i < n -> b !! (ptr + i) = Some c.

(** The handle carries one of the two debug-fill destructors. *)
Definition safe_dtor (m : MemInfo) : Prop :=
  dtor m = &S_nrt_internal_custom_dtor_safe \/ dtor m = &S_nrt_internal_dtor_safe.

(** The caller's destructor a safe handle wraps: the [dtor_info] of a handle
    built by [NRT_MemInfo_alloc_dtor_safe], none for the other variants
    (whose [dtor_info] holds the size). *)
Definition custom_dtor_of (m : MemInfo) : Z :=
  if dtor m =? &S_nrt_internal_custom_dtor_safe then dtor_info m else NULL.

(** A 4-byte safe handle at 1000 wrapping the caller's destructor 777. *)
Definition ex_safe : World :=
  after (NRT_MemInfo_alloc_dtor_safe 4 777) (started_with (1000 :: nil) scribble).

(** The invariant of C5: a live handle with a positive reference count has
    a non-null data pointer. *)
Definition data_nonnull (w : World) : Prop :=
  forall a m, meminfos w !! a = Some m -> 0 < refct m -> data m <> NULL.

(** The operations a caller has: the constructors, acquire and release, and
    the resizable-buffer API. *)
Inductive public_op : Type :=
  | Op_alloc (sz : Z)
  | Op_alloc_external (sz a : Z)
  | Op_alloc_safe (sz : Z)
  | Op_alloc_dtor_safe (sz dtor_p : Z)
  | Op_alloc_aligned (sz align : Z)
  | Op_alloc_safe_aligned (sz align : Z)
  | Op_alloc_safe_aligned_external (sz align a : Z)
  | Op_new (data_p sz dtor_p dtor_info_p : Z)
  | Op_manage_memory (data_p dtor_p : Z)
  | Op_new_varsize (sz : Z)
  | Op_new_varsize_dtor (sz dtor_p : Z)
  | Op_acquire (mi : Z)
  | Op_release (mi : Z)
  | Op_varsize_alloc (mi sz : Z)
  | Op_varsize_realloc (mi sz : Z)
  | Op_varsize_free (mi ptr : Z).

(** Running an operation; one that returns nothing returns 0 here. *)
Definition exec (op : public_op) : M Z :=
  match op with
  | Op_alloc sz => NRT_MemInfo_alloc sz
  | Op_alloc_external sz a => NRT_MemInfo_alloc_external sz a
  | Op_alloc_safe sz => NRT_MemInfo_alloc_safe sz
  | Op_alloc_dtor_safe sz d => NRT_MemInfo_alloc_dtor_safe sz d
  | Op_alloc_aligned sz al => NRT_MemInfo_alloc_aligned sz al
  | Op_alloc_safe_aligned sz al => NRT_MemInfo_alloc_safe_aligned sz al
  | Op_alloc_safe_aligned_external sz al a =>
      NRT_MemInfo_alloc_safe_aligned_external sz al a
  | Op_new d sz f i => NRT_MemInfo_new d sz f i
  | Op_manage_memory d f => nrt_manage_memory d f
  | Op_new_varsize sz => NRT_MemInfo_new_varsize sz
  | Op_new_varsize_dtor sz d => NRT_MemInfo_new_varsize_dtor sz d
  | Op_acquire mi => NRT_MemInfo_acquire mi ;; ret 0
  | Op_release mi => NRT_MemInfo_release mi ;; ret 0
  | Op_varsize_alloc mi sz => NRT_MemInfo_varsize_alloc mi sz
  | Op_varsize_realloc mi sz => NRT_MemInfo_varsize_realloc mi sz
  | Op_varsize_free mi ptr => NRT_MemInfo_varsize_free mi ptr ;; ret 0
  end.

(** The [n] bytes from [p] on, and the address one past them, lie inside
    the 64-bit address space. *)
Definition in_address_space (p n : Z) : Prop := 0 < p /\ p + n < 2 ^ 64.

(** The [n] bytes from [q] on lie inside the block of [len] bytes at [p].
    The state keeps no block extents (a write through a pointer that is not
    null is always defined in it); where a property is about bytes that the
    runtime writes, it says with this that they lie inside the block the
    runtime asked for. *)
Definition inside (q n p len : Z) : Prop := p <= q /\ q + n <= p + len.

(** The uses of an operation under which the invariant is kept, given the
    value [r] the operation returned in the state [w]:
    - a constructor that places handle and payload in one block got a block
      [r] whose handle (and alignment padding) lies inside the address
      space, and an alignment is a positive number;
    - a foreign data pointer that is wrapped is not null;
    - a resize succeeded;
    - the pointer given to [NRT_MemInfo_varsize_free] is not the current
      payload of the handle. *)
Definition admissible (op : public_op) (r : Z) (w : World) : Prop :=
  match op with
  | Op_alloc _ | Op_alloc_external _ _ | Op_alloc_safe _ | Op_alloc_dtor_safe _ _ =>
      in_address_space r sizeof_MemInfo
  | Op_alloc_aligned _ al | Op_alloc_safe_aligned _ al
  | Op_alloc_safe_aligned_external _ al _ =>
      0 < al /\ in_address_space r (sizeof_MemInfo + al)
  | Op_new d _ _ _ | Op_manage_memory d _ => d <> NULL
  | Op_varsize_alloc _ _ | Op_varsize_realloc _ _ => r <> NULL
  | Op_varsize_free mi ptr =>
      forall m, meminfos w !! mi = Some m -> data m <> ptr
  | _ => True
  end.

(** The states a caller can reach from [w0] by admissible uses of the
    operations that return. *)
Inductive reachable (w0 : World) : World -> Prop :=
  | reach_start : reachable w0 w0
  | reach_step (w w' : World) (op : public_op) (r : Z) :
      reachable w0 w ->
      admissible op r w ->
      exec op w = Ret r w' ->
      reachable w0 w'.

(** A computation that leaves the live handles as they are ... *)
Definition frames {A} (m : M A) : Prop :=
  forall w a w', m w = Ret a w' -> meminfos w' = meminfos w.

(** ... and one that may only free some. *)
Definition shrinks {A} (m : M A) : Prop :=
  forall w a w', m w = Ret a w' -> meminfos w' ⊆ meminfos w.

(** A plain 8-byte handle at 1000. *)
Definition ex_plain : World :=
  after (NRT_MemInfo_alloc 8) (started (1000 :: nil)).

(** A variable-size handle built, acquired, resized and released once, on a
    heap that answers 1000, 2000 and 3000. *)
Definition ex_life0 : World := started (1000 :: 2000 :: 3000 :: nil).
Definition ex_life1 : World := after (NRT_MemInfo_new_varsize 16) ex_life0.
Definition ex_life2 : World := after (NRT_MemInfo_acquire 2000) ex_life1.
Definition ex_life3 : World := after (NRT_MemInfo_varsize_alloc 2000 64) ex_life2.
Definition ex_life4 : World := after (NRT_MemInfo_release 2000) ex_life3.

(** * Vocabulary of the further properties *)

(** A 16-byte variable-size handle at 2000 with the element destructor 777
    and its payload at 1000. *)
Definition ex_varsize_dtor : World :=
  after (NRT_MemInfo_new_varsize_dtor 16 777) (started_with (1000 :: 2000 :: nil) scribble).

(** An external allocator at 12500 whose functions 9001, 9002 and 9003 live
    outside the runtime, with the opaque data 4242. *)
Definition foreign_allocator : NRT_ExternalAllocator :=
  mkExternalAllocator 9001 9002 9003 4242.

Definition ex_foreign_allocator (o : list Z) : World :=
  let w := started o in
  mkWorld (TheMSys w) (meminfos w) (<[12500 := foreign_allocator]> (allocators w))
          (bytes w) (oracle w) (effect w) (trace w).

(** What the handle bookkeeping sees of a state: the live handles and the
    two handle counters. *)
Definition handle_view (w : World) : gmap Z MemInfo * Z * Z :=
  (meminfos w, stats_mi_alloc (TheMSys w), stats_mi_free (TheMSys w)).

(** A computation that leaves the handle bookkeeping as it is. *)
Definition quiet {A} (m : M A) : Prop :=
  forall w a w', m w = Ret a w' -> handle_view w' = handle_view w.

(** A handle with reference count 1 appeared at [r] and was counted. *)
Definition created (r : Z) (w w' : World) : Prop :=
  r <> NULL /\
  exists m,
    refct m = 1 /\
    meminfos w' = <[r := m]> (meminfos w) /\
    stats_mi_alloc (TheMSys w') = wrap64 (stats_mi_alloc (TheMSys w) + 1) /\
    stats_mi_free (TheMSys w') = stats_mi_free (TheMSys w).

(** The handle [m] at [mi] was replaced by [m']; nothing was counted. *)
Definition updated (mi : Z) (m m' : MemInfo) (w w' : World) : Prop :=
  meminfos w !! mi = Some m /\
  meminfos w' = <[mi := m']> (meminfos w) /\
  stats_mi_alloc (TheMSys w') = stats_mi_alloc (TheMSys w) /\
  stats_mi_free (TheMSys w') = stats_mi_free (TheMSys w).

(** The handle [m] at [mi] was destroyed and counted as freed; when its
    destructor is [nrt_varsize_dtor] the block at its data pointer may have
    been freed before. *)
Definition destroyed (mi : Z) (m : MemInfo) (w w' : World) : Prop :=
  meminfos w !! mi = Some m /\
  (meminfos w' = delete mi (meminfos w) \/
   dtor m = &S_nrt_varsize_dtor /\
   meminfos w' = delete mi (delete (data m) (meminfos w))) /\
  stats_mi_alloc (TheMSys w') = stats_mi_alloc (TheMSys w) /\
  stats_mi_free (TheMSys w') = wrap64 (stats_mi_free (TheMSys w) + 1).

(** What an operation that returned [r] did to the handle bookkeeping. *)
Definition footprint (op : public_op) (r : Z) (w w' : World) : Prop :=
  match op with
  | Op_alloc _ | Op_alloc_external _ _ | Op_alloc_safe _ | Op_alloc_dtor_safe _ _
  | Op_alloc_aligned _ _ | Op_alloc_safe_aligned _ _
  | Op_alloc_safe_aligned_external _ _ _
  | Op_new _ _ _ _ | Op_manage_memory _ _ => created r w w'
  | Op_new_varsize _ | Op_new_varsize_dtor _ _ =>
      (r = NULL /\ handle_view w' = handle_view w) \/ created r w w'
  | Op_acquire mi =>
      exists m, 0 < refct m /\
                updated mi m (set_refct (wrap64 (refct m + 1)) m) w w'
  | Op_release mi =>
      exists m, 0 < refct m /\
                if wrap64 (refct m - 1) =? 0 then destroyed mi m w w'
                else updated mi m (set_refct (wrap64 (refct m - 1)) m) w w'
  | Op_varsize_alloc mi _ | Op_varsize_realloc mi _ =>
      exists m m', refct m' = refct m /\ updated mi m m' w w'
  | Op_varsize_free mi ptr =>
      exists m,
        meminfos w !! mi = Some m /\ ptr <> mi /\
        meminfos w' =
          (if ptr =? data m then <[mi := set_data NULL m]> (delete ptr (meminfos w))
           else delete ptr (meminfos w)) /\
        stats_mi_alloc (TheMSys w') = stats_mi_alloc (TheMSys w) /\
        stats_mi_free (TheMSys w') = stats_mi_free (TheMSys w)
  end.

(** Every live handle has a reference count between 1 and [SIZE_MAX]. *)
Definition counts_valid (w : World) : Prop :=
  forall a m, meminfos w !! a = Some m -> 0 < refct m <= SIZE_MAX.

(** The states a caller can reach from [w0] by operations that return, each
    used as [ok] allows, given the value [r] it returned in the state [w]. *)
Inductive reaches (ok : public_op -> Z -> World -> Prop) (w0 : World) : World -> Prop :=
  | reaches_start : reaches ok w0 w0
  | reaches_step (w w' : World) (op : public_op) (r : Z) :
      reaches ok w0 w ->
      ok op r w ->
      exec op w = Ret r w' ->
      reaches ok w0 w'.

(** No acquire on a handle whose count is [SIZE_MAX]: [mi->refct++] would
    wrap to 0. *)
Definition no_overflow (op : public_op) (r : Z) (w : World) : Prop :=
  match op with
  | Op_acquire mi => forall m, meminfos w !! mi = Some m -> refct m < SIZE_MAX
  | _ => True
  end.

(** [stats_mi_alloc - stats_mi_free], in [size_t] arithmetic, is the number
    of live handles. *)
Definition handles_counted (w : World) : Prop :=
  wrap64 (stats_mi_alloc (TheMSys w) - stats_mi_free (TheMSys w)) =
  wrap64 (Z.of_nat (base.size (meminfos w))).

(** The blocks of the heap are apart: a constructor that returned a handle
    did not get the address of a live handle from the allocator, and a
    payload that is freed (by the release of a variable-size handle or by
    [NRT_MemInfo_varsize_free]) is not the block of a live handle. *)
Definition blocks_apart (op : public_op) (r : Z) (w : World) : Prop :=
  match op with
  | Op_acquire _ | Op_varsize_alloc _ _ | Op_varsize_realloc _ _ => True
  | Op_release mi =>
      forall m, meminfos w !! mi = Some m -> dtor m = &S_nrt_varsize_dtor ->
                meminfos w !! data m = None
  | Op_varsize_free _ ptr => meminfos w !! ptr = None
  | _ => r <> NULL -> meminfos w !! r = None
  end.

(** The handle of [ex_life4] released once more: nothing is left. *)
Definition ex_life5 : World := after (NRT_MemInfo_release 2000) ex_life4.

(** * Properties *)

(** ** The symbol table *)

Lemma symbol_at_addr_of (s : symbol) : symbol_at &s = Some s.
Proof. destruct s; reflexivity. Qed.

Lemma addr_of_nonnull (s : symbol) : &s <> NULL.
Proof. destruct s; discriminate. Qed.

Lemma addr_of_inj (s t : symbol) : &s = &t -> s = t.
Proof.
  intros H. pose proof (symbol_at_addr_of s) as Hs.
  rewrite H, symbol_at_addr_of in Hs. congruence.
Qed.

Lemma symbol_at_Some (a : Z) (s : symbol) : symbol_at a = Some s -> a = &s.
Proof.
  unfold symbol_at. intros H. apply List.find_some in H as [_ H].
  apply Z.eqb_eq in H. congruence.
Qed.

(** ** Machine integers *)

Lemma wrap64_small (z : Z) : 0 <= z < 2 ^ 64 -> wrap64 z = z.
Proof. intros H. unfold wrap64. apply Z.mod_small. exact H. Qed.

Lemma wrap64_range (z : Z) : 0 <= wrap64 z < 2 ^ 64.
Proof. unfold wrap64. apply Z.mod_pos_bound. lia. Qed.

(** ** Rebinding the allocator *)

Lemma set_allocator_cases (m r f : Z) (w : World) :
  (differs m r f (TheMSys w) /\ unbalanced (TheMSys w) /\
   NRT_MemSys_set_allocator m r f w =
     Abort "cannot change allocator while blocks are allocated" w) \/
  (~ (differs m r f (TheMSys w) /\ unbalanced (TheMSys w)) /\
   NRT_MemSys_set_allocator m r f w = Ret tt (rebound m r f w)).
Proof.
  unfold NRT_MemSys_set_allocator, differs, unbalanced, rebound, bind, get_msys,
    nrt_fatal_error, modify_msys, modify, ret.
  destruct (Z.eqb_spec m (malloc (allocator (TheMSys w))));
  destruct (Z.eqb_spec r (realloc (allocator (TheMSys w))));
  destruct (Z.eqb_spec f (free (allocator (TheMSys w))));
  destruct (Z.eqb_spec (stats_alloc (TheMSys w)) (stats_free (TheMSys w)));
  destruct (Z.eqb_spec (stats_mi_alloc (TheMSys w)) (stats_mi_free (TheMSys w)));
  simpl; first [ left; split; [tauto | split; [tauto | reflexivity]]
               | right; split; [tauto | reflexivity] ].
Qed.

(** C6. [NRT_MemSys_set_allocator] aborts exactly when one of the three
    supplied functions differs from the current binding and the counters are
    unbalanced ([stats_alloc <> stats_free] or [stats_mi_alloc <>
    stats_mi_free]); the abort leaves the binding as it was.  In every other
    case it returns with all three functions bound to the supplied ones and
    nothing else changed. *)
Theorem set_allocator_aborts_iff (m r f : Z) (w : World) :
  ((exists msg w', NRT_MemSys_set_allocator m r f w = Abort msg w') <->
   (differs m r f (TheMSys w) /\ unbalanced (TheMSys w))) /\
  (NRT_MemSys_set_allocator m r f w =
     Abort "cannot change allocator while blocks are allocated" w <->
   (differs m r f (TheMSys w) /\ unbalanced (TheMSys w))) /\
  (NRT_MemSys_set_allocator m r f w = Ret tt (rebound m r f w) <->
   ~ (differs m r f (TheMSys w) /\ unbalanced (TheMSys w))) /\
  allocator (TheMSys (rebound m r f w)) = mkAllocator m r f.
Proof.
  destruct (set_allocator_cases m r f w) as [(Hd & Hu & E) | (Hn & E)];
    rewrite E.
  - split; [split; [tauto | eauto] |].
    split; [tauto |]. split; [| reflexivity].
    split; [discriminate | tauto].
  - split; [split; [intros (msg & w' & Hab); discriminate | tauto] |].
    split; [split; [discriminate | tauto] |].
    split; [tauto | reflexivity].
Qed.

(** ** Stepping through the monad *)

Lemma bind_Ret {A B} (m : M A) (k : A -> M B) (w w' : World) (a : A) :
  m w = Ret a w' -> bind m k w = k a w'.
Proof. intros H. unfold bind. rewrite H. reflexivity. Qed.

Lemma load_live (mi : Z) (m : MemInfo) (w : World) :
  meminfos w !! mi = Some m -> load mi w = Ret m w.
Proof. intros H. unfold load. rewrite H. reflexivity. Qed.

Lemma load_dead (mi : Z) (w : World) :
  meminfos w !! mi = None -> load mi w = Undefined.
Proof. intros H. unfold load. rewrite H. reflexivity. Qed.

Lemma store_live (mi : Z) (f : MemInfo -> MemInfo) (m : MemInfo) (w : World) :
  meminfos w !! mi = Some m ->
  store mi f w = Ret tt (set_meminfos (<[mi := f m]> (meminfos w)) w).
Proof. intros H. unfold store. rewrite (bind_Ret _ _ _ _ _ (load_live _ _ _ H)). reflexivity. Qed.

Lemma indirect_ok (f : Z) (a : list Z) (w : World) :
  f <> NULL -> indirect f a w = Ret tt (log (mkEvent f a) w).
Proof.
  intros H. unfold indirect. destruct (Z.eqb_spec f NULL); [contradiction | reflexivity].
Qed.

Lemma NRT_Free_ok (ptr : Z) (w : World) :
  free (allocator (TheMSys w)) <> NULL -> NRT_Free ptr w = Ret tt (freed ptr w).
Proof.
  intros H. unfold NRT_Free, call_free, get_msys, bind.
  rewrite (indirect_ok _ _ _ H). reflexivity.
Qed.

Lemma NRT_Allocate_ok (sz : Z) (w : World) :
  malloc (allocator (TheMSys w)) <> NULL ->
  NRT_Allocate sz w = Ret (hd NULL (oracle w)) (allocated sz w).
Proof.
  intros H. unfold NRT_Allocate, NRT_Allocate_External, call_alloc, get_msys, bind.
  simpl. rewrite (indirect_ok _ _ _ H). reflexivity.
Qed.

Lemma NRT_Reallocate_ok (ptr sz : Z) (w : World) :
  realloc (allocator (TheMSys w)) <> NULL ->
  NRT_Reallocate ptr sz w = Ret (hd NULL (oracle w)) (reallocated ptr sz w).
Proof.
  intros H. unfold NRT_Reallocate, call_alloc, get_msys, bind.
  rewrite (indirect_ok _ _ _ H). reflexivity.
Qed.

(** ** Resizing a handle that is not variable-size *)

(** C7. [NRT_MemInfo_varsize_alloc] and [NRT_MemInfo_varsize_realloc] on a
    live handle whose destructor is not [nrt_varsize_dtor] end in
    [nrt_fatal_error] (the process aborts): nothing is returned, and the
    state at the abort is the state at the call. *)
Theorem varsize_resize_requires_varsize_dtor
    (mi sz : Z) (m : MemInfo) (w : World) :
  meminfos w !! mi = Some m ->
  dtor m <> &S_nrt_varsize_dtor ->
  NRT_MemInfo_varsize_alloc mi sz w =
    Abort "ERROR: NRT_MemInfo_varsize_alloc called with a non varsize-allocated meminfo" w /\
  NRT_MemInfo_varsize_realloc mi sz w =
    Abort "ERROR: NRT_MemInfo_varsize_realloc called with a non varsize-allocated meminfo" w.
Proof.
  intros Hm Hd.
  unfold NRT_MemInfo_varsize_alloc, NRT_MemInfo_varsize_realloc.
  rewrite !(bind_Ret _ _ _ _ _ (load_live _ _ _ Hm)).
  destruct (Z.eqb_spec (dtor m) &S_nrt_varsize_dtor); [contradiction |].
  split; reflexivity.
Qed.

(** The handle [NRT_MemInfo_alloc] built is not variable-size: resizing it
    is fatal. *)
Lemma varsize_resize_requires_varsize_dtor_witness :
  meminfos ex_plain !! 1000 = Some (mkMemInfo 1 NULL NULL 1048 8 NULL) /\
  NRT_MemInfo_varsize_alloc 1000 64 ex_plain =
    Abort "ERROR: NRT_MemInfo_varsize_alloc called with a non varsize-allocated meminfo"
          ex_plain /\
  NRT_MemInfo_varsize_realloc 1000 64 ex_plain =
    Abort "ERROR: NRT_MemInfo_varsize_realloc called with a non varsize-allocated meminfo"
          ex_plain.
Proof.
  split; [vm_compute; reflexivity |].
  apply (varsize_resize_requires_varsize_dtor 1000 64
           (mkMemInfo 1 NULL NULL 1048 8 NULL) ex_plain).
  - vm_compute. reflexivity.
  - discriminate.
Defined.


Ltac step L := rewrite (bind_Ret _ _ _ _ _ L).

(** Unfold the counter updates down to the record and its fields. *)
Ltac msys_simpl :=
  cbv [incr_stats_alloc incr_stats_free incr_stats_mi_alloc incr_stats_mi_free
       set_allocator];
  cbn [shutting stats_alloc stats_free stats_mi_alloc stats_mi_free allocator].

(** Unfold the state updates down to the record and its fields. *)
Ltac world_simpl :=
  cbv [set_TheMSys set_meminfos set_bytes set_oracle log];
  cbn [TheMSys meminfos allocators bytes oracle effect trace].

(** ** A resize whose allocation fails *)

Lemma varsize_alloc_fails (mi sz : Z) (m : MemInfo) (w : World) :
  meminfos w !! mi = Some m ->
  dtor m = &S_nrt_varsize_dtor ->
  malloc (allocator (TheMSys w)) <> NULL ->
  allocation_fails w ->
  NRT_MemInfo_varsize_alloc mi sz w =
    Ret NULL (set_meminfos (<[mi := set_data NULL m]> (meminfos w)) (allocated sz w)).
Proof.
  intros Hm Hd Hf Ho. unfold NRT_MemInfo_varsize_alloc.
  step (load_live _ _ _ Hm).
  rewrite Hd, Z.eqb_refl. cbn [negb].
  step (NRT_Allocate_ok sz w Hf).
  rewrite Ho.
  step (store_live mi (set_data NULL) m (allocated sz w) Hm).
  reflexivity.
Qed.

Lemma varsize_realloc_fails (mi sz : Z) (m : MemInfo) (w : World) :
  meminfos w !! mi = Some m ->
  dtor m = &S_nrt_varsize_dtor ->
  realloc (allocator (TheMSys w)) <> NULL ->
  allocation_fails w ->
  NRT_MemInfo_varsize_realloc mi sz w =
    Ret NULL (set_meminfos (<[mi := set_data NULL m]> (meminfos w))
                           (reallocated (data m) sz w)).
Proof.
  intros Hm Hd Hf Ho. unfold NRT_MemInfo_varsize_realloc.
  step (load_live _ _ _ Hm).
  rewrite Hd, Z.eqb_refl. cbn [negb].
  step (NRT_Reallocate_ok (data m) sz w Hf).
  rewrite Ho.
  step (store_live mi (set_data NULL) m (reallocated (data m) sz w) Hm).
  reflexivity.
Qed.

(** C3, as the code has it.  When the underlying allocation fails,
    [NRT_MemInfo_varsize_alloc] and [NRT_MemInfo_varsize_realloc] return
    [NULL] and the handle stays live, with its reference count, size,
    destructor and every other handle as before and nothing released
    ([stats_free] and [stats_mi_free] unchanged); its [data] field however
    has been overwritten with [NULL]: the assignment [mi->data = ...] comes
    before the test. *)
Theorem varsize_resize_failure (mi sz : Z) (m : MemInfo) (w : World) :
  meminfos w !! mi = Some m ->
  dtor m = &S_nrt_varsize_dtor ->
  malloc (allocator (TheMSys w)) <> NULL ->
  realloc (allocator (TheMSys w)) <> NULL ->
  allocation_fails w ->
  forall op, op = NRT_MemInfo_varsize_alloc \/ op = NRT_MemInfo_varsize_realloc ->
  exists w',
    op mi sz w = Ret NULL w' /\
    meminfos w' = <[mi := set_data NULL m]> (meminfos w) /\
    (exists m', meminfos w' !! mi = Some m' /\
       data m' = NULL /\ refct m' = refct m /\ size m' = size m /\
       dtor m' = dtor m /\ dtor_info m' = dtor_info m) /\
    stats_free (TheMSys w') = stats_free (TheMSys w) /\
    stats_mi_free (TheMSys w') = stats_mi_free (TheMSys w) /\
    stats_mi_alloc (TheMSys w') = stats_mi_alloc (TheMSys w).
Proof.
  intros Hm Hd Hma Hre Ho op [-> | ->].
  - rewrite (varsize_alloc_fails mi sz m w Hm Hd Hma Ho).
    eexists. split; [reflexivity |]. split; [reflexivity |].
    split; [| repeat split].
    exists (set_data NULL m). split; [apply lookup_insert_eq | repeat split].
  - rewrite (varsize_realloc_fails mi sz m w Hm Hd Hre Ho).
    eexists. split; [reflexivity |]. split; [reflexivity |].
    split; [| repeat split].
    exists (set_data NULL m). split; [apply lookup_insert_eq | repeat split].
Qed.

(** C3 as the claim has it fails: the handle at 2000 holds the payload 1000;
    a failed [NRT_MemInfo_varsize_alloc] returns [NULL] and the handle's
    data pointer reads [NULL] afterwards, not 1000. *)
Lemma varsize_alloc_failure_loses_data :
  value_of (NRT_MemInfo_data 2000 ex_varsize) = Some 1000 /\
  allocation_fails ex_varsize /\
  value_of ((do r <- NRT_MemInfo_varsize_alloc 2000 64;
             do d <- NRT_MemInfo_data 2000;
             do n <- NRT_MemInfo_refcount 2000;
             ret (r, d, n)) ex_varsize) = Some (NULL, NULL, SIZE_MAX).
Proof. vm_compute. repeat split. Qed.

Lemma varsize_resize_failure_witness :
  exists w',
    NRT_MemInfo_varsize_alloc 2000 64 ex_varsize = Ret NULL w' /\
    meminfos w' !! 2000 =
      Some (mkMemInfo 1 &S_nrt_varsize_dtor NULL NULL 16 NULL).
Proof.
  destruct (varsize_resize_failure 2000 64
              (mkMemInfo 1 &S_nrt_varsize_dtor NULL 1000 16 NULL) ex_varsize)
    with (op := NRT_MemInfo_varsize_alloc)
    as (w' & E & Hh & _).
  - vm_compute. reflexivity.
  - reflexivity.
  - vm_compute. discriminate.
  - vm_compute. discriminate.
  - reflexivity.
  - left. reflexivity.
  - exists w'. split; [exact E |]. rewrite Hh. vm_compute. reflexivity.
Defined.

(** ** Allocation *)

Lemma NRT_MemInfo_init_ok (mi d s f i e : Z) (w : World) :
  mi <> NULL ->
  NRT_MemInfo_init mi d s f i e w = Ret tt (initialised mi (mkMemInfo 1 f i d s e) w).
Proof.
  intros H. unfold NRT_MemInfo_init.
  destruct (Z.eqb_spec mi NULL); [contradiction | reflexivity].
Qed.

Lemma NRT_MemInfo_init_null (d s f i e : Z) (w : World) :
  NRT_MemInfo_init NULL d s f i e w = Undefined.
Proof. reflexivity. Qed.

Lemma load_allocator_ok (a : Z) (ea : NRT_ExternalAllocator) (w : World) :
  allocators w !! a = Some ea -> load_allocator a w = Ret ea w.
Proof. intros H. unfold load_allocator. rewrite H. reflexivity. Qed.

Lemma NRT_Allocate_External_global (sz : Z) (w : World) :
  malloc (allocator (TheMSys w)) <> NULL ->
  NRT_Allocate_External sz NULL w = Ret (hd NULL (oracle w)) (allocated sz w).
Proof. apply NRT_Allocate_ok. Qed.

Lemma NRT_Allocate_External_env (sz a : Z) (ea : NRT_ExternalAllocator) (w : World) :
  a <> NULL ->
  allocators w !! a = Some ea ->
  ext_malloc ea <> NULL ->
  symbol_at (ext_malloc ea) <> Some S_sample_external_malloc ->
  NRT_Allocate_External sz a w = Ret (hd NULL (oracle w)) (allocated_by ea sz w).
Proof.
  intros Ha Hea Hf Hs. unfold NRT_Allocate_External.
  destruct (Z.eqb_spec a NULL); [contradiction |]. cbn [negb].
  unfold bind at 1. unfold bind at 1. rewrite (load_allocator_ok _ _ _ Hea).
  unfold call_ext_malloc. step (indirect_ok (ext_malloc ea) (sz :: opaque_data ea :: nil) w Hf).
  destruct (symbol_at (ext_malloc ea)) as [[] |]; try reflexivity.
  contradiction.
Qed.

Lemma NRT_Allocate_External_sample (sz a : Z) (ea : NRT_ExternalAllocator) (w : World) :
  a <> NULL ->
  allocators w !! a = Some ea ->
  ext_malloc ea = &S_sample_external_malloc ->
  malloc (allocator (TheMSys w)) <> NULL ->
  NRT_Allocate_External sz a w =
    if opaque_data ea =? &S_sample_external_opaque_data
    then Ret (hd NULL (oracle w)) (allocated_by_sample ea sz w)
    else Ret NULL (refused_by_sample ea sz w).
Proof.
  intros Ha Hea Hf Hm. unfold NRT_Allocate_External.
  destruct (Z.eqb_spec a NULL); [contradiction |]. cbn [negb].
  unfold bind at 1. unfold bind at 1. rewrite (load_allocator_ok _ _ _ Hea).
  unfold call_ext_malloc.
  assert (Hnn : ext_malloc ea <> NULL) by (rewrite Hf; apply addr_of_nonnull).
  step (indirect_ok (ext_malloc ea) (sz :: opaque_data ea :: nil) w Hnn).
  assert (Hs : symbol_at (ext_malloc ea) = Some S_sample_external_malloc)
    by (rewrite Hf; apply symbol_at_addr_of).
  rewrite Hs. unfold sample_external_malloc.
  destruct (opaque_data ea =? &S_sample_external_opaque_data); cbn [negb].
  - unfold get_msys, call_alloc, bind at 1. unfold bind at 1. unfold bind at 1.
    cbn [TheMSys log].
    rewrite (indirect_ok _ (sz :: nil) _ Hm). reflexivity.
  - reflexivity.
Qed.

Lemma NRT_MemInfo_new_varsize_fails (sz : Z) (w : World) :
  malloc (allocator (TheMSys w)) <> NULL ->
  allocation_fails w ->
  NRT_MemInfo_new_varsize sz w = Ret NULL (allocated sz w).
Proof.
  intros Hm Ho. unfold NRT_MemInfo_new_varsize.
  step (NRT_Allocate_ok sz w Hm). rewrite Ho. reflexivity.
Qed.

(** A failing call of [NRT_Allocate_External], whatever allocator it goes
    through. *)
Lemma NRT_Allocate_External_fails (sz a : Z) (w : World) :
  malloc (allocator (TheMSys w)) <> NULL ->
  (a = NULL \/ exists ea, allocators w !! a = Some ea /\ ext_malloc ea <> NULL) ->
  allocation_fails w ->
  exists w',
    NRT_Allocate_External sz a w = Ret NULL w' /\
    meminfos w' = meminfos w /\
    TheMSys w' = incr_stats_alloc (TheMSys w).
Proof.
  intros Hm Ha Ho. destruct (Z.eq_dec a NULL) as [-> | Hn].
  - rewrite (NRT_Allocate_External_global sz w Hm), Ho. eauto.
  - destruct Ha as [-> | (ea & Hea & Hf)]; [contradiction |].
    destruct (Z.eq_dec (ext_malloc ea) &S_sample_external_malloc) as [Hs | Hs].
    + rewrite (NRT_Allocate_External_sample sz a ea w Hn Hea Hs Hm), Ho.
      destruct (opaque_data ea =? &S_sample_external_opaque_data); eauto.
    + rewrite (NRT_Allocate_External_env sz a ea w Hn Hea Hf), Ho; [eauto |].
      intros E. apply symbol_at_Some in E. contradiction.
Qed.

(** C2, as the code has it.  When the underlying allocate call returns null,
    [NRT_Allocate_External] (through the global binding or through any
    external allocator) and [NRT_Allocate] return [NULL] to their caller and
    [NRT_MemInfo_new_varsize] returns a null handle; no handle is
    initialised (the live handles are those of before), and
    [stats_mi_alloc], [stats_free] and [stats_mi_free] keep their values.
    [stats_alloc] however counts the call: it is incremented by one,
    failure or not. *)
Theorem failed_allocation_returns_null (sz a : Z) (w : World) :
  malloc (allocator (TheMSys w)) <> NULL ->
  (a = NULL \/ exists ea, allocators w !! a = Some ea /\ ext_malloc ea <> NULL) ->
  allocation_fails w ->
  forall op,
    op = NRT_Allocate_External sz a \/ op = NRT_Allocate sz \/
    op = NRT_MemInfo_new_varsize sz ->
  exists w',
    op w = Ret NULL w' /\
    meminfos w' = meminfos w /\
    stats_mi_alloc (TheMSys w') = stats_mi_alloc (TheMSys w) /\
    stats_free (TheMSys w') = stats_free (TheMSys w) /\
    stats_mi_free (TheMSys w') = stats_mi_free (TheMSys w) /\
    stats_alloc (TheMSys w') = wrap64 (stats_alloc (TheMSys w) + 1).
Proof.
  intros Hm Ha Ho op [-> | [-> | ->]].
  - destruct (NRT_Allocate_External_fails sz a w Hm Ha Ho) as (w' & E & Hh & Hs).
    exists w'. rewrite Hs. repeat split; assumption.
  - rewrite (NRT_Allocate_ok sz w Hm), Ho. eexists. repeat split.
  - rewrite (NRT_MemInfo_new_varsize_fails sz w Hm Ho). eexists. repeat split.
Qed.

(** C2 as the claim has it fails: on an exhausted heap [NRT_Allocate_External]
    returns [NULL] and [stats_alloc] goes from 0 to 1 all the same; and
    [NRT_MemInfo_alloc] does not return a null handle, it initialises the
    handle through the null pointer. *)
Lemma failed_allocation_is_counted :
  allocation_fails (started nil) /\
  value_of (NRT_MemSys_get_stats_alloc (started nil)) = Some 0 /\
  value_of ((do p <- NRT_Allocate_External 8 NULL;
             do n <- NRT_MemSys_get_stats_alloc;
             ret (p, n)) (started nil)) = Some (NULL, 1) /\
  NRT_MemInfo_alloc 8 (started nil) = Undefined.
Proof. vm_compute. repeat split. Qed.

Lemma failed_allocation_returns_null_witness :
  exists w',
    NRT_MemInfo_new_varsize 16 (started nil) = Ret NULL w' /\
    meminfos w' = meminfos (started nil) /\
    stats_alloc (TheMSys w') = 1.
Proof.
  destruct (failed_allocation_returns_null 16 NULL (started nil))
    with (op := NRT_MemInfo_new_varsize 16)
    as (w' & E & Hh & _ & _ & _ & Hs).
  - vm_compute. discriminate.
  - left. reflexivity.
  - reflexivity.
  - right. right. reflexivity.
  - exists w'. split; [exact E |]. split; [exact Hh |]. rewrite Hs. reflexivity.
Defined.

Lemma nrt_allocate_meminfo_and_data_ok (sz a p : Z) (w w1 : World) :
  NRT_Allocate_External (wrap64 (sizeof_MemInfo + sz)) a w = Ret p w1 ->
  nrt_allocate_meminfo_and_data sz a w = Ret (wrap64 (p + sizeof_MemInfo), p) w1.
Proof. intros E. unfold nrt_allocate_meminfo_and_data. step E. reflexivity. Qed.

Lemma NRT_MemInfo_alloc_external_ok (sz a p : Z) (w w1 : World) :
  NRT_Allocate_External (wrap64 (sizeof_MemInfo + sz)) a w = Ret p w1 ->
  p <> NULL ->
  NRT_MemInfo_alloc_external sz a w =
    Ret p (initialised p (mkMemInfo 1 NULL NULL (wrap64 (p + sizeof_MemInfo)) sz a) w1).
Proof.
  intros E Hp. unfold NRT_MemInfo_alloc_external.
  step (nrt_allocate_meminfo_and_data_ok sz a p w w1 E). cbv beta iota.
  step (NRT_MemInfo_init_ok p (wrap64 (p + sizeof_MemInfo)) sz NULL NULL a w1 Hp).
  reflexivity.
Qed.

(** ** The sample external allocator *)

(** C4, as the code has it.  Through an external allocator whose [malloc] is
    [sample_external_malloc]: with the expected token the allocation returns
    what the platform [malloc] returns, and a handle built on a non-null
    answer is live with reference count 1 and remembers its allocator; with
    any other token the allocation returns [NULL] and the platform [malloc]
    is not called.  In both cases the global [stats_alloc] is incremented
    by one (and a handle that is built increments [stats_mi_alloc]); the
    freed counters and the global binding are not touched. *)
Theorem sample_allocator_checks_token
    (sz a : Z) (ea : NRT_ExternalAllocator) (w : World) :
  a <> NULL ->
  allocators w !! a = Some ea ->
  ext_malloc ea = &S_sample_external_malloc ->
  malloc (allocator (TheMSys w)) <> NULL ->
  (exists w',
     NRT_Allocate_External sz a w =
       Ret (if opaque_data ea =? &S_sample_external_opaque_data
            then hd NULL (oracle w) else NULL) w' /\
     (opaque_data ea <> &S_sample_external_opaque_data -> oracle w' = oracle w) /\
     stats_alloc (TheMSys w') = wrap64 (stats_alloc (TheMSys w) + 1) /\
     stats_mi_alloc (TheMSys w') = stats_mi_alloc (TheMSys w) /\
     stats_free (TheMSys w') = stats_free (TheMSys w) /\
     stats_mi_free (TheMSys w') = stats_mi_free (TheMSys w) /\
     allocator (TheMSys w') = allocator (TheMSys w) /\
     meminfos w' = meminfos w) /\
  (opaque_data ea = &S_sample_external_opaque_data ->
   hd NULL (oracle w) <> NULL ->
   exists w',
     NRT_MemInfo_alloc_external sz a w = Ret (hd NULL (oracle w)) w' /\
     meminfos w' !! hd NULL (oracle w) =
       Some (mkMemInfo 1 NULL NULL (wrap64 (hd NULL (oracle w) + sizeof_MemInfo)) sz a) /\
     stats_alloc (TheMSys w') = wrap64 (stats_alloc (TheMSys w) + 1) /\
     stats_mi_alloc (TheMSys w') = wrap64 (stats_mi_alloc (TheMSys w) + 1) /\
     stats_free (TheMSys w') = stats_free (TheMSys w) /\
     stats_mi_free (TheMSys w') = stats_mi_free (TheMSys w) /\
     allocator (TheMSys w') = allocator (TheMSys w)).
Proof.
  intros Ha Hea Hf Hm. split.
  - rewrite (NRT_Allocate_External_sample sz a ea w Ha Hea Hf Hm).
    destruct (Z.eqb_spec (opaque_data ea) &S_sample_external_opaque_data).
    + eexists. split; [reflexivity |]. split; [contradiction | repeat split].
    + eexists. split; [reflexivity |]. repeat split.
  - intros Ht Hp.
    pose proof (NRT_Allocate_External_sample (wrap64 (sizeof_MemInfo + sz)) a ea w
                  Ha Hea Hf Hm) as E.
    rewrite Ht, Z.eqb_refl in E.
    rewrite (NRT_MemInfo_alloc_external_ok sz a _ w _ E Hp).
    eexists. split; [reflexivity |].
    split; [apply lookup_insert_eq | repeat split].
Qed.

(** C4 as the claim has it fails: with all four counters at 0, an allocation
    through the sample allocator and its own token returns the handle 1000
    and leaves [stats_alloc] and [stats_mi_alloc] at 1; an allocation through
    the copy that carries another token returns [NULL] and leaves
    [stats_alloc] at 1. *)
Lemma sample_allocator_touches_counters :
  value_of ((do mi <- NRT_MemInfo_alloc_external 8 &S_sample_external_allocator;
             do n <- NRT_MemSys_get_stats_alloc;
             do k <- NRT_MemSys_get_stats_mi_alloc;
             ret (mi, n, k)) (ex_two_allocators (1000 :: nil))) = Some (1000, 1, 1) /\
  value_of ((do p <- NRT_Allocate_External 8 12400;
             do n <- NRT_MemSys_get_stats_alloc;
             ret (p, n)) (ex_two_allocators (1000 :: nil))) = Some (NULL, 1) /\
  value_of ((do n <- NRT_MemSys_get_stats_alloc;
             do k <- NRT_MemSys_get_stats_mi_alloc;
             ret (n, k)) (ex_two_allocators (1000 :: nil))) = Some (0, 0).
Proof. vm_compute. repeat split. Qed.

Lemma sample_allocator_checks_token_witness :
  (exists w',
     NRT_Allocate_External 8 12400 (ex_two_allocators (1000 :: nil)) = Ret NULL w' /\
     oracle w' = 1000 :: nil /\
     stats_alloc (TheMSys w') = 1) /\
  (exists w',
     NRT_MemInfo_alloc_external 8 &S_sample_external_allocator
       (ex_two_allocators (1000 :: nil)) = Ret 1000 w' /\
     meminfos w' !! 1000 =
       Some (mkMemInfo 1 NULL NULL 1048 8 &S_sample_external_allocator)).
Proof.
  split.
  - destruct (sample_allocator_checks_token 8 12400 mismatched_allocator
                (ex_two_allocators (1000 :: nil)))
      as ((w' & E & Ho & Hs & _) & _).
    + discriminate.
    + vm_compute. reflexivity.
    + reflexivity.
    + vm_compute. discriminate.
    + exists w'. split; [exact E |]. split; [apply Ho; discriminate |].
      rewrite Hs. reflexivity.
  - destruct (sample_allocator_checks_token 8 &S_sample_external_allocator
                sample_external_allocator (ex_two_allocators (1000 :: nil)))
      as (_ & H).
    + discriminate.
    + vm_compute. reflexivity.
    + reflexivity.
    + vm_compute. discriminate.
    + destruct H as (w' & E & Hh & _); [reflexivity | discriminate |].
      exists w'. split; [exact E | exact Hh].
Defined.

(** ** Traces *)

Lemma count_event_app (e : event) (t1 t2 : list event) :
  count_event e (t1 ++ t2) = (count_event e t1 + count_event e t2)%nat.
Proof. induction t1 as [| x t1 IH]; simpl; [reflexivity | rewrite IH; lia]. Qed.

Lemma event_eqb_refl (e : event) : event_eqb e e = true.
Proof.
  unfold event_eqb. rewrite Z.eqb_refl. simpl.
  apply bool_decide_eq_true. reflexivity.
Qed.

Lemma event_eqb_length (e x : event) :
  length (args e) <> length (args x) -> event_eqb e x = false.
Proof.
  intros H. unfold event_eqb. apply andb_false_iff. right.
  apply bool_decide_eq_false. congruence.
Qed.

Lemma event_eqb_args (e x : event) :
  args e <> args x -> event_eqb e x = false.
Proof.
  intros H. unfold event_eqb. apply andb_false_iff. right.
  apply bool_decide_eq_false. exact H.
Qed.

(** ** Giving a handle's block back *)

Lemma NRT_dealloc_spec (mi : Z) (m : MemInfo) (w : World) :
  meminfos w !! mi = Some m ->
  can_dealloc w m ->
  NRT_dealloc mi w =
    Ret tt (mkWorld (incr_stats_free (TheMSys w)) (delete mi (meminfos w))
                    (allocators w) (bytes w) (oracle w) (effect w)
                    (trace w ++ release_calls w mi m)).
Proof.
  intros Hm Hc. unfold NRT_dealloc, can_dealloc, release_calls in *.
  step (load_live _ _ _ Hm).
  destruct (Z.eqb_spec (external_allocator m) NULL) as [He | He]; cbn [negb].
  - rewrite (NRT_Free_ok mi w Hc). reflexivity.
  - destruct Hc as (ea & Hea & Hf & Hs). rewrite Hea.
    step (load_allocator_ok _ _ _ Hea).
    unfold call_ext_free.
    unfold bind at 1. unfold bind at 1.
    rewrite (indirect_ok _ (mi :: opaque_data ea :: nil) w Hf).
    destruct (Z.eqb_spec (ext_free ea) &S_sample_external_free) as [Es | Es].
    + assert (Hsym : symbol_at (ext_free ea) = Some S_sample_external_free)
        by (rewrite Es; apply symbol_at_addr_of).
      rewrite Hsym.
      unfold sample_external_free, call_free, get_msys.
      unfold bind at 1. unfold bind at 1.
      cbn [TheMSys log].
      rewrite (indirect_ok _ (mi :: nil) _ (Hs Es)).
      unfold env_free, modify_msys, modify. world_simpl.
      rewrite <- app_assoc. reflexivity.
    + assert (Hns : symbol_at (ext_free ea) <> Some S_sample_external_free).
      { intros E. apply symbol_at_Some in E. contradiction. }
      destruct (symbol_at (ext_free ea)) as [[] |]; try reflexivity.
      contradiction.
Qed.

Lemma NRT_MemInfo_destroy_spec (mi : Z) (m : MemInfo) (w : World) :
  meminfos w !! mi = Some m ->
  can_dealloc w m ->
  NRT_MemInfo_destroy mi w =
    Ret tt (mkWorld (incr_stats_mi_free (incr_stats_free (TheMSys w)))
                    (delete mi (meminfos w))
                    (allocators w) (bytes w) (oracle w) (effect w)
                    (trace w ++ release_calls w mi m)).
Proof.
  intros Hm Hc. unfold NRT_MemInfo_destroy.
  step (NRT_dealloc_spec mi m w Hm Hc). reflexivity.
Qed.

Lemma count_event_release_calls (e : event) (w : World) (mi : Z) (m : MemInfo) :
  length (args e) = 3%nat -> count_event e (release_calls w mi m) = 0%nat.
Proof.
  intros H. unfold release_calls.
  destruct (external_allocator m =? NULL).
  - simpl. rewrite event_eqb_length; [reflexivity | rewrite H; discriminate].
  - destruct (allocators w !! external_allocator m) as [ea |]; [| reflexivity].
    destruct (ext_free ea =? &S_sample_external_free); simpl;
      rewrite !event_eqb_length; try reflexivity; rewrite H; discriminate.
Qed.
Lemma call_extern_ok (f : Z) (a : list Z) (w : World) :
  f <> NULL ->
  call_extern f a w =
    Ret tt (set_bytes (effect w f a (bytes w)) (log (mkEvent f a) w)).
Proof.
  intros H. unfold call_extern. step (indirect_ok f a w H). reflexivity.
Qed.

Lemma count_event_snoc (e x : event) (t : list event) :
  count_event e (t ++ x :: nil) =
    (count_event e t + if event_eqb e x then 1 else 0)%nat.
Proof. rewrite count_event_app. simpl. lia. Qed.

Lemma call_dtor_spec (f p s i mi : Z) (w : World) :
  f <> NULL ->
  (f = &S_nrt_varsize_dtor -> free (allocator (TheMSys w)) <> NULL /\ p <> mi) ->
  (f = &S_nrt_manage_memory_dtor -> i <> NULL) ->
  exists w',
    call_dtor f p s i w = Ret tt w' /\
    count_event (mkEvent f (p :: s :: i :: nil)) (trace w') =
      S (count_event (mkEvent f (p :: s :: i :: nil)) (trace w)) /\
    meminfos w' !! mi = meminfos w !! mi /\
    allocators w' = allocators w /\
    allocator (TheMSys w') = allocator (TheMSys w) /\
    shutting (TheMSys w') = shutting (TheMSys w) /\
    stats_alloc (TheMSys w') = stats_alloc (TheMSys w) /\
    stats_mi_alloc (TheMSys w') = stats_mi_alloc (TheMSys w) /\
    stats_mi_free (TheMSys w') = stats_mi_free (TheMSys w).
Proof.
  intros Hf Hv Hmm. unfold call_dtor.
  step (indirect_ok f (p :: s :: i :: nil) w Hf).
  destruct (symbol_at f) as [sym |] eqn:E.
  2: { eexists. split; [reflexivity |]. world_simpl.
       rewrite count_event_snoc, event_eqb_refl. repeat split. lia. }
  apply symbol_at_Some in E.
  destruct sym;
    try (eexists; split; [reflexivity |]; world_simpl;
         rewrite count_event_snoc, event_eqb_refl; repeat split; lia).
  - (* nrt_internal_custom_dtor_safe *)
    unfold nrt_internal_custom_dtor_safe.
    destruct (Z.eqb_spec i NULL) as [Hi | Hi]; cbn [negb].
    + eexists; split; [reflexivity |]; world_simpl.
      rewrite count_event_snoc, event_eqb_refl; repeat split; lia.
    + step (call_extern_ok i (p :: s :: NULL :: nil) (log (mkEvent f (p :: s :: i :: nil)) w) Hi).
      eexists; split; [reflexivity |]; world_simpl.
      rewrite !count_event_snoc, event_eqb_refl.
      rewrite event_eqb_args by (cbn; congruence).
      repeat split; lia.
  - (* nrt_varsize_dtor *)
    destruct (Hv E) as [Hfree Hp].
    unfold nrt_varsize_dtor.
    destruct (Z.eqb_spec i NULL) as [Hi | Hi]; cbn [negb].
    + unfold ret, bind at 1.
      rewrite NRT_Free_ok by (world_simpl; exact Hfree).
      eexists; split; [reflexivity |]. unfold freed. world_simpl.
      rewrite !count_event_snoc, event_eqb_refl.
      rewrite event_eqb_length by (cbn; discriminate).
      rewrite lookup_delete_ne by congruence.
      repeat split; lia.
    + step (call_extern_ok i (p :: nil) (log (mkEvent f (p :: s :: i :: nil)) w) Hi).
      rewrite NRT_Free_ok by (world_simpl; exact Hfree).
      eexists; split; [reflexivity |]. unfold freed. world_simpl.
      rewrite !count_event_snoc, event_eqb_refl.
      rewrite !event_eqb_length by (cbn; discriminate).
      rewrite lookup_delete_ne by congruence.
      repeat split; lia.
  - (* nrt_manage_memory_dtor *)
    unfold nrt_manage_memory_dtor.
    rewrite (call_extern_ok i (p :: nil) _ (Hmm E)).
    eexists; split; [reflexivity |]; world_simpl.
    rewrite !count_event_snoc, event_eqb_refl.
    rewrite event_eqb_length by (cbn; discriminate).
    repeat split; lia.
Qed.

(** ** Acquire and release *)

Lemma NRT_MemInfo_acquire_spec (mi : Z) (m : MemInfo) (w : World) :
  meminfos w !! mi = Some m ->
  0 < refct m ->
  NRT_MemInfo_acquire mi w =
    Ret tt (set_meminfos (<[mi := set_refct (wrap64 (refct m + 1)) m]> (meminfos w)) w).
Proof.
  intros Hm Hr. unfold NRT_MemInfo_acquire.
  step (load_live _ _ _ Hm).
  destruct (Z.ltb_spec 0 (refct m)); [| lia].
  unfold assert, ret, bind at 1.
  rewrite (store_live mi _ m w Hm). reflexivity.
Qed.

Lemma NRT_MemInfo_acquire_zero (mi : Z) (m : MemInfo) (w : World) :
  meminfos w !! mi = Some m ->
  refct m <= 0 ->
  NRT_MemInfo_acquire mi w = Abort "RefCt cannot be zero" w.
Proof.
  intros Hm Hr. unfold NRT_MemInfo_acquire.
  step (load_live _ _ _ Hm).
  destruct (Z.ltb_spec 0 (refct m)); [lia | reflexivity].
Qed.

Lemma NRT_MemInfo_release_live (mi : Z) (m : MemInfo) (w : World) :
  meminfos w !! mi = Some m ->
  1 < refct m <= SIZE_MAX ->
  NRT_MemInfo_release mi w =
    Ret tt (set_meminfos (<[mi := set_refct (refct m - 1) m]> (meminfos w)) w).
Proof.
  intros Hm Hr. unfold NRT_MemInfo_release, SIZE_MAX in *.
  step (load_live _ _ _ Hm).
  destruct (Z.ltb_spec 0 (refct m)); [| lia].
  unfold assert, ret, bind at 1.
  rewrite wrap64_small by lia.
  step (store_live mi (set_refct (refct m - 1)) m w Hm).
  destruct (Z.eqb_spec (refct m - 1) 0); [lia | reflexivity].
Qed.

Lemma can_dealloc_frame (w w' : World) (m m' : MemInfo) :
  allocators w' = allocators w ->
  allocator (TheMSys w') = allocator (TheMSys w) ->
  external_allocator m' = external_allocator m ->
  can_dealloc w m -> can_dealloc w' m'.
Proof. unfold can_dealloc. intros -> -> ->. tauto. Qed.

Lemma release_calls_frame (w w' : World) (mi : Z) (m m' : MemInfo) :
  allocators w' = allocators w ->
  allocator (TheMSys w') = allocator (TheMSys w) ->
  external_allocator m' = external_allocator m ->
  release_calls w' mi m' = release_calls w mi m.
Proof. unfold release_calls. intros -> -> ->. reflexivity. Qed.

(** The release that takes the count from 1 to 0. *)
Lemma NRT_MemInfo_release_last (mi : Z) (m : MemInfo) (w : World) :
  meminfos w !! mi = Some m ->
  refct m = 1 ->
  destructible w mi m ->
  exists w',
    NRT_MemInfo_release mi w = Ret tt w' /\
    meminfos w' !! mi = None /\
    count_event (dtor_call m) (trace w') =
      (count_event (dtor_call m) (trace w) + if dtor_fires w m then 1 else 0)%nat /\
    stats_mi_free (TheMSys w') = wrap64 (stats_mi_free (TheMSys w) + 1) /\
    stats_mi_alloc (TheMSys w') = stats_mi_alloc (TheMSys w) /\
    stats_alloc (TheMSys w') = stats_alloc (TheMSys w).
Proof.
  intros Hm Hr [Hc [Hv Hmm]]. unfold NRT_MemInfo_release.
  step (load_live _ _ _ Hm). rewrite Hr. cbn [Z.ltb Z.compare assert].
  unfold ret at 1, bind at 1.
  change (wrap64 (1 - 1)) with 0.
  step (store_live mi (set_refct 0) m w Hm).
  cbn [Z.eqb].
  set (m0 := set_refct 0 m).
  set (w1 := set_meminfos (<[mi := m0]> (meminfos w)) w).
  assert (Hm1 : meminfos w1 !! mi = Some m0) by apply lookup_insert_eq.
  unfold NRT_MemInfo_call_dtor.
  step (load_live _ _ _ Hm1). unfold get_msys, bind at 1.
  change (dtor m0) with (dtor m). change (data m0) with (data m).
  change (size m0) with (size m). change (dtor_info m0) with (dtor_info m).
  change (TheMSys w1) with (TheMSys w).
  unfold dtor_fires.
  destruct (negb (dtor m =? NULL) && (shutting (TheMSys w) =? 0)) eqn:Hfire.
  - apply andb_true_iff in Hfire as [Hd _].
    apply negb_true_iff, Z.eqb_neq in Hd.
    destruct (call_dtor_spec (dtor m) (data m) (size m) (dtor_info m) mi w1 Hd Hv Hmm)
      as (w2 & E & Hcount & Hmi & Hal & Hfr & _ & Hsa & Hsma & Hsmf).
    step E. rewrite Hm1 in Hmi.
    assert (Hc2 : can_dealloc w2 m0).
    { apply (can_dealloc_frame w w2 m m0); try assumption. reflexivity. }
    rewrite (NRT_MemInfo_destroy_spec mi m0 w2 Hmi Hc2).
    eexists. split; [reflexivity |]. world_simpl.
    split; [apply lookup_delete_eq |].
    split.
    { rewrite count_event_app, count_event_release_calls by reflexivity.
      unfold dtor_call in *. rewrite Hcount. change (trace w1) with (trace w). lia. }
    msys_simpl. rewrite Hsmf, Hsma, Hsa. repeat split.
  - unfold ret at 1, bind at 1.
    assert (Hc1 : can_dealloc w1 m0).
    { apply (can_dealloc_frame w w1 m m0); try assumption; reflexivity. }
    rewrite (NRT_MemInfo_destroy_spec mi m0 w1 Hm1 Hc1).
    eexists. split; [reflexivity |]. world_simpl.
    split; [apply lookup_delete_eq |].
    split.
    { rewrite count_event_app, count_event_release_calls by reflexivity.
      change (trace w1) with (trace w). lia. }
    repeat split.
Qed.

Lemma set_refct_id (m : MemInfo) : set_refct (refct m) m = m.
Proof. destruct m; reflexivity. Qed.

Lemma run_ops_dead (ops : list rc_op) (mi : Z) (w : World) :
  meminfos w !! mi = None -> ops <> nil -> run_ops ops mi w = Undefined.
Proof.
  intros Hm Hn. destruct ops as [| [] rest]; [contradiction | |]; simpl;
    unfold NRT_MemInfo_acquire, NRT_MemInfo_release, bind;
    rewrite (load_dead _ _ Hm); reflexivity.
Qed.

Lemma run_ops_spec (ops : list rc_op) :
  forall (mi : Z) (m : MemInfo) (w : World),
  meminfos w !! mi = Some m ->
  0 < refct m ->
  refct m + Z.of_nat (length ops) <= SIZE_MAX ->
  destructible w mi m ->
  match refcount_after ops (refct m) with
  | Some n =>
      exists w',
        run_ops ops mi w = Ret tt w' /\
        if n =? 0
        then meminfos w' !! mi = None /\
             count_event (dtor_call m) (trace w') =
               (count_event (dtor_call m) (trace w) +
                if dtor_fires w m then 1 else 0)%nat
        else meminfos w' !! mi = Some (set_refct n m) /\ trace w' = trace w
  | None => run_ops ops mi w = Undefined
  end.
Proof.
  induction ops as [| o rest IH]; intros mi m w Hm Hr Hb Hd.
  - simpl. exists w. split; [reflexivity |].
    destruct (Z.eqb_spec (refct m) 0); [lia |].
    rewrite set_refct_id. split; [exact Hm | reflexivity].
  - cbn [refcount_after]. destruct (Z.eqb_spec (refct m) 0); [lia |].
    cbn [length] in Hb. unfold SIZE_MAX in *.
    destruct o.
    + (* acquire *)
      cbn [run_ops].
      step (NRT_MemInfo_acquire_spec mi m w Hm Hr).
      rewrite wrap64_small by lia.
      set (m1 := set_refct (refct m + 1) m).
      set (w1 := set_meminfos (<[mi := m1]> (meminfos w)) w).
      assert (Hm1 : meminfos w1 !! mi = Some m1) by apply lookup_insert_eq.
      specialize (IH mi m1 w1 Hm1).
      change (refct m1) with (refct m + 1) in IH.
      specialize (IH ltac:(lia) ltac:(lia) Hd).
      destruct (refcount_after rest (refct m + 1)) as [k |]; [| exact IH].
      destruct IH as (w' & E & H). exists w'. split; [exact E |]. exact H.
    + (* release *)
      cbn [run_ops].
      destruct (Z.eq_dec (refct m) 1) as [H1 | H1].
      * destruct (NRT_MemInfo_release_last mi m w Hm H1 Hd)
          as (w' & E & Hgone & Hcount & _).
        step E. rewrite H1. change (1 - 1) with 0.
        destruct rest as [| o' rest'].
        -- simpl. exists w'. split; [reflexivity |]. split; assumption.
        -- cbn [refcount_after Z.eqb].
           apply run_ops_dead; [exact Hgone | discriminate].
      * step (NRT_MemInfo_release_live mi m w Hm ltac:(unfold SIZE_MAX; lia)).
        set (m1 := set_refct (refct m - 1) m).
        set (w1 := set_meminfos (<[mi := m1]> (meminfos w)) w).
        assert (Hm1 : meminfos w1 !! mi = Some m1) by apply lookup_insert_eq.
        specialize (IH mi m1 w1 Hm1).
        change (refct m1) with (refct m - 1) in IH.
        specialize (IH ltac:(lia) ltac:(lia) Hd).
        destruct (refcount_after rest (refct m - 1)) as [k |]; [| exact IH].
        destruct IH as (w' & E & H). exists w'. split; [exact E |]. exact H.
Qed.

(** C1, as the code has it.  [NRT_MemInfo_init] leaves the reference count
    at exactly 1.  On a live handle [NRT_MemInfo_acquire] adds exactly 1 and
    a [NRT_MemInfo_release] that does not reach 0 subtracts exactly 1, and
    neither calls anything.  Over any sequence of acquires and releases the
    count is the one [refcount_after] predicts; the handle is destroyed
    exactly once, by the release that takes the count from 1 to 0, and any
    later operation on it is a use after free.  The destructor the handle
    carries is invoked by that release and by no other operation, exactly
    once if the handle has one and [NRT_MemSys_shutdown] has not been
    called, and not at all otherwise. *)
Theorem refcount_lifecycle :
  (forall mi d s f i e w,
     mi <> NULL ->
     exists w',
       NRT_MemInfo_init mi d s f i e w = Ret tt w' /\
       meminfos w' !! mi = Some (mkMemInfo 1 f i d s e) /\
       trace w' = trace w) /\
  (forall mi m w,
     meminfos w !! mi = Some m ->
     0 < refct m < SIZE_MAX ->
     exists w',
       NRT_MemInfo_acquire mi w = Ret tt w' /\
       meminfos w' !! mi = Some (set_refct (refct m + 1) m) /\
       trace w' = trace w) /\
  (forall mi m w,
     meminfos w !! mi = Some m ->
     1 < refct m <= SIZE_MAX ->
     exists w',
       NRT_MemInfo_release mi w = Ret tt w' /\
       meminfos w' !! mi = Some (set_refct (refct m - 1) m) /\
       trace w' = trace w) /\
  (forall ops mi m w,
     meminfos w !! mi = Some m ->
     0 < refct m ->
     refct m + Z.of_nat (length ops) <= SIZE_MAX ->
     destructible w mi m ->
     match refcount_after ops (refct m) with
     | Some n =>
         exists w',
           run_ops ops mi w = Ret tt w' /\
           if n =? 0
           then meminfos w' !! mi = None /\
                count_event (dtor_call m) (trace w') =
                  (count_event (dtor_call m) (trace w) +
                   if dtor_fires w m then 1 else 0)%nat
           else meminfos w' !! mi = Some (set_refct n m) /\ trace w' = trace w
     | None => run_ops ops mi w = Undefined
     end).
Proof.
  split; [| split; [| split]].
  - intros mi d s f i e w Hmi. rewrite (NRT_MemInfo_init_ok mi d s f i e w Hmi).
    eexists. split; [reflexivity |]. split; [apply lookup_insert_eq | reflexivity].
  - intros mi m w Hm Hr. unfold SIZE_MAX in Hr.
    rewrite (NRT_MemInfo_acquire_spec mi m w Hm) by lia.
    rewrite wrap64_small by lia.
    eexists. split; [reflexivity |]. split; [apply lookup_insert_eq | reflexivity].
  - intros mi m w Hm Hr. rewrite (NRT_MemInfo_release_live mi m w Hm Hr).
    eexists. split; [reflexivity |]. split; [apply lookup_insert_eq | reflexivity].
  - intros ops. apply run_ops_spec.
Qed.

(** C1 as the claim has it fails: after [NRT_MemSys_shutdown], the release
    that takes the handle at 1000 from 1 to 0 destroys it without invoking
    its destructor 777; the only call it makes is the [free] of the handle's
    block. *)
Lemma destructor_skipped_when_shutting :
  meminfos ex_shut_down !! 1000 = Some (mkMemInfo 1 777 NULL 5000 8 NULL) /\
  trace ex_shut_down = mkEvent &S_malloc (48 :: nil) :: nil /\
  value_of (NRT_MemInfo_release 1000 ex_shut_down) = Some tt /\
  meminfos (after (NRT_MemInfo_release 1000) ex_shut_down) !! 1000 = None /\
  trace (after (NRT_MemInfo_release 1000) ex_shut_down) =
    mkEvent &S_malloc (48 :: nil) :: mkEvent &S_free (1000 :: nil) :: nil /\
  count_event (mkEvent 777 (5000 :: 8 :: NULL :: nil))
    (trace (after (NRT_MemInfo_release 1000) ex_shut_down)) = 0%nat.
Proof. vm_compute. repeat split. Qed.

(** The handle at 1000 with the caller's destructor 777, acquired once and
    released twice: destroyed, its destructor invoked once. *)
Lemma refcount_lifecycle_witness :
  exists w',
    run_ops (Acquire :: Release :: Release :: nil) 1000
      (after (NRT_MemInfo_new 5000 8 777 NULL) (started (1000 :: nil))) = Ret tt w' /\
    meminfos w' !! 1000 = None /\
    count_event (mkEvent 777 (5000 :: 8 :: NULL :: nil)) (trace w') = 1%nat.
Proof.
  pose proof (proj2 (proj2 (proj2 refcount_lifecycle))
                (Acquire :: Release :: Release :: nil) 1000
                (mkMemInfo 1 777 NULL 5000 8 NULL)
                (after (NRT_MemInfo_new 5000 8 777 NULL) (started (1000 :: nil)))) as H.
  destruct H as (w' & E & Hgone & Hcount).
  - vm_compute. reflexivity.
  - reflexivity.
  - vm_compute. discriminate.
  - split; [vm_compute; discriminate |].
    split; intros Hd; vm_compute in Hd; discriminate.
  - exists w'. split; [exact E |]. split; [exact Hgone |].
    unfold dtor_call in Hcount. cbn [dtor data size dtor_info] in Hcount.
    rewrite Hcount. vm_compute. reflexivity.
Defined.

(** ** Release after shutdown *)

(** The release that takes the count from 1 to 0 when no destructor is to be
    invoked. *)
Lemma NRT_MemInfo_release_last_quiet (mi : Z) (m : MemInfo) (w : World) :
  meminfos w !! mi = Some m ->
  refct m = 1 ->
  dtor_fires w m = false ->
  can_dealloc w m ->
  NRT_MemInfo_release mi w =
    Ret tt (mkWorld (incr_stats_mi_free (incr_stats_free (TheMSys w)))
                    (delete mi (meminfos w))
                    (allocators w) (bytes w) (oracle w) (effect w)
                    (trace w ++ release_calls w mi m)).
Proof.
  intros Hm Hr Hq Hc. unfold NRT_MemInfo_release.
  step (load_live _ _ _ Hm). rewrite Hr. cbn [Z.ltb Z.compare assert].
  unfold ret at 1, bind at 1.
  change (wrap64 (1 - 1)) with 0.
  step (store_live mi (set_refct 0) m w Hm).
  cbn [Z.eqb].
  set (m0 := set_refct 0 m).
  set (w1 := set_meminfos (<[mi := m0]> (meminfos w)) w).
  assert (Hm1 : meminfos w1 !! mi = Some m0) by apply lookup_insert_eq.
  unfold NRT_MemInfo_call_dtor.
  step (load_live _ _ _ Hm1). unfold get_msys, bind at 1.
  change (dtor m0) with (dtor m). change (TheMSys w1) with (TheMSys w).
  unfold dtor_fires in Hq. rewrite Hq.
  unfold ret at 1, bind at 1.
  assert (Hc1 : can_dealloc w1 m0).
  { apply (can_dealloc_frame w w1 m m0); try assumption; reflexivity. }
  rewrite (NRT_MemInfo_destroy_spec mi m0 w1 Hm1 Hc1).
  subst w1. world_simpl. rewrite delete_insert_eq. reflexivity.
Qed.

(** C8, as the code has it.  [NRT_MemSys_shutdown] sets the shutdown flag.
    From then on (in any state in which the flag is set) the release that
    takes a handle from 1 to 0 does not invoke the destructor the handle
    carries: payload memory is left as it is and the only calls made are
    [release_calls], those that give the handle's own block back to the
    allocator it came from (the external allocator's [free] with its
    [opaque_data], the bound [free] otherwise).  The handle is gone, and
    [stats_free] and [stats_mi_free] are each incremented by one.  Storage
    that only the destructor gives back is not reclaimed: no call of the
    release is passed the data pointer, unless the data pointer is the
    handle's own block. *)
Theorem release_after_shutdown (w0 : World) :
  (exists w1,
     NRT_MemSys_shutdown w0 = Ret tt w1 /\ shutting (TheMSys w1) = 1) /\
  (forall mi m w,
     shutting (TheMSys w) <> 0 ->
     meminfos w !! mi = Some m ->
     refct m = 1 ->
     can_dealloc w m ->
     exists w',
       NRT_MemInfo_release mi w = Ret tt w' /\
       trace w' = trace w ++ release_calls w mi m /\
       release_calls w mi m <> nil /\
       count_event (dtor_call m) (trace w') = count_event (dtor_call m) (trace w) /\
       bytes w' = bytes w /\
       meminfos w' = delete mi (meminfos w) /\
       stats_free (TheMSys w') = wrap64 (stats_free (TheMSys w) + 1) /\
       stats_mi_free (TheMSys w') = wrap64 (stats_mi_free (TheMSys w) + 1) /\
       stats_alloc (TheMSys w') = stats_alloc (TheMSys w) /\
       stats_mi_alloc (TheMSys w') = stats_mi_alloc (TheMSys w) /\
       (data m <> mi ->
        forall f o, ~ In (mkEvent f (data m :: o)) (release_calls w mi m))).
Proof.
  split.
  - eexists. split; reflexivity.
  - intros mi m w Hs Hm Hr Hc.
    assert (Hq : dtor_fires w m = false).
    { unfold dtor_fires. apply andb_false_iff. right. apply Z.eqb_neq. exact Hs. }
    rewrite (NRT_MemInfo_release_last_quiet mi m w Hm Hr Hq Hc).
    eexists. split; [reflexivity |]. world_simpl.
    split; [reflexivity |].
    split.
    { unfold release_calls, can_dealloc in *.
      destruct (external_allocator m =? NULL); [discriminate |].
      destruct Hc as (ea & -> & _). discriminate. }
    split.
    { rewrite count_event_app, count_event_release_calls by reflexivity. lia. }
    do 6 (split; [reflexivity |]).
    intros Hne f o Hin. unfold release_calls in Hin.
    destruct (external_allocator m =? NULL).
    { destruct Hin as [Hin | []]. inversion Hin. congruence. }
    destruct (allocators w !! external_allocator m) as [ea |]; [| destruct Hin].
    destruct Hin as [Hin | Hin]; [inversion Hin; congruence |].
    destruct (ext_free ea =? &S_sample_external_free); [| destruct Hin].
    destruct Hin as [Hin | []]. inversion Hin. congruence.
Qed.

(** C8 as the claim has it fails for a variable-size handle: its payload is
    a block of its own that only [nrt_varsize_dtor] frees.  Released after
    [NRT_MemSys_shutdown], the handle at 2000 is gone and its block was
    freed, but the payload at 1000 was passed to no [free]: two blocks were
    allocated and one was freed, and the counters stay out of balance. *)
Lemma payload_not_reclaimed_after_shutdown :
  meminfos ex_varsize !! 2000 = Some (mkMemInfo 1 &S_nrt_varsize_dtor NULL 1000 16 NULL) /\
  value_of ((NRT_MemSys_shutdown ;; NRT_MemInfo_release 2000) ex_varsize) = Some tt /\
  meminfos (after (NRT_MemSys_shutdown ;; NRT_MemInfo_release 2000) ex_varsize) !! 2000 = None /\
  trace (after (NRT_MemSys_shutdown ;; NRT_MemInfo_release 2000) ex_varsize) =
    mkEvent &S_malloc (16 :: nil) :: mkEvent &S_malloc (48 :: nil) ::
    mkEvent &S_free (2000 :: nil) :: nil /\
  stats_alloc (TheMSys (after (NRT_MemSys_shutdown ;; NRT_MemInfo_release 2000) ex_varsize)) = 2 /\
  stats_free (TheMSys (after (NRT_MemSys_shutdown ;; NRT_MemInfo_release 2000) ex_varsize)) = 1 /\
  stats_mi_alloc (TheMSys (after (NRT_MemSys_shutdown ;; NRT_MemInfo_release 2000) ex_varsize)) = 1 /\
  stats_mi_free (TheMSys (after (NRT_MemSys_shutdown ;; NRT_MemInfo_release 2000) ex_varsize)) = 1 /\
  unbalanced (TheMSys (after (NRT_MemSys_shutdown ;; NRT_MemInfo_release 2000) ex_varsize)).
Proof.
  do 8 (split; [vm_compute; reflexivity |]).
  left. vm_compute. discriminate.
Qed.

Lemma release_after_shutdown_witness :
  exists w',
    NRT_MemInfo_release 1000 ex_shut_down = Ret tt w' /\
    trace w' = trace ex_shut_down ++ mkEvent &S_free (1000 :: nil) :: nil /\
    meminfos w' = delete 1000 (meminfos ex_shut_down).
Proof.
  destruct (proj2 (release_after_shutdown ex_shut_down) 1000
              (mkMemInfo 1 777 NULL 5000 8 NULL) ex_shut_down)
    as (w' & E & Ht & _ & _ & _ & Hh & _).
  - vm_compute. discriminate.
  - vm_compute. reflexivity.
  - reflexivity.
  - vm_compute. discriminate.
  - exists w'. split; [exact E |]. split; [exact Ht | exact Hh].
Defined.

(** ** Aligned allocation *)


Lemma align_offset_spec (base align : Z) :
  0 < align ->
  let off := align_offset base align in
  0 <= off < align /\
  (base + off) mod align = 0 /\
  (forall o, 0 <= o < off -> (base + o) mod align <> 0).
Proof.
  intros Ha. unfold align_offset. cbv zeta.
  pose proof (Z.mod_pos_bound base align Ha) as Hr.
  pose proof (Z.div_mod base align ltac:(lia)) as Hb.
  destruct (Z.eqb_spec (base mod align) 0) as [E | E].
  - split; [lia |]. split; [rewrite Z.add_0_r; exact E | intros o Ho; lia].
  - split; [lia |]. split.
    + replace (base + (align - base mod align))
        with ((base / align + 1) * align) by lia.
      apply Z.mod_mul. lia.
    + intros o Ho H0.
      assert (Hu : base mod align + o = (base + o) mod align).
      { apply (Z.mod_unique _ _ (base / align)); lia. }
      lia.
Qed.

Lemma nrt_allocate_meminfo_and_data_align_ok (sz align a p : Z) (w w1 : World) :
  NRT_Allocate_External
    (wrap64 (sizeof_MemInfo + wrap64 (sz + wrap32 (2 * align)))) a w = Ret p w1 ->
  align <> 0 ->
  nrt_allocate_meminfo_and_data_align sz align a w =
    Ret (wrap64 (wrap64 (p + sizeof_MemInfo) +
                 align_offset (wrap64 (p + sizeof_MemInfo)) align), p) w1.
Proof.
  intros E Ha. unfold nrt_allocate_meminfo_and_data_align.
  step (nrt_allocate_meminfo_and_data_ok _ a p w w1 E). cbv beta iota zeta.
  destruct (Z.eqb_spec align 0); [contradiction | reflexivity].
Qed.

(** Where handle, padding and payload lie when nothing overflows. *)
Lemma aligned_layout (sz align p : Z) :
  0 < align -> 2 * align < 2 ^ 32 -> 0 <= sz ->
  in_address_space p (sizeof_MemInfo + sz + 2 * align) ->
  wrap64 (sizeof_MemInfo + wrap64 (sz + wrap32 (2 * align))) =
    sizeof_MemInfo + sz + 2 * align /\
  wrap64 (wrap64 (p + sizeof_MemInfo) +
          align_offset (wrap64 (p + sizeof_MemInfo)) align) =
    p + sizeof_MemInfo + align_offset (p + sizeof_MemInfo) align /\
  0 <= align_offset (p + sizeof_MemInfo) align < align.
Proof.
  intros Hal H32 Hsz [Hp Hfit]. unfold sizeof_MemInfo in *.
  destruct (align_offset_spec (p + 48) align Hal) as (Hoff & _).
  split.
  { unfold wrap32, wrap64.
    rewrite (Z.mod_small (2 * align)) by lia.
    rewrite (Z.mod_small (sz + 2 * align)) by lia.
    rewrite Z.mod_small by lia. lia. }
  split; [| exact Hoff].
  rewrite (wrap64_small (p + 48)) by lia. apply wrap64_small. lia.
Qed.




(** ** Debug fill *)

Lemma fill_lookup (ptr c n : Z) (b : gmap Z Z) : pattern_at (fill ptr c n b) ptr n c.
Proof.
  intros i Hi. unfold fill.
  assert (Hin : i ∈ seqZ 0 n) by (apply elem_of_seqZ; lia).
  induction (seqZ 0 n) as [| x l IH]; [inversion Hin |].
  simpl. destruct (Z.eq_dec x i) as [-> | Hne].
  - apply lookup_insert_eq.
  - rewrite lookup_insert_ne by lia. apply IH.
    apply elem_of_cons in Hin as [-> | Hin]; [contradiction | exact Hin].
Qed.

Lemma memset_ok (ptr c n : Z) (w : World) :
  memset ptr c n w = Ret tt (set_bytes (fill ptr c n (bytes w)) w).
Proof. reflexivity. Qed.

Lemma NRT_MemInfo_alloc_dtor_safe_ok (sz dtor_p p : Z) (w w1 : World) :
  NRT_Allocate_External (wrap64 (sizeof_MemInfo + sz)) NULL w = Ret p w1 ->
  p <> NULL ->
  NRT_MemInfo_alloc_dtor_safe sz dtor_p w =
    Ret p (initialised p
             (mkMemInfo 1 &S_nrt_internal_custom_dtor_safe dtor_p
                        (wrap64 (p + sizeof_MemInfo)) sz NULL)
             (set_bytes (fill (wrap64 (p + sizeof_MemInfo)) 203 (MIN sz 256) (bytes w1)) w1)).
Proof.
  intros E Hp. unfold NRT_MemInfo_alloc_dtor_safe.
  step (nrt_allocate_meminfo_and_data_ok sz NULL p w w1 E). cbv beta iota.
  step (memset_ok (wrap64 (p + sizeof_MemInfo)) 203 (MIN sz 256) w1).
  step (NRT_MemInfo_init_ok p (wrap64 (p + sizeof_MemInfo)) sz
          &S_nrt_internal_custom_dtor_safe dtor_p NULL
          (set_bytes (fill (wrap64 (p + sizeof_MemInfo)) 203 (MIN sz 256) (bytes w1)) w1) Hp).
  reflexivity.
Qed.

Lemma NRT_MemInfo_alloc_safe_aligned_external_ok (sz align a p : Z) (w w1 : World) :
  NRT_Allocate_External
    (wrap64 (sizeof_MemInfo + wrap64 (sz + wrap32 (2 * align)))) a w = Ret p w1 ->
  align <> 0 ->
  p <> NULL ->
  let d := wrap64 (wrap64 (p + sizeof_MemInfo) +
                   align_offset (wrap64 (p + sizeof_MemInfo)) align) in
  NRT_MemInfo_alloc_safe_aligned_external sz align a w =
    Ret p (initialised p (mkMemInfo 1 &S_nrt_internal_dtor_safe sz d sz a)
             (set_bytes (fill d 203 (MIN sz 256) (bytes w1)) w1)).
Proof.
  intros E Ha Hp d. unfold NRT_MemInfo_alloc_safe_aligned_external.
  step (nrt_allocate_meminfo_and_data_align_ok sz align a p w w1 E Ha). cbv beta iota.
  fold d.
  step (memset_ok d 203 (MIN sz 256) w1).
  step (NRT_MemInfo_init_ok p d sz &S_nrt_internal_dtor_safe sz a
          (set_bytes (fill d 203 (MIN sz 256) (bytes w1)) w1) Hp).
  reflexivity.
Qed.

Lemma NRT_MemInfo_alloc_safe_aligned_eq (sz align : Z) :
  NRT_MemInfo_alloc_safe_aligned sz align =
  NRT_MemInfo_alloc_safe_aligned_external sz align NULL.
Proof. reflexivity. Qed.

(** What invoking the destructor of a safe handle does. *)
Lemma call_dtor_safe (m : MemInfo) (w : World) :
  safe_dtor m ->
  call_dtor (dtor m) (data m) (size m) (dtor_info m) w =
    Ret tt (mkWorld (TheMSys w) (meminfos w) (allocators w)
              (fill (data m) 222 (MIN (size m) 256)
                 (if custom_dtor_of m =? NULL then bytes w
                  else effect w (custom_dtor_of m)
                         (data m :: size m :: NULL :: nil) (bytes w)))
              (oracle w) (effect w)
              (trace w ++ dtor_call m ::
                 (if custom_dtor_of m =? NULL then nil
                  else mkEvent (custom_dtor_of m) (data m :: size m :: NULL :: nil) :: nil))).
Proof.
  intros Hsafe.
  assert (Hd : dtor m <> NULL).
  { destruct Hsafe as [-> | ->]; apply addr_of_nonnull. }
  unfold call_dtor.
  step (indirect_ok (dtor m) (data m :: size m :: dtor_info m :: nil) w Hd).
  unfold custom_dtor_of, dtor_call.
  destruct Hsafe as [Hcu | Hpl].
  - assert (Hsym : symbol_at (dtor m) = Some S_nrt_internal_custom_dtor_safe)
      by (rewrite Hcu; apply symbol_at_addr_of).
    rewrite Hsym. apply Z.eqb_eq in Hcu. rewrite Hcu.
    unfold nrt_internal_custom_dtor_safe, nrt_internal_dtor_safe.
    destruct (Z.eqb_spec (dtor_info m) NULL) as [Hi | Hi]; cbn [negb].
    + reflexivity.
    + step (call_extern_ok (dtor_info m) (data m :: size m :: NULL :: nil)
              (log (mkEvent (dtor m) (data m :: size m :: dtor_info m :: nil)) w) Hi).
      rewrite memset_ok. world_simpl. rewrite <- app_assoc. reflexivity.
  - assert (Hsym : symbol_at (dtor m) = Some S_nrt_internal_dtor_safe)
      by (rewrite Hpl; apply symbol_at_addr_of).
    rewrite Hsym.
    assert (Hne : (dtor m =? &S_nrt_internal_custom_dtor_safe) = false)
      by (rewrite Hpl; reflexivity).
    rewrite Hne. reflexivity.
Qed.

(** The release that takes a safe handle from 1 to 0 while the runtime is
    not shutting down. *)
Lemma NRT_MemInfo_release_last_safe (mi : Z) (m : MemInfo) (w : World) :
  meminfos w !! mi = Some m ->
  refct m = 1 ->
  safe_dtor m ->
  shutting (TheMSys w) = 0 ->
  can_dealloc w m ->
  NRT_MemInfo_release mi w =
    Ret tt (mkWorld (incr_stats_mi_free (incr_stats_free (TheMSys w)))
              (delete mi (meminfos w))
              (allocators w)
              (fill (data m) 222 (MIN (size m) 256)
                 (if custom_dtor_of m =? NULL then bytes w
                  else effect w (custom_dtor_of m)
                         (data m :: size m :: NULL :: nil) (bytes w)))
              (oracle w) (effect w)
              (trace w ++ dtor_call m ::
                 (if custom_dtor_of m =? NULL then nil
                  else mkEvent (custom_dtor_of m) (data m :: size m :: NULL :: nil) :: nil)
                 ++ release_calls w mi m)).
Proof.
  intros Hm Hr Hsafe Hs Hc. unfold NRT_MemInfo_release.
  step (load_live _ _ _ Hm). rewrite Hr. cbn [Z.ltb Z.compare assert].
  unfold ret at 1, bind at 1.
  change (wrap64 (1 - 1)) with 0.
  step (store_live mi (set_refct 0) m w Hm).
  cbn [Z.eqb].
  set (m0 := set_refct 0 m).
  set (w1 := set_meminfos (<[mi := m0]> (meminfos w)) w).
  assert (Hm1 : meminfos w1 !! mi = Some m0) by apply lookup_insert_eq.
  assert (Hd : dtor m <> NULL).
  { destruct Hsafe as [-> | ->]; apply addr_of_nonnull. }
  unfold NRT_MemInfo_call_dtor.
  step (load_live _ _ _ Hm1). unfold get_msys, bind at 1.
  change (TheMSys w1) with (TheMSys w).
  rewrite Hs. change (dtor m0) with (dtor m).
  destruct (Z.eqb_spec (dtor m) NULL); [contradiction |].
  cbn [negb andb Z.eqb].
  step (call_dtor_safe m0 w1 Hsafe).
  match goal with
  | |- NRT_MemInfo_destroy mi ?W = _ =>
      rewrite (NRT_MemInfo_destroy_spec mi m0 W Hm1
                 (can_dealloc_frame w W m m0 eq_refl eq_refl eq_refl Hc))
  end.
  subst w1. world_simpl. rewrite delete_insert_eq.
  rewrite (release_calls_frame w _ mi m m0) by reflexivity.
  rewrite <- app_assoc. reflexivity.
Qed.

Lemma MIN_le_l (a b : Z) : MIN a b <= a.
Proof. unfold MIN. destruct (Z.ltb_spec a b); lia. Qed.

(** C9, as the code has it.  Every safe variant
    ([NRT_MemInfo_alloc_dtor_safe], and with it [NRT_MemInfo_alloc_safe];
    [NRT_MemInfo_alloc_safe_aligned_external], and with it
    [NRT_MemInfo_alloc_safe_aligned]), when the underlying allocation
    returns a block that lies inside the address space and the size
    requested did not wrap around (for the aligned variants [2 * align]
    fits an [unsigned] as well), returns a handle of reference count 1
    whose first [MIN size 256] payload bytes lie inside that block and all
    hold 0xCB.  When the last release destroys a safe handle and
    [NRT_MemSys_shutdown] has not been called, the caller's destructor the
    handle wraps (if any) is called first, and then the same
    [MIN size 256] payload bytes are overwritten with 0xDE, whatever that
    destructor wrote; the handle's block is given back last.  When
    [NRT_MemSys_shutdown] has been called, the release destroys the handle
    with neither: no destructor is called and payload memory is left as it
    is. *)
Theorem safe_fill :
  (forall sz dtor_p p w w1,
     0 <= sz ->
     in_address_space p (sizeof_MemInfo + sz) ->
     NRT_Allocate_External (sizeof_MemInfo + sz) NULL w = Ret p w1 ->
     exists w' m,
       NRT_MemInfo_alloc_dtor_safe sz dtor_p w = Ret p w' /\
       meminfos w' !! p = Some m /\
       refct m = 1 /\ size m = sz /\ safe_dtor m /\ custom_dtor_of m = dtor_p /\
       data m = p + sizeof_MemInfo /\
       inside (data m) (MIN sz 256) p (sizeof_MemInfo + sz) /\
       pattern_at (bytes w') (data m) (MIN sz 256) 203) /\
  (forall sz, NRT_MemInfo_alloc_safe sz = NRT_MemInfo_alloc_dtor_safe sz NULL) /\
  (forall sz align a p w w1,
     0 < align ->
     2 * align < 2 ^ 32 ->
     0 <= sz ->
     in_address_space p (sizeof_MemInfo + sz + 2 * align) ->
     NRT_Allocate_External (sizeof_MemInfo + sz + 2 * align) a w = Ret p w1 ->
     exists w' m,
       NRT_MemInfo_alloc_safe_aligned_external sz align a w = Ret p w' /\
       meminfos w' !! p = Some m /\
       refct m = 1 /\ size m = sz /\ safe_dtor m /\ custom_dtor_of m = NULL /\
       p + sizeof_MemInfo <= data m < p + sizeof_MemInfo + align /\
       inside (data m) (MIN sz 256) p (sizeof_MemInfo + sz + 2 * align) /\
       pattern_at (bytes w') (data m) (MIN sz 256) 203) /\
  (forall sz align,
     NRT_MemInfo_alloc_safe_aligned sz align =
     NRT_MemInfo_alloc_safe_aligned_external sz align NULL) /\
  (forall mi m w,
     meminfos w !! mi = Some m ->
     refct m = 1 ->
     safe_dtor m ->
     shutting (TheMSys w) = 0 ->
     can_dealloc w m ->
     exists w',
       NRT_MemInfo_release mi w = Ret tt w' /\
       meminfos w' !! mi = None /\
       bytes w' =
         fill (data m) 222 (MIN (size m) 256)
           (if custom_dtor_of m =? NULL then bytes w
            else effect w (custom_dtor_of m)
                   (data m :: size m :: NULL :: nil) (bytes w)) /\
       pattern_at (bytes w') (data m) (MIN (size m) 256) 222 /\
       trace w' =
         trace w ++ dtor_call m ::
           (if custom_dtor_of m =? NULL then nil
            else mkEvent (custom_dtor_of m) (data m :: size m :: NULL :: nil) :: nil)
           ++ release_calls w mi m) /\
  (forall mi m w,
     meminfos w !! mi = Some m ->
     refct m = 1 ->
     safe_dtor m ->
     shutting (TheMSys w) <> 0 ->
     can_dealloc w m ->
     exists w',
       NRT_MemInfo_release mi w = Ret tt w' /\
       meminfos w' !! mi = None /\
       bytes w' = bytes w /\
       trace w' = trace w ++ release_calls w mi m).
Proof.
  split; [| split; [| split; [| split; [| split]]]].
  - intros sz dtor_p p w w1 Hsz [Hp Hfit] E.
    assert (Hreq : wrap64 (sizeof_MemInfo + sz) = sizeof_MemInfo + sz)
      by (apply wrap64_small; unfold sizeof_MemInfo in *; lia).
    assert (Hd : wrap64 (p + sizeof_MemInfo) = p + sizeof_MemInfo)
      by (apply wrap64_small; unfold sizeof_MemInfo in *; lia).
    assert (Hpn : p <> NULL) by (unfold NULL; lia).
    rewrite <- Hreq in E.
    rewrite (NRT_MemInfo_alloc_dtor_safe_ok sz dtor_p p w w1 E Hpn), Hd.
    eexists _, _. split; [reflexivity |].
    split; [apply lookup_insert_eq |].
    cbn [refct size data].
    split; [reflexivity |]. split; [reflexivity |].
    split; [left; reflexivity |]. split; [reflexivity |].
    split; [reflexivity |].
    split; [| apply fill_lookup].
    pose proof (MIN_le_l sz 256). unfold inside, sizeof_MemInfo in *. lia.
  - reflexivity.
  - intros sz align a p w w1 Hal H32 Hsz Hfit E.
    destruct (aligned_layout sz align p Hal H32 Hsz Hfit) as (Hreq & Hd & Hoff).
    assert (Hpn : p <> NULL) by (destruct Hfit; unfold NULL; lia).
    rewrite <- Hreq in E.
    rewrite (NRT_MemInfo_alloc_safe_aligned_external_ok sz align a p w w1 E
               ltac:(lia) Hpn), Hd.
    eexists _, _. split; [reflexivity |].
    split; [apply lookup_insert_eq |].
    cbn [refct size data].
    split; [reflexivity |]. split; [reflexivity |].
    split; [right; reflexivity |]. split; [reflexivity |].
    split; [lia |].
    split; [| apply fill_lookup].
    pose proof (MIN_le_l sz 256). unfold inside, sizeof_MemInfo in *. lia.
  - reflexivity.
  - intros mi m w Hm Hr Hsafe Hs Hc.
    rewrite (NRT_MemInfo_release_last_safe mi m w Hm Hr Hsafe Hs Hc).
    eexists. split; [reflexivity |]. world_simpl.
    split; [apply lookup_delete_eq |].
    split; [reflexivity |].
    split; [apply fill_lookup | reflexivity].
  - intros mi m w Hm Hr _ Hs Hc.
    assert (Hq : dtor_fires w m = false).
    { unfold dtor_fires. apply andb_false_iff. right. apply Z.eqb_neq. exact Hs. }
    rewrite (NRT_MemInfo_release_last_quiet mi m w Hm Hr Hq Hc).
    eexists. split; [reflexivity |]. world_simpl.
    split; [apply lookup_delete_eq |]. split; reflexivity.
Qed.

(** C9 as the claim has it fails: once [NRT_MemSys_shutdown] has been called,
    the release that destroys the safe handle at 1000 neither calls the
    wrapped destructor 777 nor writes 0xDE: the payload still holds the
    creation pattern 0xCB. *)
Lemma no_destruction_fill_when_shutting :
  meminfos ex_safe !! 1000 =
    Some (mkMemInfo 1 &S_nrt_internal_custom_dtor_safe 777 1048 4 NULL) /\
  bytes ex_safe !! 1048 = Some 203 /\
  value_of ((NRT_MemSys_shutdown ;; NRT_MemInfo_release 1000) ex_safe) = Some tt /\
  meminfos (after (NRT_MemSys_shutdown ;; NRT_MemInfo_release 1000) ex_safe) !! 1000 = None /\
  bytes (after (NRT_MemSys_shutdown ;; NRT_MemInfo_release 1000) ex_safe) !! 1048 = Some 203 /\
  trace (after (NRT_MemSys_shutdown ;; NRT_MemInfo_release 1000) ex_safe) =
    mkEvent &S_malloc (52 :: nil) :: mkEvent &S_free (1000 :: nil) :: nil.
Proof. vm_compute. repeat split. Qed.

(** Why the block has to be bounded: a size close to [SIZE_MAX] wraps the
    request.  For [SIZE_MAX] bytes [NRT_MemInfo_alloc_safe] asks the
    allocator for 47 bytes and goes on to fill 256 bytes behind the handle,
    which do not lie inside the block it got. *)
Lemma safe_request_wraps :
  trace (after (NRT_MemInfo_alloc_safe SIZE_MAX) (started (8144 :: nil))) =
    mkEvent &S_malloc (47 :: nil) :: nil /\
  meminfos (after (NRT_MemInfo_alloc_safe SIZE_MAX) (started (8144 :: nil))) !! 8144 =
    Some (mkMemInfo 1 &S_nrt_internal_custom_dtor_safe NULL 8192 SIZE_MAX NULL) /\
  MIN SIZE_MAX 256 = 256 /\
  ~ inside 8192 256 8144 47.
Proof.
  split; [vm_compute; reflexivity |].
  split; [vm_compute; reflexivity |].
  split; [reflexivity |].
  unfold inside. lia.
Qed.

(** The 4-byte safe handle at 1000 is built with its payload at 1048, inside
    the 52 bytes requested, and filled with 0xCB.  Released while the
    runtime is up, the destructor 777 writes 7 at the payload, and the fill
    that follows overwrites it. *)
Lemma safe_fill_witness :
  (exists w1,
     NRT_MemInfo_alloc_dtor_safe 4 777 (started_with (1000 :: nil) scribble) = Ret 1000 w1 /\
     bytes w1 !! 1048 = Some 203) /\
  exists w',
    NRT_MemInfo_release 1000 ex_safe = Ret tt w' /\
    bytes w' !! 1048 = Some 222 /\
    scribble 777 (1048 :: 4 :: NULL :: nil) (bytes ex_safe) !! 1048 = Some 7 /\
    trace w' =
      mkEvent &S_malloc (52 :: nil) ::
      mkEvent &S_nrt_internal_custom_dtor_safe (1048 :: 4 :: 777 :: nil) ::
      mkEvent 777 (1048 :: 4 :: NULL :: nil) ::
      mkEvent &S_free (1000 :: nil) :: nil.
Proof.
  split.
  - destruct (proj1 safe_fill 4 777 1000 (started_with (1000 :: nil) scribble)
                (allocated 52 (started_with (1000 :: nil) scribble)))
      as (w1 & m & E & _ & _ & _ & _ & _ & Hd & _ & Hp).
    + lia.
    + unfold in_address_space, sizeof_MemInfo. lia.
    + vm_compute. reflexivity.
    + exists w1. split; [exact E |].
      rewrite Hd in Hp. apply (Hp 0). cbv [MIN]. simpl. lia.
  - destruct (proj1 (proj2 (proj2 (proj2 (proj2 safe_fill)))) 1000
                (mkMemInfo 1 &S_nrt_internal_custom_dtor_safe 777 1048 4 NULL) ex_safe)
      as (w' & E & _ & _ & Hp & Ht).
    + vm_compute. reflexivity.
    + reflexivity.
    + left. reflexivity.
    + reflexivity.
    + vm_compute. discriminate.
    + exists w'. split; [exact E |].
      split; [apply (Hp 0); cbv [MIN size]; simpl; lia |].
      split; [vm_compute; reflexivity |].
      rewrite Ht. vm_compute. reflexivity.
Defined.

(** ** The data pointer of a live handle *)

Lemma bind_inv {A B} (m : M A) (k : A -> M B) (w w' : World) (b : B) :
  bind m k w = Ret b w' -> exists a w1, m w = Ret a w1 /\ k a w1 = Ret b w'.
Proof.
  unfold bind. destruct (m w) as [a w1 | |]; [eauto | discriminate | discriminate].
Qed.

Lemma frames_bind {A B} (m : M A) (k : A -> M B) :
  frames m -> (forall a, frames (k a)) -> frames (bind m k).
Proof.
  intros Hm Hk w b w' E. apply bind_inv in E as (a & w1 & E1 & E2).
  rewrite (Hk a _ _ _ E2). exact (Hm _ _ _ E1).
Qed.

Lemma shrinks_bind {A B} (m : M A) (k : A -> M B) :
  shrinks m -> (forall a, shrinks (k a)) -> shrinks (bind m k).
Proof.
  intros Hm Hk w b w' E. apply bind_inv in E as (a & w1 & E1 & E2).
  etransitivity; [exact (Hk a _ _ _ E2) | exact (Hm _ _ _ E1)].
Qed.

Lemma frames_shrinks {A} (m : M A) : frames m -> shrinks m.
Proof. intros H w a w' E. rewrite (H _ _ _ E). reflexivity. Qed.

Lemma frames_ret {A} (a : A) : frames (ret a).
Proof. intros w b w' E. inversion E. reflexivity. Qed.

Lemma frames_undefined {A} : frames (@undefined A).
Proof. intros w b w' E. discriminate. Qed.

Lemma frames_fatal {A} (msg : string) : frames (@nrt_fatal_error A msg).
Proof. intros w b w' E. discriminate. Qed.

Lemma frames_modify (f : World -> World) :
  (forall w, meminfos (f w) = meminfos w) -> frames (modify f).
Proof. intros H w b w' E. inversion E. apply H. Qed.

Lemma frames_get_msys : frames get_msys.
Proof. intros w b w' E. inversion E. reflexivity. Qed.

Lemma frames_modify_msys (f : MemSys -> MemSys) : frames (modify_msys f).
Proof. apply frames_modify. reflexivity. Qed.

Lemma frames_load (mi : Z) : frames (load mi).
Proof.
  intros w b w' E. unfold load in E.
  destruct (meminfos w !! mi); inversion E. reflexivity.
Qed.

Lemma frames_load_allocator (a : Z) : frames (load_allocator a).
Proof.
  intros w b w' E. unfold load_allocator in E.
  destruct (allocators w !! a); inversion E. reflexivity.
Qed.

Lemma frames_indirect (f : Z) (a : list Z) : frames (indirect f a).
Proof.
  unfold indirect. destruct (f =? NULL);
    [apply frames_undefined | apply frames_modify; reflexivity].
Qed.

Lemma frames_env_alloc : frames env_alloc.
Proof. intros w b w' E. inversion E. reflexivity. Qed.

Lemma frames_env_effect (f : Z) (a : list Z) : frames (env_effect f a).
Proof. apply frames_modify. reflexivity. Qed.

Lemma frames_memset (ptr c n : Z) : frames (memset ptr c n).
Proof. apply frames_modify. reflexivity. Qed.

Lemma frames_assert (c : bool) (msg : string) : frames (assert c msg).
Proof. destruct c; [apply frames_ret | intros w b w' E; discriminate]. Qed.

Lemma shrinks_env_free (ptr : Z) : shrinks (env_free ptr).
Proof.
  intros w b w' E. inversion E. simpl. apply delete_subseteq.
Qed.

Create HintDb frame.

#[local] Hint Resolve frames_ret frames_undefined frames_fatal frames_get_msys
  frames_modify_msys frames_load frames_load_allocator frames_indirect
  frames_env_alloc frames_env_effect frames_memset frames_assert : frame.

(** Decompose a computation along its binds and branches. *)
Ltac frame_step :=
  match goal with
  | |- frames (bind _ _) => apply frames_bind; [| intros]
  | |- shrinks (bind _ _) => apply shrinks_bind; [| intros]
  | |- frames (if ?c then _ else _) => destruct c
  | |- shrinks (if ?c then _ else _) => destruct c
  | |- frames (match ?x with _ => _ end) => destruct x
  | |- shrinks (match ?x with _ => _ end) => destruct x
  | |- shrinks (env_free _) => apply shrinks_env_free
  | |- frames _ => solve [auto with frame]
  | |- shrinks _ => solve [apply frames_shrinks; auto with frame]
  end.

Lemma frames_call_alloc (f : Z) (a : list Z) : frames (call_alloc f a).
Proof. unfold call_alloc. repeat frame_step. Qed.

Lemma frames_call_extern (f : Z) (a : list Z) : frames (call_extern f a).
Proof. unfold call_extern. repeat frame_step. Qed.

Lemma shrinks_call_free (f ptr : Z) (a : list Z) : shrinks (call_free f ptr a).
Proof. unfold call_free. repeat frame_step. Qed.

#[local] Hint Resolve frames_call_alloc frames_call_extern : frame.

Lemma frames_NRT_Allocate_External (sz a : Z) : frames (NRT_Allocate_External sz a).
Proof.
  unfold NRT_Allocate_External, call_ext_malloc, sample_external_malloc.
  repeat frame_step.
Qed.

Lemma frames_NRT_Allocate (sz : Z) : frames (NRT_Allocate sz).
Proof. apply frames_NRT_Allocate_External. Qed.

Lemma frames_NRT_Reallocate (ptr sz : Z) : frames (NRT_Reallocate ptr sz).
Proof. unfold NRT_Reallocate. repeat frame_step. Qed.

Lemma shrinks_NRT_Free (ptr : Z) : shrinks (NRT_Free ptr).
Proof. unfold NRT_Free, call_free. repeat frame_step. Qed.

#[local] Hint Resolve frames_NRT_Allocate_External frames_NRT_Allocate
  frames_NRT_Reallocate : frame.

Lemma shrinks_call_dtor (f p s i : Z) : shrinks (call_dtor f p s i).
Proof.
  unfold call_dtor, nrt_internal_custom_dtor_safe, nrt_internal_dtor_safe,
    nrt_varsize_dtor, nrt_manage_memory_dtor.
  repeat first [frame_step | apply shrinks_NRT_Free].
Qed.

Lemma shrinks_NRT_MemInfo_destroy (mi : Z) : shrinks (NRT_MemInfo_destroy mi).
Proof.
  unfold NRT_MemInfo_destroy, NRT_dealloc, call_ext_free, sample_external_free,
    call_free.
  repeat first [frame_step | apply shrinks_NRT_Free].
Qed.

Lemma shrinks_NRT_MemInfo_call_dtor (mi : Z) : shrinks (NRT_MemInfo_call_dtor mi).
Proof.
  unfold NRT_MemInfo_call_dtor.
  repeat first [frame_step | apply shrinks_call_dtor | apply shrinks_NRT_MemInfo_destroy].
Qed.

Lemma data_nonnull_shrink (w w' : World) :
  meminfos w' ⊆ meminfos w -> data_nonnull w -> data_nonnull w'.
Proof.
  intros Hsub H a m Hm. apply (H a m). exact (lookup_weaken _ _ _ _ Hm Hsub).
Qed.

Lemma data_nonnull_frame (w w' : World) :
  meminfos w' = meminfos w -> data_nonnull w -> data_nonnull w'.
Proof. intros E. apply data_nonnull_shrink. rewrite E. reflexivity. Qed.

Lemma data_nonnull_insert (w w' : World) (mi : Z) (m : MemInfo) :
  meminfos w' = <[mi := m]> (meminfos w) ->
  (0 < refct m -> data m <> NULL) ->
  data_nonnull w -> data_nonnull w'.
Proof.
  intros E Hm H a m' Ha. rewrite E in Ha.
  destruct (Z.eq_dec mi a) as [-> | Hne].
  - rewrite lookup_insert_eq in Ha. inversion Ha. subst m'. exact Hm.
  - rewrite lookup_insert_ne in Ha by exact Hne. exact (H a m' Ha).
Qed.

(** Peel the binds off a hypothesis that says a computation returned. *)
Ltac invert_run :=
  repeat match goal with
  | H : bind _ _ _ = Ret _ _ |- _ =>
      let a := fresh "a" in let w := fresh "w" in let E := fresh "E" in
      apply bind_inv in H as (a & w & E & H)
  | H : ret _ _ = Ret _ _ |- _ => inversion H; clear H; subst
  | H : (let '(_, _) := ?p in _) _ = Ret _ _ |- _ => destruct p
  | u : unit |- _ => destruct u
  end.

Lemma nrt_allocate_meminfo_and_data_inv (sz a d mi : Z) (w w1 : World) :
  nrt_allocate_meminfo_and_data sz a w = Ret (d, mi) w1 ->
  meminfos w1 = meminfos w /\ d = wrap64 (mi + sizeof_MemInfo).
Proof.
  intros E. unfold nrt_allocate_meminfo_and_data in E. invert_run.
  match goal with
  | H : NRT_Allocate_External _ _ _ = Ret _ _ |- _ =>
      split; [exact (frames_NRT_Allocate_External _ _ _ _ _ H) | reflexivity]
  end.
Qed.

Lemma nrt_allocate_meminfo_and_data_align_inv (sz al a d mi : Z) (w w1 : World) :
  nrt_allocate_meminfo_and_data_align sz al a w = Ret (d, mi) w1 ->
  meminfos w1 = meminfos w /\ al <> 0 /\
  d = wrap64 (wrap64 (mi + sizeof_MemInfo) +
              align_offset (wrap64 (mi + sizeof_MemInfo)) al).
Proof.
  intros E. unfold nrt_allocate_meminfo_and_data_align in E. invert_run.
  match goal with
  | H : nrt_allocate_meminfo_and_data _ _ _ = Ret _ _ |- _ =>
      apply nrt_allocate_meminfo_and_data_inv in H as [Hh Hd]
  end.
  destruct (Z.eqb_spec al 0); [discriminate |].
  inversion E. subst. repeat split; assumption.
Qed.

Lemma NRT_MemInfo_init_inv (mi d s f i e : Z) (w w' : World) :
  NRT_MemInfo_init mi d s f i e w = Ret tt w' ->
  meminfos w' = <[mi := mkMemInfo 1 f i d s e]> (meminfos w).
Proof.
  intros E. unfold NRT_MemInfo_init in E.
  destruct (mi =? NULL); [discriminate |]. inversion E. reflexivity.
Qed.

Lemma payload_nonnull (p : Z) :
  in_address_space p sizeof_MemInfo -> wrap64 (p + sizeof_MemInfo) <> NULL.
Proof.
  unfold in_address_space, sizeof_MemInfo, NULL. intros [H1 H2].
  rewrite wrap64_small; lia.
Qed.

Lemma aligned_payload_nonnull (p al : Z) :
  0 < al ->
  in_address_space p (sizeof_MemInfo + al) ->
  wrap64 (wrap64 (p + sizeof_MemInfo) +
          align_offset (wrap64 (p + sizeof_MemInfo)) al) <> NULL.
Proof.
  unfold in_address_space, sizeof_MemInfo, NULL. intros Hal [H1 H2].
  rewrite (wrap64_small (p + 48)) by lia.
  destruct (align_offset_spec (p + 48) al Hal) as (Hoff & _).
  rewrite wrap64_small; lia.
Qed.

(** A constructor: some allocation that leaves the handles alone, then
    [NRT_MemInfo_init] with a non-null data pointer. *)
Lemma init_keeps_data_nonnull (mi d s f i e : Z) (w0 w w' : World) :
  data_nonnull w0 ->
  meminfos w = meminfos w0 ->
  d <> NULL ->
  NRT_MemInfo_init mi d s f i e w = Ret tt w' ->
  data_nonnull w'.
Proof.
  intros H Hh Hd E. apply NRT_MemInfo_init_inv in E. rewrite Hh in E.
  apply (data_nonnull_insert w0 w' mi _ E); [intros _; exact Hd | exact H].
Qed.

Lemma NRT_MemInfo_new_keeps (d s f i r : Z) (w w' : World) :
  data_nonnull w -> d <> NULL ->
  NRT_MemInfo_new d s f i w = Ret r w' -> data_nonnull w'.
Proof.
  intros H Hd E. unfold NRT_MemInfo_new in E. invert_run.
  match goal with
  | Ha : NRT_Allocate _ _ = Ret _ ?w1, Hi : NRT_MemInfo_init _ _ _ _ _ _ ?w1 = Ret _ _ |- _ =>
      apply (init_keeps_data_nonnull _ _ _ _ _ _ w w1 _ H
               (frames_NRT_Allocate _ _ _ _ Ha) Hd Hi)
  end.
Qed.

Lemma store_inv (mi : Z) (f : MemInfo -> MemInfo) (w w' : World) :
  store mi f w = Ret tt w' ->
  exists m, meminfos w !! mi = Some m /\ meminfos w' = <[mi := f m]> (meminfos w).
Proof.
  intros E. unfold store, bind, load in E.
  destruct (meminfos w !! mi) as [m |]; [| discriminate].
  inversion E. eauto.
Qed.

(** A store that changes neither the count nor the data pointer, or that
    sets a non-null data pointer, or that lowers or raises the count of a
    handle whose count was positive. *)
Lemma store_keeps (mi : Z) (f : MemInfo -> MemInfo) (w w' : World) :
  data_nonnull w ->
  (forall m, meminfos w !! mi = Some m ->
             (0 < refct m -> data m <> NULL) ->
             0 < refct (f m) -> data (f m) <> NULL) ->
  store mi f w = Ret tt w' ->
  data_nonnull w'.
Proof.
  intros H Hf E. apply store_inv in E as (m & Hm & E).
  apply (data_nonnull_insert w w' mi _ E); [| exact H].
  apply (Hf m Hm). apply (H mi m Hm).
Qed.

Lemma load_inv (mi : Z) (m : MemInfo) (w w' : World) :
  load mi w = Ret m w' -> w' = w /\ meminfos w !! mi = Some m.
Proof.
  unfold load. destruct (meminfos w !! mi) as [m' |]; [| discriminate].
  intros E. inversion E. subst. split; reflexivity.
Qed.

Lemma assert_inv (c : bool) (msg : string) (w w' : World) :
  assert c msg w = Ret tt w' -> c = true /\ w' = w.
Proof.
  destruct c; simpl; intros E; [| discriminate].
  inversion E. split; reflexivity.
Qed.

Lemma single_block_keeps (alloc : M (Z * Z)) (before : Z -> M unit)
    (s f i e r : Z) (w w' : World) :
  (forall d mi w1, alloc w = Ret (d, mi) w1 ->
     meminfos w1 = meminfos w /\ d = wrap64 (mi + sizeof_MemInfo)) ->
  (forall d, frames (before d)) ->
  data_nonnull w ->
  in_address_space r sizeof_MemInfo ->
  (do p <- alloc;
   let '(data_p, mi) := p in
   before data_p ;; NRT_MemInfo_init mi data_p s f i e ;; ret mi) w = Ret r w' ->
  data_nonnull w'.
Proof.
  intros Halloc Hbefore H Hr E. invert_run.
  match goal with
  | Ha : alloc w = Ret _ _ |- _ => apply Halloc in Ha as [Hh Hd]
  end.
  match goal with
  | Hb : before _ _ = Ret _ _, Hi : NRT_MemInfo_init _ _ _ _ _ _ _ = Ret _ _ |- _ =>
      apply (Hbefore _) in Hb;
      apply (init_keeps_data_nonnull _ _ _ _ _ _ w _ _ H (eq_trans Hb Hh)) in Hi;
      [exact Hi | subst; apply payload_nonnull; exact Hr]
  end.
Qed.

Lemma aligned_block_keeps (sz al a : Z) (before : Z -> M unit)
    (s f i e r : Z) (w w' : World) :
  (forall d, frames (before d)) ->
  data_nonnull w ->
  0 < al ->
  in_address_space r (sizeof_MemInfo + al) ->
  (do p <- nrt_allocate_meminfo_and_data_align sz al a;
   let '(data_p, mi) := p in
   before data_p ;; NRT_MemInfo_init mi data_p s f i e ;; ret mi) w = Ret r w' ->
  data_nonnull w'.
Proof.
  intros Hbefore H Hal Hr E. invert_run.
  match goal with
  | Ha : nrt_allocate_meminfo_and_data_align _ _ _ w = Ret _ _ |- _ =>
      apply nrt_allocate_meminfo_and_data_align_inv in Ha as (Hh & _ & Hd)
  end.
  match goal with
  | Hb : before _ _ = Ret _ _, Hi : NRT_MemInfo_init _ _ _ _ _ _ _ = Ret _ _ |- _ =>
      apply (Hbefore _) in Hb;
      apply (init_keeps_data_nonnull _ _ _ _ _ _ w _ _ H (eq_trans Hb Hh)) in Hi;
      [exact Hi | subst; apply aligned_payload_nonnull; assumption]
  end.
Qed.

Lemma NRT_MemInfo_new_varsize_keeps (sz r : Z) (w w' : World) :
  data_nonnull w ->
  NRT_MemInfo_new_varsize sz w = Ret r w' -> data_nonnull w'.
Proof.
  intros H E. unfold NRT_MemInfo_new_varsize in E.
  apply bind_inv in E as (p & w1 & Ea & E).
  pose proof (data_nonnull_frame w w1 (frames_NRT_Allocate _ _ _ _ Ea) H) as H1.
  destruct (Z.eqb_spec p NULL) as [-> | Hp].
  - inversion E. subst. exact H1.
  - invert_run.
    match goal with
    | Hn : NRT_MemInfo_new _ _ _ _ _ = Ret _ _ |- _ =>
        exact (NRT_MemInfo_new_keeps _ _ _ _ _ _ _ H1 Hp Hn)
    end.
Qed.

Lemma NRT_MemInfo_acquire_keeps (mi : Z) (w w' : World) :
  data_nonnull w ->
  NRT_MemInfo_acquire mi w = Ret tt w' -> data_nonnull w'.
Proof.
  intros H E. unfold NRT_MemInfo_acquire in E.
  apply bind_inv in E as (m & w1 & El & E). apply load_inv in El as [-> Hm].
  apply bind_inv in E as ([] & w2 & Ea & E). apply assert_inv in Ea as [Hc ->].
  apply Z.ltb_lt in Hc.
  refine (store_keeps mi _ w w' H _ E).
  intros m' Hm' Hd _. rewrite Hm in Hm'. inversion Hm'. subst m'.
  simpl. apply Hd. exact Hc.
Qed.

Lemma NRT_MemInfo_release_keeps (mi : Z) (w w' : World) :
  data_nonnull w ->
  NRT_MemInfo_release mi w = Ret tt w' -> data_nonnull w'.
Proof.
  intros H E. unfold NRT_MemInfo_release in E.
  apply bind_inv in E as (m & w1 & El & E). apply load_inv in El as [-> Hm].
  apply bind_inv in E as ([] & w2 & Ea & E). apply assert_inv in Ea as [Hc ->].
  apply Z.ltb_lt in Hc. cbv zeta in E.
  apply bind_inv in E as ([] & w2 & Es & E).
  assert (H2 : data_nonnull w2).
  { refine (store_keeps mi _ w w2 H _ Es).
    intros m' Hm' Hd _. rewrite Hm in Hm'. inversion Hm'. subst m'.
    simpl. apply Hd. exact Hc. }
  destruct (wrap64 (refct m - 1) =? 0).
  - exact (data_nonnull_shrink w2 w' (shrinks_NRT_MemInfo_call_dtor _ _ _ _ E) H2).
  - inversion E. subst. exact H2.
Qed.

Lemma varsize_resize_keeps (mi sz r : Z) (alloc : MemInfo -> M Z) (msg : string)
    (w w' : World) :
  (forall m, frames (alloc m)) ->
  data_nonnull w ->
  r <> NULL ->
  (do m <- load mi;
   if negb (dtor m =? &S_nrt_varsize_dtor) then nrt_fatal_error msg
   else
   do p <- alloc m;
   store mi (set_data p) ;;
   if p =? NULL then ret NULL else
   store mi (set_size sz) ;;
   ret p) w = Ret r w' ->
  data_nonnull w'.
Proof.
  intros Hal H Hr E.
  apply bind_inv in E as (m & w1 & El & E). apply load_inv in El as [-> Hm].
  destruct (negb (dtor m =? &S_nrt_varsize_dtor)); [discriminate |].
  apply bind_inv in E as (p & w1 & Ea & E).
  pose proof (data_nonnull_frame w w1 (Hal _ _ _ _ Ea) H) as H1.
  apply bind_inv in E as ([] & w2 & Es & E).
  destruct (Z.eqb_spec p NULL) as [-> | Hp].
  - inversion E. subst. contradiction.
  - assert (H2 : data_nonnull w2).
    { refine (store_keeps mi _ w1 w2 H1 _ Es). intros; exact Hp. }
    apply bind_inv in E as ([] & w3 & Es2 & E). inversion E. subst.
    refine (store_keeps mi _ w2 w' H2 _ Es2).
    intros m' _ Hd Hpos. apply Hd. exact Hpos.
Qed.

Lemma NRT_MemInfo_varsize_free_keeps (mi ptr : Z) (w w' : World) :
  data_nonnull w ->
  (forall m, meminfos w !! mi = Some m -> data m <> ptr) ->
  NRT_MemInfo_varsize_free mi ptr w = Ret tt w' -> data_nonnull w'.
Proof.
  intros H Hadm E. unfold NRT_MemInfo_varsize_free in E.
  apply bind_inv in E as ([] & w1 & Ef & E).
  pose proof (shrinks_NRT_Free _ _ _ _ Ef) as Hsub.
  apply bind_inv in E as (m & w2 & El & E). apply load_inv in El as [-> Hm].
  pose proof (Hadm m (lookup_weaken _ _ _ _ Hm Hsub)) as Hne.
  destruct (Z.eqb_spec ptr (data m)); [congruence |].
  inversion E. subst. exact (data_nonnull_shrink w w' Hsub H).
Qed.

(** Every admissible use of an operation keeps the invariant. *)
Lemma exec_keeps_data_nonnull (op : public_op) (r : Z) (w w' : World) :
  data_nonnull w ->
  admissible op r w ->
  exec op w = Ret r w' ->
  data_nonnull w'.
Proof.
  intros H Hadm E. destruct op; cbn [exec admissible] in *.
  - apply (single_block_keeps (nrt_allocate_meminfo_and_data sz NULL)
             (fun _ => ret tt) sz NULL NULL NULL r w w'); auto with frame.
    intros d mi w1. apply nrt_allocate_meminfo_and_data_inv.
  - apply (single_block_keeps (nrt_allocate_meminfo_and_data sz a)
             (fun _ => ret tt) sz NULL NULL a r w w'); auto with frame.
    intros d mi w1. apply nrt_allocate_meminfo_and_data_inv.
  - apply (single_block_keeps (nrt_allocate_meminfo_and_data sz NULL)
             (fun d => memset d 203 (MIN sz 256)) sz
             &S_nrt_internal_custom_dtor_safe NULL NULL r w w'); auto with frame.
    intros d mi w1. apply nrt_allocate_meminfo_and_data_inv.
  - apply (single_block_keeps (nrt_allocate_meminfo_and_data sz NULL)
             (fun d => memset d 203 (MIN sz 256)) sz
             &S_nrt_internal_custom_dtor_safe dtor_p NULL r w w'); auto with frame.
    intros d mi w1. apply nrt_allocate_meminfo_and_data_inv.
  - destruct Hadm as [Hal Hr].
    apply (aligned_block_keeps sz align NULL (fun _ => ret tt) sz NULL NULL NULL r w w');
      auto with frame.
  - destruct Hadm as [Hal Hr].
    apply (aligned_block_keeps sz align NULL (fun d => memset d 203 (MIN sz 256)) sz
             &S_nrt_internal_dtor_safe sz NULL r w w'); auto with frame.
  - destruct Hadm as [Hal Hr].
    apply (aligned_block_keeps sz align a (fun d => memset d 203 (MIN sz 256)) sz
             &S_nrt_internal_dtor_safe sz a r w w'); auto with frame.
  - exact (NRT_MemInfo_new_keeps _ _ _ _ _ _ _ H Hadm E).
  - exact (NRT_MemInfo_new_keeps _ _ _ _ _ _ _ H Hadm E).
  - exact (NRT_MemInfo_new_varsize_keeps _ _ _ _ H E).
  - unfold NRT_MemInfo_new_varsize_dtor in E.
    apply bind_inv in E as (mi & w1 & En & E).
    pose proof (NRT_MemInfo_new_varsize_keeps _ _ _ _ H En) as H1.
    apply bind_inv in E as ([] & w2 & Es & E). inversion E. subst.
    destruct (negb (r =? NULL)).
    + refine (store_keeps r _ w1 w' H1 _ Es).
      intros m' _ Hd Hpos. apply Hd. exact Hpos.
    + inversion Es. subst. exact H1.
  - apply bind_inv in E as ([] & w1 & Ea & E). inversion E. subst.
    exact (NRT_MemInfo_acquire_keeps _ _ _ H Ea).
  - apply bind_inv in E as ([] & w1 & Ea & E). inversion E. subst.
    exact (NRT_MemInfo_release_keeps _ _ _ H Ea).
  - refine (varsize_resize_keeps mi sz r (fun _ => NRT_Allocate sz) _ w w' _ H Hadm E).
    auto with frame.
  - refine (varsize_resize_keeps mi sz r (fun m => NRT_Reallocate (data m) sz) _ w w'
              _ H Hadm E).
    auto with frame.
  - apply bind_inv in E as ([] & w1 & Ea & E). inversion E. subst.
    exact (NRT_MemInfo_varsize_free_keeps _ _ _ _ H Hadm Ea).
Qed.

Lemma data_nonnull_started (o : list Z) (eff : Z -> list Z -> gmap Z Z -> gmap Z Z) :
  data_nonnull (started_with o eff).
Proof. intros a m Hm. cbn in Hm. rewrite lookup_empty in Hm. discriminate. Qed.

(** C5, as the code has it.  In every state reached from one that satisfies
    the invariant (the state after [NRT_MemSys_init], for one) by admissible
    uses of the constructors, of acquire and release and of the
    resizable-buffer operations, every live handle with a positive
    reference count has a non-null data pointer.  The uses that are not
    admissible are those by which the code nulls, or never sets, the data
    pointer of a live handle: [NRT_MemInfo_varsize_free] of the handle's
    current payload, a resize that fails, and the wrapping of a null
    foreign pointer. *)
Theorem live_handles_have_data (w0 w : World) :
  data_nonnull w0 ->
  reachable w0 w ->
  data_nonnull w.
Proof.
  intros H0 Hr. induction Hr as [| w w' op r _ IH Hadm E].
  - exact H0.
  - exact (exec_keeps_data_nonnull op r w w' IH Hadm E).
Qed.

(** C5 as the claim has it fails: [NRT_MemInfo_varsize_free] of the current
    payload of the variable-size handle at 2000 leaves the handle live with
    reference count 1 and a null data pointer; so does wrapping a null
    pointer with [nrt_manage_memory]. *)
Lemma varsize_free_nulls_live_data :
  meminfos ex_varsize !! 2000 = Some (mkMemInfo 1 &S_nrt_varsize_dtor NULL 1000 16 NULL) /\
  value_of (NRT_MemInfo_varsize_free 2000 1000 ex_varsize) = Some tt /\
  meminfos (after (NRT_MemInfo_varsize_free 2000 1000) ex_varsize) !! 2000 =
    Some (mkMemInfo 1 &S_nrt_varsize_dtor NULL NULL 16 NULL) /\
  ~ data_nonnull (after (NRT_MemInfo_varsize_free 2000 1000) ex_varsize) /\
  value_of (nrt_manage_memory NULL 777 (started (1000 :: nil))) = Some 1000 /\
  meminfos (after (nrt_manage_memory NULL 777) (started (1000 :: nil))) !! 1000 =
    Some (mkMemInfo 1 &S_nrt_manage_memory_dtor 777 NULL 0 NULL).
Proof.
  split; [vm_compute; reflexivity |].
  split; [vm_compute; reflexivity |].
  split; [vm_compute; reflexivity |].
  split; [| split; vm_compute; reflexivity].
  intros H.
  apply (H 2000 (mkMemInfo 1 &S_nrt_varsize_dtor NULL NULL 16 NULL)).
  - vm_compute. reflexivity.
  - reflexivity.
  - reflexivity.
Qed.

(** A variable-size handle built, acquired, resized and released once. *)
Lemma live_handles_have_data_witness :
  data_nonnull ex_life4 /\
  meminfos ex_life4 !! 2000 = Some (mkMemInfo 1 &S_nrt_varsize_dtor NULL 3000 64 NULL).
Proof.
  split; [| vm_compute; reflexivity].
  apply (live_handles_have_data ex_life0).
  - apply data_nonnull_started.
  - assert (R1 : reachable ex_life0 ex_life1).
    { apply (reach_step ex_life0 ex_life0 ex_life1 (Op_new_varsize 16) 2000).
      - apply reach_start.
      - exact I.
      - vm_compute. reflexivity. }
    assert (R2 : reachable ex_life0 ex_life2).
    { apply (reach_step ex_life0 ex_life1 ex_life2 (Op_acquire 2000) 0 R1).
      - exact I.
      - vm_compute. reflexivity. }
    assert (R3 : reachable ex_life0 ex_life3).
    { apply (reach_step ex_life0 ex_life2 ex_life3 (Op_varsize_alloc 2000 64) 3000 R2).
      - discriminate.
      - vm_compute. reflexivity. }
    apply (reach_step ex_life0 ex_life3 ex_life4 (Op_release 2000) 0 R3).
    + exact I.
    + vm_compute. reflexivity.
Defined.

(** * Further properties *)

(** Project a field out of a state built by the updates above, without
    unfolding the fields that are not asked for. *)
Tactic Notation "world_proj" "in" hyp(H) :=
  cbn [allocated reallocated freed initialised rebound allocated_by
       set_TheMSys set_meminfos set_bytes set_oracle log
       TheMSys meminfos allocators bytes oracle effect trace
       incr_stats_alloc incr_stats_free incr_stats_mi_alloc incr_stats_mi_free
       set_allocator
       shutting stats_alloc stats_free stats_mi_alloc stats_mi_free allocator] in H.

Tactic Notation "world_proj" :=
  cbn [allocated reallocated freed initialised rebound allocated_by
       set_TheMSys set_meminfos set_bytes set_oracle log
       TheMSys meminfos allocators bytes oracle effect trace
       incr_stats_alloc incr_stats_free incr_stats_mi_alloc incr_stats_mi_free
       set_allocator
       shutting stats_alloc stats_free stats_mi_alloc stats_mi_free allocator].

(** ** Construction followed by a balanced use *)

Lemma run_ops_app (a b : list rc_op) (mi : Z) (w : World) :
  run_ops (a ++ b) mi w = (run_ops a mi ;; run_ops b mi) w.
Proof.
  revert w. induction a as [| o a IH]; intros w; [reflexivity |].
  destruct o; cbn [app run_ops]; unfold bind at 1;
    [destruct (NRT_MemInfo_acquire mi w) as [[] w1 | |] eqn:E
    |destruct (NRT_MemInfo_release mi w) as [[] w1 | |] eqn:E];
    unfold bind; rewrite E; try reflexivity; rewrite IH; reflexivity.
Qed.

(** A sequence that takes a handle without a destructor to invoke from its
    count down to 0. *)
Lemma run_ops_quiet (ops : list rc_op) :
  forall (mi : Z) (m : MemInfo) (w : World),
  meminfos w !! mi = Some m ->
  0 < refct m ->
  refct m + Z.of_nat (length ops) <= SIZE_MAX ->
  dtor_fires w m = false ->
  can_dealloc w m ->
  refcount_after ops (refct m) = Some 0 ->
  run_ops ops mi w =
    Ret tt (mkWorld (incr_stats_mi_free (incr_stats_free (TheMSys w)))
                    (delete mi (meminfos w))
                    (allocators w) (bytes w) (oracle w) (effect w)
                    (trace w ++ release_calls w mi m)).
Proof.
  induction ops as [| o rest IH]; intros mi m w Hm Hr Hb Hq Hc Hops.
  - simpl in Hops. inversion Hops. lia.
  - cbn [refcount_after] in Hops. destruct (Z.eqb_spec (refct m) 0); [lia |].
    cbn [length] in Hb. unfold SIZE_MAX in *.
    destruct o; cbn [run_ops].
    + step (NRT_MemInfo_acquire_spec mi m w Hm Hr).
      rewrite wrap64_small by lia.
      set (m1 := set_refct (refct m + 1) m).
      set (w1 := set_meminfos (<[mi := m1]> (meminfos w)) w).
      rewrite (IH mi m1 w1); try assumption; try (cbn; lia).
      * subst w1. world_simpl. rewrite delete_insert_eq. reflexivity.
      * apply lookup_insert_eq.
    + destruct (Z.eq_dec (refct m) 1) as [H1 | H1].
      * rewrite H1 in Hops. change (1 - 1) with 0 in Hops.
        destruct rest as [| o' rest']; [| discriminate].
        step (NRT_MemInfo_release_last_quiet mi m w Hm H1 Hq Hc). reflexivity.
      * step (NRT_MemInfo_release_live mi m w Hm ltac:(unfold SIZE_MAX; lia)).
        set (m1 := set_refct (refct m - 1) m).
        set (w1 := set_meminfos (<[mi := m1]> (meminfos w)) w).
        rewrite (IH mi m1 w1); try assumption; try (cbn; lia).
        -- subst w1. world_simpl. rewrite delete_insert_eq. reflexivity.
        -- apply lookup_insert_eq.
Qed.

Lemma NRT_MemInfo_alloc_ok (sz p : Z) (w : World) :
  malloc (allocator (TheMSys w)) <> NULL ->
  hd NULL (oracle w) = p ->
  p <> NULL ->
  NRT_MemInfo_alloc sz w =
    Ret p (initialised p (mkMemInfo 1 NULL NULL (wrap64 (p + sizeof_MemInfo)) sz NULL)
             (allocated (wrap64 (sizeof_MemInfo + sz)) w)).
Proof.
  intros Hm Ho Hp.
  pose proof (NRT_Allocate_External_global (wrap64 (sizeof_MemInfo + sz)) w Hm) as E.
  rewrite Ho in E. unfold NRT_MemInfo_alloc.
  step (nrt_allocate_meminfo_and_data_ok sz NULL p w _ E). cbv beta iota.
  step (NRT_MemInfo_init_ok p (wrap64 (p + sizeof_MemInfo)) sz NULL NULL NULL
          (allocated (wrap64 (sizeof_MemInfo + sz)) w) Hp).
  reflexivity.
Qed.

(** X1.  A handle built by [NRT_MemInfo_alloc] and then used by any sequence
    of acquires and releases that brings its count from 1 to 0 is gone at
    the end; the only calls made are one [malloc] and one [free] of the
    handle's block, payload memory is untouched, and each of the four
    counters has gone up by exactly one: a system whose counters were
    balanced before is balanced again. *)
Theorem alloc_then_balanced_release (sz p : Z) (ops : list rc_op) (w : World) :
  malloc (allocator (TheMSys w)) <> NULL ->
  free (allocator (TheMSys w)) <> NULL ->
  hd NULL (oracle w) = p ->
  p <> NULL ->
  refcount_after ops 1 = Some 0 ->
  1 + Z.of_nat (length ops) <= SIZE_MAX ->
  exists w',
    (do mi <- NRT_MemInfo_alloc sz; run_ops ops mi) w = Ret tt w' /\
    meminfos w' = delete p (meminfos w) /\
    trace w' = trace w ++
      mkEvent (malloc (allocator (TheMSys w))) (wrap64 (sizeof_MemInfo + sz) :: nil) ::
      mkEvent (free (allocator (TheMSys w))) (p :: nil) :: nil /\
    bytes w' = bytes w /\
    stats_alloc (TheMSys w') = wrap64 (stats_alloc (TheMSys w) + 1) /\
    stats_free (TheMSys w') = wrap64 (stats_free (TheMSys w) + 1) /\
    stats_mi_alloc (TheMSys w') = wrap64 (stats_mi_alloc (TheMSys w) + 1) /\
    stats_mi_free (TheMSys w') = wrap64 (stats_mi_free (TheMSys w) + 1) /\
    (stats_alloc (TheMSys w) = stats_free (TheMSys w) ->
     stats_mi_alloc (TheMSys w) = stats_mi_free (TheMSys w) ->
     ~ unbalanced (TheMSys w')).
Proof.
  intros Hm Hf Ho Hp Hops Hb.
  step (NRT_MemInfo_alloc_ok sz p w Hm Ho Hp).
  set (m := mkMemInfo 1 NULL NULL (wrap64 (p + sizeof_MemInfo)) sz NULL).
  set (w1 := initialised p m (allocated (wrap64 (sizeof_MemInfo + sz)) w)).
  assert (Hlive : meminfos w1 !! p = Some m) by apply lookup_insert_eq.
  rewrite (run_ops_quiet ops p m w1 Hlive ltac:(cbn; lia) Hb eq_refl Hf Hops).
  eexists. split; [reflexivity |]. subst w1. world_proj.
  split; [apply delete_insert_eq |].
  split; [unfold release_calls; cbn; rewrite <- app_assoc; reflexivity |].
  repeat split.
  intros E1 E2 [H | H]; apply H; cbn; congruence.
Qed.

Lemma alloc_then_balanced_release_witness :
  exists w',
    (do mi <- NRT_MemInfo_alloc 8;
     run_ops (Acquire :: Release :: Acquire :: Release :: Release :: nil) mi)
      (started (1000 :: nil)) = Ret tt w' /\
    meminfos w' = delete 1000 (meminfos (started (1000 :: nil))) /\
    ~ unbalanced (TheMSys w').
Proof.
  destruct (alloc_then_balanced_release 8 1000
              (Acquire :: Release :: Acquire :: Release :: Release :: nil)
              (started (1000 :: nil)))
    as (w' & E & Hh & _ & _ & _ & _ & _ & _ & Hbal).
  - vm_compute. discriminate.
  - vm_compute. discriminate.
  - reflexivity.
  - discriminate.
  - reflexivity.
  - vm_compute. discriminate.
  - exists w'. split; [exact E |]. split; [exact Hh |].
    apply Hbal; reflexivity.
Defined.

(** ** Variable-size buffers *)

Lemma NRT_MemInfo_new_ok (d s f i p : Z) (w : World) :
  malloc (allocator (TheMSys w)) <> NULL ->
  hd NULL (oracle w) = p ->
  p <> NULL ->
  NRT_MemInfo_new d s f i w =
    Ret p (initialised p (mkMemInfo 1 f i d s NULL) (allocated sizeof_MemInfo w)).
Proof.
  intros Hm Ho Hp. unfold NRT_MemInfo_new.
  pose proof (NRT_Allocate_ok sizeof_MemInfo w Hm) as E. rewrite Ho in E.
  step E.
  step (NRT_MemInfo_init_ok p d s f i NULL (allocated sizeof_MemInfo w) Hp).
  reflexivity.
Qed.

Lemma NRT_MemInfo_new_varsize_ok (sz p1 p2 : Z) (w : World) :
  malloc (allocator (TheMSys w)) <> NULL ->
  hd NULL (oracle w) = p1 ->
  hd NULL (tl (oracle w)) = p2 ->
  p1 <> NULL ->
  p2 <> NULL ->
  NRT_MemInfo_new_varsize sz w =
    Ret p2 (initialised p2 (mkMemInfo 1 &S_nrt_varsize_dtor NULL p1 sz NULL)
              (allocated sizeof_MemInfo (allocated sz w))).
Proof.
  intros Hm H1 H2 Hp1 Hp2. unfold NRT_MemInfo_new_varsize.
  pose proof (NRT_Allocate_ok sz w Hm) as E. rewrite H1 in E. step E.
  destruct (Z.eqb_spec p1 NULL); [contradiction |].
  step (NRT_MemInfo_new_ok p1 sz &S_nrt_varsize_dtor NULL p2 (allocated sz w) Hm H2 Hp2).
  reflexivity.
Qed.

(** What invoking [nrt_varsize_dtor] through a handle does. *)
Lemma call_dtor_varsize (m : MemInfo) (w : World) :
  dtor m = &S_nrt_varsize_dtor ->
  free (allocator (TheMSys w)) <> NULL ->
  call_dtor (dtor m) (data m) (size m) (dtor_info m) w =
    Ret tt (mkWorld (incr_stats_free (TheMSys w))
              (delete (data m) (meminfos w))
              (allocators w)
              (if dtor_info m =? NULL then bytes w
               else effect w (dtor_info m) (data m :: nil) (bytes w))
              (oracle w) (effect w)
              (trace w ++ dtor_call m ::
                 (if dtor_info m =? NULL then nil
                  else mkEvent (dtor_info m) (data m :: nil) :: nil) ++
                 mkEvent (free (allocator (TheMSys w))) (data m :: nil) :: nil)).
Proof.
  intros Hd Hf.
  assert (Hnn : dtor m <> NULL) by (rewrite Hd; apply addr_of_nonnull).
  assert (Hsym : symbol_at (dtor m) = Some S_nrt_varsize_dtor)
    by (rewrite Hd; apply symbol_at_addr_of).
  unfold call_dtor, dtor_call.
  step (indirect_ok (dtor m) (data m :: size m :: dtor_info m :: nil) w Hnn).
  rewrite Hsym. unfold nrt_varsize_dtor.
  destruct (Z.eqb_spec (dtor_info m) NULL) as [Hi | Hi]; cbn [negb].
  - unfold ret at 1, bind at 1.
    rewrite NRT_Free_ok by exact Hf.
    unfold freed. world_simpl. rewrite <- app_assoc. reflexivity.
  - step (call_extern_ok (dtor_info m) (data m :: nil)
            (log (mkEvent (dtor m) (data m :: size m :: dtor_info m :: nil)) w) Hi).
    rewrite NRT_Free_ok by exact Hf.
    unfold freed. world_simpl. rewrite <- !app_assoc. reflexivity.
Qed.

(** The release that takes the count from 1 to 0 and invokes the
    destructor: what is left to do after the destructor returned. *)
Lemma NRT_MemInfo_release_last_via (mi : Z) (m : MemInfo) (w w2 : World) :
  meminfos w !! mi = Some m ->
  refct m = 1 ->
  dtor_fires w m = true ->
  call_dtor (dtor m) (data m) (size m) (dtor_info m)
    (set_meminfos (<[mi := set_refct 0 m]> (meminfos w)) w) = Ret tt w2 ->
  NRT_MemInfo_release mi w = NRT_MemInfo_destroy mi w2.
Proof.
  intros Hm Hr Hfire E. unfold NRT_MemInfo_release.
  step (load_live _ _ _ Hm). rewrite Hr. cbn [Z.ltb Z.compare assert].
  unfold ret at 1, bind at 1.
  change (wrap64 (1 - 1)) with 0.
  step (store_live mi (set_refct 0) m w Hm).
  cbn [Z.eqb].
  set (m0 := set_refct 0 m) in *.
  set (w1 := set_meminfos (<[mi := m0]> (meminfos w)) w) in *.
  assert (Hm1 : meminfos w1 !! mi = Some m0) by apply lookup_insert_eq.
  unfold NRT_MemInfo_call_dtor.
  step (load_live _ _ _ Hm1). unfold get_msys, bind at 1.
  change (dtor m0) with (dtor m). change (data m0) with (data m).
  change (size m0) with (size m). change (dtor_info m0) with (dtor_info m).
  change (TheMSys w1) with (TheMSys w).
  unfold dtor_fires in Hfire. rewrite Hfire.
  step E. reflexivity.
Qed.

(** The release that takes a variable-size handle from 1 to 0 while the
    runtime is up. *)
Lemma NRT_MemInfo_release_last_varsize (mi : Z) (m : MemInfo) (w : World) :
  meminfos w !! mi = Some m ->
  refct m = 1 ->
  dtor m = &S_nrt_varsize_dtor ->
  external_allocator m = NULL ->
  data m <> mi ->
  shutting (TheMSys w) = 0 ->
  free (allocator (TheMSys w)) <> NULL ->
  NRT_MemInfo_release mi w =
    Ret tt (mkWorld (incr_stats_mi_free (incr_stats_free (incr_stats_free (TheMSys w))))
              (delete (data m) (delete mi (meminfos w)))
              (allocators w)
              (if dtor_info m =? NULL then bytes w
               else effect w (dtor_info m) (data m :: nil) (bytes w))
              (oracle w) (effect w)
              (trace w ++
                 dtor_call m ::
                 (if dtor_info m =? NULL then nil
                  else mkEvent (dtor_info m) (data m :: nil) :: nil) ++
                 mkEvent (free (allocator (TheMSys w))) (data m :: nil) ::
                 mkEvent (free (allocator (TheMSys w))) (mi :: nil) :: nil)).
Proof.
  intros Hm Hr Hd He Hne Hs Hf.
  assert (Hfire : dtor_fires w m = true).
  { unfold dtor_fires. rewrite Hs, Hd. reflexivity. }
  set (m0 := set_refct 0 m).
  set (w1 := set_meminfos (<[mi := m0]> (meminfos w)) w).
  pose proof (call_dtor_varsize m0 w1 Hd Hf) as E.
  rewrite (NRT_MemInfo_release_last_via mi m w _ Hm Hr Hfire E).
  match goal with
  | |- NRT_MemInfo_destroy mi ?W = _ =>
      assert (Hm2 : meminfos W !! mi = Some m0)
        by (cbn; rewrite lookup_delete_ne by exact Hne; apply lookup_insert_eq);
      assert (Hc2 : can_dealloc W m0)
        by (unfold can_dealloc; cbn; rewrite He; exact Hf);
      rewrite (NRT_MemInfo_destroy_spec mi m0 W Hm2 Hc2)
  end.
  world_simpl. f_equal. f_equal.
  - rewrite delete_delete. f_equal. apply delete_insert_eq.
  - unfold release_calls. cbn. rewrite He. cbn.
    rewrite <- !app_assoc. cbn. rewrite <- !app_assoc. reflexivity.
Qed.

(** X2.  The release that takes a variable-size handle from 1 to 0 while
    the runtime is up calls, in this order: [nrt_varsize_dtor]; the element
    destructor stored in [dtor_info], if there is one, with the payload
    pointer as its only argument; the bound [free] on the payload; the bound
    [free] on the handle.  The payload and the handle are each freed exactly
    once, [stats_free] goes up by two and [stats_mi_free] by one. *)
Theorem varsize_release_frees_payload_then_handle (mi : Z) (m : MemInfo) (w : World) :
  meminfos w !! mi = Some m ->
  refct m = 1 ->
  dtor m = &S_nrt_varsize_dtor ->
  external_allocator m = NULL ->
  data m <> mi ->
  shutting (TheMSys w) = 0 ->
  free (allocator (TheMSys w)) <> NULL ->
  exists w',
    NRT_MemInfo_release mi w = Ret tt w' /\
    trace w' = trace w ++
      dtor_call m ::
      (if dtor_info m =? NULL then nil
       else mkEvent (dtor_info m) (data m :: nil) :: nil) ++
      mkEvent (free (allocator (TheMSys w))) (data m :: nil) ::
      mkEvent (free (allocator (TheMSys w))) (mi :: nil) :: nil /\
    meminfos w' = delete (data m) (delete mi (meminfos w)) /\
    stats_free (TheMSys w') = wrap64 (wrap64 (stats_free (TheMSys w) + 1) + 1) /\
    stats_mi_free (TheMSys w') = wrap64 (stats_mi_free (TheMSys w) + 1) /\
    stats_alloc (TheMSys w') = stats_alloc (TheMSys w) /\
    stats_mi_alloc (TheMSys w') = stats_mi_alloc (TheMSys w).
Proof.
  intros Hm Hr Hd He Hne Hs Hf.
  rewrite (NRT_MemInfo_release_last_varsize mi m w Hm Hr Hd He Hne Hs Hf).
  eexists. split; [reflexivity |]. repeat split.
Qed.

Lemma varsize_release_frees_payload_then_handle_witness :
  exists w',
    NRT_MemInfo_release 2000 ex_varsize_dtor = Ret tt w' /\
    trace w' =
      mkEvent &S_malloc (16 :: nil) :: mkEvent &S_malloc (48 :: nil) ::
      mkEvent &S_nrt_varsize_dtor (1000 :: 16 :: 777 :: nil) ::
      mkEvent 777 (1000 :: nil) ::
      mkEvent &S_free (1000 :: nil) :: mkEvent &S_free (2000 :: nil) :: nil.
Proof.
  destruct (varsize_release_frees_payload_then_handle 2000
              (mkMemInfo 1 &S_nrt_varsize_dtor 777 1000 16 NULL) ex_varsize_dtor)
    as (w' & E & Ht & _).
  - vm_compute. reflexivity.
  - reflexivity.
  - reflexivity.
  - reflexivity.
  - discriminate.
  - reflexivity.
  - vm_compute. discriminate.
  - exists w'. split; [exact E |]. rewrite Ht. vm_compute. reflexivity.
Defined.

Lemma NRT_MemInfo_varsize_alloc_ok (mi sz p : Z) (m : MemInfo) (w : World) :
  meminfos w !! mi = Some m ->
  dtor m = &S_nrt_varsize_dtor ->
  malloc (allocator (TheMSys w)) <> NULL ->
  hd NULL (oracle w) = p ->
  p <> NULL ->
  NRT_MemInfo_varsize_alloc mi sz w =
    Ret p (set_meminfos (<[mi := set_size sz (set_data p m)]> (meminfos w))
             (allocated sz w)).
Proof.
  intros Hm Hd Hf Ho Hp. unfold NRT_MemInfo_varsize_alloc.
  step (load_live _ _ _ Hm).
  rewrite Hd, Z.eqb_refl. cbn [negb].
  step (NRT_Allocate_ok sz w Hf). rewrite Ho.
  step (store_live mi (set_data p) m (allocated sz w) Hm).
  destruct (Z.eqb_spec p NULL); [contradiction |].
  match goal with
  | |- bind (store mi ?f) _ ?W = _ =>
      assert (Hm2 : meminfos W !! mi = Some (set_data p m)) by apply lookup_insert_eq;
      step (store_live mi f (set_data p m) W Hm2)
  end.
  unfold ret. world_simpl. rewrite insert_insert_eq. reflexivity.
Qed.

Lemma NRT_MemInfo_varsize_realloc_ok (mi sz p : Z) (m : MemInfo) (w : World) :
  meminfos w !! mi = Some m ->
  dtor m = &S_nrt_varsize_dtor ->
  realloc (allocator (TheMSys w)) <> NULL ->
  hd NULL (oracle w) = p ->
  p <> NULL ->
  NRT_MemInfo_varsize_realloc mi sz w =
    Ret p (set_meminfos (<[mi := set_size sz (set_data p m)]> (meminfos w))
             (reallocated (data m) sz w)).
Proof.
  intros Hm Hd Hf Ho Hp. unfold NRT_MemInfo_varsize_realloc.
  step (load_live _ _ _ Hm).
  rewrite Hd, Z.eqb_refl. cbn [negb].
  step (NRT_Reallocate_ok (data m) sz w Hf). rewrite Ho.
  step (store_live mi (set_data p) m (reallocated (data m) sz w) Hm).
  destruct (Z.eqb_spec p NULL); [contradiction |].
  match goal with
  | |- bind (store mi ?f) _ ?W = _ =>
      assert (Hm2 : meminfos W !! mi = Some (set_data p m)) by apply lookup_insert_eq;
      step (store_live mi f (set_data p m) W Hm2)
  end.
  unfold ret. world_simpl. rewrite insert_insert_eq. reflexivity.
Qed.

Lemma NRT_MemInfo_varsize_free_current (mi : Z) (m : MemInfo) (w : World) :
  meminfos w !! mi = Some m ->
  data m <> mi ->
  free (allocator (TheMSys w)) <> NULL ->
  NRT_MemInfo_varsize_free mi (data m) w =
    Ret tt (set_meminfos (<[mi := set_data NULL m]> (delete (data m) (meminfos w)))
              (freed (data m) w)).
Proof.
  intros Hm Hne Hf. unfold NRT_MemInfo_varsize_free.
  step (NRT_Free_ok (data m) w Hf).
  assert (Hm1 : meminfos (freed (data m) w) !! mi = Some m).
  { cbn. rewrite lookup_delete_ne by exact Hne. exact Hm. }
  step (load_live _ _ _ Hm1). rewrite Z.eqb_refl.
  rewrite (store_live mi (set_data NULL) m _ Hm1). reflexivity.
Qed.

Lemma NRT_MemInfo_varsize_free_other (mi ptr : Z) (m : MemInfo) (w : World) :
  meminfos w !! mi = Some m ->
  ptr <> data m ->
  ptr <> mi ->
  free (allocator (TheMSys w)) <> NULL ->
  NRT_MemInfo_varsize_free mi ptr w = Ret tt (freed ptr w).
Proof.
  intros Hm Hne Hmi Hf. unfold NRT_MemInfo_varsize_free.
  step (NRT_Free_ok ptr w Hf).
  assert (Hm1 : meminfos (freed ptr w) !! mi = Some m).
  { cbn. rewrite lookup_delete_ne by exact Hmi. exact Hm. }
  step (load_live _ _ _ Hm1).
  destruct (Z.eqb_spec ptr (data m)); [contradiction | reflexivity].
Qed.

Lemma wrap64_succ_neq (x : Z) : 0 <= x < 2 ^ 64 -> wrap64 (x + 1) <> x.
Proof.
  intros Hx. unfold wrap64.
  destruct (Z.eq_dec x (2 ^ 64 - 1)) as [-> | Hne].
  - replace (2 ^ 64 - 1 + 1) with (1 * 2 ^ 64) by lia.
    rewrite Z.mod_mul by lia. lia.
  - rewrite Z.mod_small by lia. lia.
Qed.

(** X3.  A variable-size buffer destroyed after [NRT_MemSys_shutdown] leaks
    its payload: the release frees the handle's block only, so
    [stats_alloc] has gone up by two and [stats_free] by one, and a later
    [NRT_MemSys_set_allocator] with a function that differs from the bound
    one is fatal, even though the counters were balanced at the start.
    Without the shutdown the same sequence frees both blocks and the
    rebinding goes through. *)
Theorem varsize_leaks_after_shutdown (sz p1 p2 fm fr ff : Z) (w : World) :
  malloc (allocator (TheMSys w)) <> NULL ->
  free (allocator (TheMSys w)) <> NULL ->
  hd NULL (oracle w) = p1 ->
  hd NULL (tl (oracle w)) = p2 ->
  p1 <> NULL -> p2 <> NULL -> p1 <> p2 ->
  shutting (TheMSys w) = 0 ->
  stats_alloc (TheMSys w) = stats_free (TheMSys w) ->
  stats_mi_alloc (TheMSys w) = stats_mi_free (TheMSys w) ->
  differs fm fr ff (TheMSys w) ->
  (exists w',
     (do mi <- NRT_MemInfo_new_varsize sz;
      NRT_MemSys_shutdown ;;
      NRT_MemInfo_release mi ;;
      NRT_MemSys_set_allocator fm fr ff) w =
       Abort "cannot change allocator while blocks are allocated" w' /\
     trace w' = trace w ++
       mkEvent (malloc (allocator (TheMSys w))) (sz :: nil) ::
       mkEvent (malloc (allocator (TheMSys w))) (sizeof_MemInfo :: nil) ::
       mkEvent (free (allocator (TheMSys w))) (p2 :: nil) :: nil /\
     stats_alloc (TheMSys w') = wrap64 (wrap64 (stats_alloc (TheMSys w) + 1) + 1) /\
     stats_free (TheMSys w') = wrap64 (stats_free (TheMSys w) + 1)) /\
  (exists w',
     (do mi <- NRT_MemInfo_new_varsize sz;
      NRT_MemInfo_release mi ;;
      NRT_MemSys_set_allocator fm fr ff) w = Ret tt w' /\
     trace w' = trace w ++
       mkEvent (malloc (allocator (TheMSys w))) (sz :: nil) ::
       mkEvent (malloc (allocator (TheMSys w))) (sizeof_MemInfo :: nil) ::
       mkEvent &S_nrt_varsize_dtor (p1 :: sz :: NULL :: nil) ::
       mkEvent (free (allocator (TheMSys w))) (p1 :: nil) ::
       mkEvent (free (allocator (TheMSys w))) (p2 :: nil) :: nil /\
     allocator (TheMSys w') = mkAllocator fm fr ff).
Proof.
  intros Hm Hf H1 H2 Hp1 Hp2 Hne Hs Hbal Hbalmi Hdiff.
  set (m := mkMemInfo 1 &S_nrt_varsize_dtor NULL p1 sz NULL).
  set (w1 := initialised p2 m (allocated sizeof_MemInfo (allocated sz w))).
  assert (Hlive : meminfos w1 !! p2 = Some m) by apply lookup_insert_eq.
  split.
  - step (NRT_MemInfo_new_varsize_ok sz p1 p2 w Hm H1 H2 Hp1 Hp2). fold m w1.
    unfold NRT_MemSys_shutdown at 1, modify_msys at 1, modify at 1, bind at 1.
    match goal with
    | |- exists w', bind (NRT_MemInfo_release p2) _ ?W = _ /\ _ =>
        assert (Hl2 : meminfos W !! p2 = Some m) by exact Hlive;
        rewrite (bind_Ret _ _ _ _ _
                   (NRT_MemInfo_release_last_quiet p2 m W Hl2 eq_refl
                      ltac:(reflexivity)
                      ltac:(exact Hf)))
    end.
    match goal with
    | |- exists w', NRT_MemSys_set_allocator fm fr ff ?W = _ /\ _ =>
        destruct (set_allocator_cases fm fr ff W) as [(_ & _ & E) | (Hn & _)]
    end.
    + rewrite E. eexists. split; [reflexivity |]. subst w1.
      world_proj.
      split; [| split; reflexivity].
      unfold release_calls. cbn. rewrite <- !app_assoc. reflexivity.
    + exfalso. apply Hn. split; [exact Hdiff |]. left.
      subst w1. world_proj. rewrite Hbal.
      apply wrap64_succ_neq. apply wrap64_range.
  - step (NRT_MemInfo_new_varsize_ok sz p1 p2 w Hm H1 H2 Hp1 Hp2). fold m w1.
    rewrite (bind_Ret _ _ _ _ _
               (NRT_MemInfo_release_last_varsize p2 m w1 Hlive eq_refl eq_refl eq_refl
                  Hne Hs Hf)).
    match goal with
    | |- exists w', NRT_MemSys_set_allocator fm fr ff ?W = _ /\ _ =>
        destruct (set_allocator_cases fm fr ff W) as [(_ & Hu & _) | (_ & E)]
    end.
    + exfalso. subst w1. unfold unbalanced in Hu. world_proj in Hu.
      destruct Hu as [Hu | Hu]; apply Hu; congruence.
    + rewrite E. eexists. split; [reflexivity |]. subst w1.
      world_proj.
      split; [| reflexivity].
      cbn. rewrite <- !app_assoc. reflexivity.
Qed.

Lemma varsize_leaks_after_shutdown_witness :
  exists w',
    (do mi <- NRT_MemInfo_new_varsize 16;
     NRT_MemSys_shutdown ;;
     NRT_MemInfo_release mi ;;
     NRT_MemSys_set_allocator 7001 7002 7003) (started (1000 :: 2000 :: nil)) =
      Abort "cannot change allocator while blocks are allocated" w' /\
    stats_alloc (TheMSys w') = 2 /\ stats_free (TheMSys w') = 1.
Proof.
  destruct (varsize_leaks_after_shutdown 16 1000 2000 7001 7002 7003
              (started (1000 :: 2000 :: nil)))
    as ((w' & E & _ & Ha & Hf) & _).
  - vm_compute. discriminate.
  - vm_compute. discriminate.
  - reflexivity.
  - reflexivity.
  - discriminate.
  - discriminate.
  - discriminate.
  - reflexivity.
  - reflexivity.
  - reflexivity.
  - left. vm_compute. discriminate.
  - exists w'. split; [exact E |]. rewrite Ha, Hf. split; reflexivity.
Defined.

(** X4.  Freeing the payload of a variable-size handle early with
    [NRT_MemInfo_varsize_free] and releasing the handle afterwards does not
    free the payload twice: the payload pointer is passed to [free] exactly
    once.  The destructor then runs on the nulled data field: the element
    destructor, if any, is called with [NULL], and [free] is called on
    [NULL] before the handle's block is freed; [stats_free] goes up by
    three. *)
Theorem varsize_free_then_release (mi : Z) (m : MemInfo) (w : World) :
  meminfos w !! mi = Some m ->
  refct m = 1 ->
  dtor m = &S_nrt_varsize_dtor ->
  external_allocator m = NULL ->
  data m <> NULL ->
  data m <> mi ->
  mi <> NULL ->
  shutting (TheMSys w) = 0 ->
  free (allocator (TheMSys w)) <> NULL ->
  exists w',
    (NRT_MemInfo_varsize_free mi (data m) ;; NRT_MemInfo_release mi) w = Ret tt w' /\
    trace w' = trace w ++
      mkEvent (free (allocator (TheMSys w))) (data m :: nil) ::
      mkEvent &S_nrt_varsize_dtor (NULL :: size m :: dtor_info m :: nil) ::
      (if dtor_info m =? NULL then nil
       else mkEvent (dtor_info m) (NULL :: nil) :: nil) ++
      mkEvent (free (allocator (TheMSys w))) (NULL :: nil) ::
      mkEvent (free (allocator (TheMSys w))) (mi :: nil) :: nil /\
    count_event (mkEvent (free (allocator (TheMSys w))) (data m :: nil)) (trace w') =
      S (count_event (mkEvent (free (allocator (TheMSys w))) (data m :: nil)) (trace w)) /\
    meminfos w' !! mi = None /\
    stats_free (TheMSys w') =
      wrap64 (wrap64 (wrap64 (stats_free (TheMSys w) + 1) + 1) + 1).
Proof.
  intros Hm Hr Hd He Hdn Hne Hmi Hs Hf.
  step (NRT_MemInfo_varsize_free_current mi m w Hm Hne Hf).
  set (m1 := set_data NULL m).
  set (w1 := set_meminfos (<[mi := m1]> (delete (data m) (meminfos w))) (freed (data m) w)).
  assert (Hl1 : meminfos w1 !! mi = Some m1) by apply lookup_insert_eq.
  rewrite (NRT_MemInfo_release_last_varsize mi m1 w1 Hl1 Hr Hd He
             ltac:(cbn; congruence) Hs Hf).
  eexists. split; [reflexivity |]. subst w1. unfold freed, dtor_call.
  world_simpl. msys_simpl. cbn [dtor data size dtor_info m1 set_data].
  rewrite Hd.
  assert (Ht : forall (t : list event) x l, (t ++ x :: nil) ++ l = t ++ x :: l).
  { intros. rewrite <- app_assoc. reflexivity. }
  rewrite Ht.
  split; [reflexivity |].
  split.
  { rewrite count_event_app. cbn [count_event]. rewrite event_eqb_refl.
    rewrite (event_eqb_length _ (mkEvent &S_nrt_varsize_dtor _)) by (cbn; discriminate).
    rewrite count_event_app.
    assert (Hz : forall l, (forall x, In x l -> args x <> data m :: nil) ->
                 count_event (mkEvent (free (allocator (TheMSys w))) (data m :: nil)) l = 0%nat).
    { induction l as [| x l IH]; intros Hl; [reflexivity |].
      cbn [count_event]. rewrite event_eqb_args.
      - rewrite IH; [reflexivity | intros y Hy; apply Hl; right; exact Hy].
      - cbn. apply not_eq_sym. apply Hl. left. reflexivity. }
    rewrite (Hz (_ :: _ :: nil)) by (intros x [<- | [<- | []]]; cbn; congruence).
    rewrite (Hz (if dtor_info m =? NULL then _ else _)); [lia |].
    destruct (dtor_info m =? NULL); [intros x [] |].
    intros x [<- | []]. cbn. congruence. }
  split; [rewrite lookup_delete_ne by (cbn; congruence); apply lookup_delete_eq |].
  reflexivity.
Qed.

Lemma varsize_free_then_release_witness :
  exists w',
    (NRT_MemInfo_varsize_free 2000 1000 ;; NRT_MemInfo_release 2000) ex_varsize_dtor =
      Ret tt w' /\
    trace w' =
      mkEvent &S_malloc (16 :: nil) :: mkEvent &S_malloc (48 :: nil) ::
      mkEvent &S_free (1000 :: nil) ::
      mkEvent &S_nrt_varsize_dtor (NULL :: 16 :: 777 :: nil) ::
      mkEvent 777 (NULL :: nil) ::
      mkEvent &S_free (NULL :: nil) :: mkEvent &S_free (2000 :: nil) :: nil.
Proof.
  destruct (varsize_free_then_release 2000
              (mkMemInfo 1 &S_nrt_varsize_dtor 777 1000 16 NULL) ex_varsize_dtor)
    as (w' & E & Ht & _).
  - vm_compute. reflexivity.
  - reflexivity.
  - reflexivity.
  - reflexivity.
  - discriminate.
  - discriminate.
  - discriminate.
  - reflexivity.
  - vm_compute. discriminate.
  - exists w'. split; [exact E |]. rewrite Ht. vm_compute. reflexivity.
Defined.

(** X5.  Growing a variable-size buffer with [NRT_MemInfo_varsize_alloc]
    neither frees nor copies the old payload: the only call is one [malloc]
    of the new size, and payload memory is untouched.  When the caller then
    frees the old payload with [NRT_MemInfo_varsize_free], the handle keeps
    the new payload and the new size (the pointer freed is no longer the
    current one, so the data field is not nulled), its reference count is
    unchanged, and [stats_alloc] and [stats_free] have each gone up by
    one. *)
Theorem varsize_alloc_then_free_old (mi sz p : Z) (m : MemInfo) (w : World) :
  meminfos w !! mi = Some m ->
  dtor m = &S_nrt_varsize_dtor ->
  malloc (allocator (TheMSys w)) <> NULL ->
  free (allocator (TheMSys w)) <> NULL ->
  hd NULL (oracle w) = p ->
  p <> NULL ->
  p <> data m ->
  data m <> mi ->
  (exists w1,
     NRT_MemInfo_varsize_alloc mi sz w = Ret p w1 /\
     meminfos w1 = <[mi := set_size sz (set_data p m)]> (meminfos w) /\
     trace w1 = trace w ++ mkEvent (malloc (allocator (TheMSys w))) (sz :: nil) :: nil /\
     bytes w1 = bytes w /\
     stats_free (TheMSys w1) = stats_free (TheMSys w)) /\
  (exists w',
     (NRT_MemInfo_varsize_alloc mi sz ;; NRT_MemInfo_varsize_free mi (data m)) w =
       Ret tt w' /\
     meminfos w' !! mi = Some (set_size sz (set_data p m)) /\
     trace w' = trace w ++
       mkEvent (malloc (allocator (TheMSys w))) (sz :: nil) ::
       mkEvent (free (allocator (TheMSys w))) (data m :: nil) :: nil /\
     bytes w' = bytes w /\
     stats_alloc (TheMSys w') = wrap64 (stats_alloc (TheMSys w) + 1) /\
     stats_free (TheMSys w') = wrap64 (stats_free (TheMSys w) + 1)).
Proof.
  intros Hm Hd Hma Hf Ho Hp Hne Hmi.
  pose proof (NRT_MemInfo_varsize_alloc_ok mi sz p m w Hm Hd Hma Ho Hp) as E.
  split.
  - rewrite E. eexists. split; [reflexivity |]. repeat split.
  - step E.
    set (m1 := set_size sz (set_data p m)).
    set (w1 := set_meminfos (<[mi := m1]> (meminfos w)) (allocated sz w)).
    assert (Hl1 : meminfos w1 !! mi = Some m1) by apply lookup_insert_eq.
    rewrite (NRT_MemInfo_varsize_free_other mi (data m) m1 w1 Hl1
               ltac:(cbn; congruence) Hmi Hf).
    eexists. split; [reflexivity |]. subst w1. world_proj.
    split; [rewrite lookup_delete_ne by exact Hmi; apply lookup_insert_eq |].
    split; [rewrite <- app_assoc; reflexivity |].
    repeat split.
Qed.

Lemma varsize_alloc_then_free_old_witness :
  exists w',
    (NRT_MemInfo_varsize_alloc 2000 64 ;; NRT_MemInfo_varsize_free 2000 1000) ex_life1 =
      Ret tt w' /\
    meminfos w' !! 2000 = Some (mkMemInfo 1 &S_nrt_varsize_dtor NULL 3000 64 NULL).
Proof.
  destruct (varsize_alloc_then_free_old 2000 64 3000
              (mkMemInfo 1 &S_nrt_varsize_dtor NULL 1000 16 NULL) ex_life1)
    as (_ & (w' & E & Hh & _)).
  - vm_compute. reflexivity.
  - reflexivity.
  - vm_compute. discriminate.
  - vm_compute. discriminate.
  - reflexivity.
  - discriminate.
  - discriminate.
  - discriminate.
  - exists w'. split; [exact E | exact Hh].
Defined.

(** ** Reading a live handle *)

Lemma NRT_MemInfo_data_ok (mi : Z) (m : MemInfo) (w : World) :
  meminfos w !! mi = Some m -> NRT_MemInfo_data mi w = Ret (data m) w.
Proof. intros Hm. unfold NRT_MemInfo_data. step (load_live _ _ _ Hm). reflexivity. Qed.

Lemma NRT_MemInfo_size_ok (mi : Z) (m : MemInfo) (w : World) :
  meminfos w !! mi = Some m -> NRT_MemInfo_size mi w = Ret (size m) w.
Proof. intros Hm. unfold NRT_MemInfo_size. step (load_live _ _ _ Hm). reflexivity. Qed.

Lemma NRT_MemInfo_parent_ok (mi : Z) (m : MemInfo) (w : World) :
  meminfos w !! mi = Some m -> NRT_MemInfo_parent mi w = Ret (dtor_info m) w.
Proof. intros Hm. unfold NRT_MemInfo_parent. step (load_live _ _ _ Hm). reflexivity. Qed.

Lemma NRT_MemInfo_external_allocator_ok (mi : Z) (m : MemInfo) (w : World) :
  meminfos w !! mi = Some m ->
  NRT_MemInfo_external_allocator mi w = Ret (external_allocator m) w.
Proof.
  intros Hm. unfold NRT_MemInfo_external_allocator.
  step (load_live _ _ _ Hm). reflexivity.
Qed.

Lemma NRT_MemInfo_refcount_ok (mi : Z) (m : MemInfo) (w : World) :
  meminfos w !! mi = Some m -> mi <> NULL -> data m <> NULL ->
  NRT_MemInfo_refcount mi w = Ret (refct m) w.
Proof.
  intros Hm Hmi Hd. unfold NRT_MemInfo_refcount.
  destruct (Z.eqb_spec mi NULL); [contradiction |].
  step (load_live _ _ _ Hm).
  destruct (Z.eqb_spec (data m) NULL); [contradiction | reflexivity].
Qed.

(** ** Reallocation of a variable-size buffer *)

(** X6.  A [NRT_MemInfo_varsize_realloc] that succeeds hands the old
    payload pointer and the new size to the bound [realloc], stores the
    pointer it gets and the new size in the handle, and leaves the reference
    count, the destructor and every counter as they were: reallocation is
    not counted in [stats_alloc] or [stats_free]. *)
Theorem varsize_realloc_replaces_payload (mi sz p : Z) (m : MemInfo) (w : World) :
  meminfos w !! mi = Some m ->
  dtor m = &S_nrt_varsize_dtor ->
  realloc (allocator (TheMSys w)) <> NULL ->
  hd NULL (oracle w) = p ->
  p <> NULL ->
  mi <> NULL ->
  exists w',
    NRT_MemInfo_varsize_realloc mi sz w = Ret p w' /\
    meminfos w' = <[mi := set_size sz (set_data p m)]> (meminfos w) /\
    value_of ((do d <- NRT_MemInfo_data mi; do s <- NRT_MemInfo_size mi;
               do n <- NRT_MemInfo_refcount mi; ret (d, s, n)) w') =
      Some (p, sz, refct m) /\
    trace w' = trace w ++
      mkEvent (realloc (allocator (TheMSys w))) (data m :: sz :: nil) :: nil /\
    TheMSys w' = TheMSys w /\
    bytes w' = bytes w.
Proof.
  intros Hm Hd Hf Ho Hp Hmi.
  rewrite (NRT_MemInfo_varsize_realloc_ok mi sz p m w Hm Hd Hf Ho Hp).
  eexists. split; [reflexivity |]. split; [reflexivity |].
  split; [| repeat split].
  set (w' := set_meminfos _ _).
  assert (Hl : meminfos w' !! mi = Some (set_size sz (set_data p m)))
    by apply lookup_insert_eq.
  step (NRT_MemInfo_data_ok _ _ _ Hl). step (NRT_MemInfo_size_ok _ _ _ Hl).
  step (NRT_MemInfo_refcount_ok _ _ _ Hl Hmi Hp). reflexivity.
Qed.

Lemma varsize_realloc_replaces_payload_witness :
  exists w',
    NRT_MemInfo_varsize_realloc 2000 64 ex_life1 = Ret 3000 w' /\
    meminfos w' !! 2000 = Some (mkMemInfo 1 &S_nrt_varsize_dtor NULL 3000 64 NULL) /\
    TheMSys w' = TheMSys ex_life1.
Proof.
  destruct (varsize_realloc_replaces_payload 2000 64 3000
              (mkMemInfo 1 &S_nrt_varsize_dtor NULL 1000 16 NULL) ex_life1)
    as (w' & E & Hh & _ & _ & Hs & _).
  - vm_compute. reflexivity.
  - reflexivity.
  - vm_compute. discriminate.
  - reflexivity.
  - discriminate.
  - discriminate.
  - exists w'. split; [exact E |]. split; [| exact Hs].
    rewrite Hh. apply lookup_insert_eq.
Defined.

(** ** Foreign memory *)

Lemma NRT_MemInfo_release_last_fires (mi : Z) (m : MemInfo) (w : World) :
  meminfos w !! mi = Some m ->
  refct m = 1 ->
  dtor_fires w m = true ->
  NRT_MemInfo_release mi w =
    (call_dtor (dtor m) (data m) (size m) (dtor_info m) ;; NRT_MemInfo_destroy mi)
      (set_meminfos (<[mi := set_refct 0 m]> (meminfos w)) w).
Proof.
  intros Hm Hr Hfire. unfold NRT_MemInfo_release.
  step (load_live _ _ _ Hm). rewrite Hr. cbn [Z.ltb Z.compare assert].
  unfold ret at 1, bind at 1.
  change (wrap64 (1 - 1)) with 0.
  step (store_live mi (set_refct 0) m w Hm).
  cbn [Z.eqb].
  set (m0 := set_refct 0 m) in *.
  set (w1 := set_meminfos (<[mi := m0]> (meminfos w)) w) in *.
  assert (Hm1 : meminfos w1 !! mi = Some m0) by apply lookup_insert_eq.
  unfold NRT_MemInfo_call_dtor.
  step (load_live _ _ _ Hm1). unfold get_msys, bind at 1.
  change (dtor m0) with (dtor m). change (data m0) with (data m).
  change (size m0) with (size m). change (dtor_info m0) with (dtor_info m).
  change (TheMSys w1) with (TheMSys w).
  unfold dtor_fires in Hfire. rewrite Hfire. reflexivity.
Qed.

(** What invoking [nrt_manage_memory_dtor] through a handle does. *)
Lemma call_dtor_managed (m : MemInfo) (w : World) :
  dtor m = &S_nrt_manage_memory_dtor ->
  call_dtor (dtor m) (data m) (size m) (dtor_info m) w =
    if dtor_info m =? NULL then Undefined
    else Ret tt (mkWorld (TheMSys w) (meminfos w) (allocators w)
                   (effect w (dtor_info m) (data m :: nil) (bytes w))
                   (oracle w) (effect w)
                   (trace w ++ dtor_call m ::
                      mkEvent (dtor_info m) (data m :: nil) :: nil)).
Proof.
  intros Hd.
  assert (Hnn : dtor m <> NULL) by (rewrite Hd; apply addr_of_nonnull).
  assert (Hsym : symbol_at (dtor m) = Some S_nrt_manage_memory_dtor)
    by (rewrite Hd; apply symbol_at_addr_of).
  unfold call_dtor, dtor_call.
  step (indirect_ok (dtor m) (data m :: size m :: dtor_info m :: nil) w Hnn).
  rewrite Hsym. unfold nrt_manage_memory_dtor.
  destruct (Z.eqb_spec (dtor_info m) NULL) as [Hi | Hi].
  - unfold call_extern, indirect, bind. rewrite Hi. reflexivity.
  - rewrite (call_extern_ok (dtor_info m) (data m :: nil) _ Hi).
    world_simpl. rewrite <- app_assoc. reflexivity.
Qed.

(** X7.  [nrt_manage_memory] wraps a foreign pointer in a handle of size 0
    and reference count 1 without looking at the pointer or at the
    destructor.  The last release of such a handle calls the caller's
    destructor with the data pointer as its only argument and then frees
    the handle's block; the runtime itself never passes the foreign pointer
    to [free].  A handle wrapped with a null destructor cannot be released
    while the runtime is up: the release calls through the null pointer.
    After [NRT_MemSys_shutdown] the same release is defined and calls only
    [free]. *)
Theorem managed_memory_lifecycle (d f p : Z) (w : World) :
  malloc (allocator (TheMSys w)) <> NULL ->
  free (allocator (TheMSys w)) <> NULL ->
  hd NULL (oracle w) = p ->
  p <> NULL ->
  shutting (TheMSys w) = 0 ->
  exists w1,
    nrt_manage_memory d f w = Ret p w1 /\
    meminfos w1 !! p = Some (mkMemInfo 1 &S_nrt_manage_memory_dtor f d 0 NULL) /\
    (f <> NULL ->
     exists w',
       NRT_MemInfo_release p w1 = Ret tt w' /\
       trace w' = trace w ++
         mkEvent (malloc (allocator (TheMSys w))) (sizeof_MemInfo :: nil) ::
         mkEvent &S_nrt_manage_memory_dtor (d :: 0 :: f :: nil) ::
         mkEvent f (d :: nil) ::
         mkEvent (free (allocator (TheMSys w))) (p :: nil) :: nil /\
       bytes w' = effect w f (d :: nil) (bytes w) /\
       meminfos w' = delete p (meminfos w)) /\
    (f = NULL -> NRT_MemInfo_release p w1 = Undefined) /\
    (exists w',
       (NRT_MemSys_shutdown ;; NRT_MemInfo_release p) w1 = Ret tt w' /\
       trace w' = trace w ++
         mkEvent (malloc (allocator (TheMSys w))) (sizeof_MemInfo :: nil) ::
         mkEvent (free (allocator (TheMSys w))) (p :: nil) :: nil).
Proof.
  intros Hm Hf Ho Hp Hs. unfold nrt_manage_memory.
  rewrite (NRT_MemInfo_new_ok d 0 &S_nrt_manage_memory_dtor f p w Hm Ho Hp).
  set (m := mkMemInfo 1 &S_nrt_manage_memory_dtor f d 0 NULL).
  set (w1 := initialised p m (allocated sizeof_MemInfo w)).
  assert (Hl : meminfos w1 !! p = Some m) by apply lookup_insert_eq.
  assert (Hfire : dtor_fires w1 m = true).
  { unfold dtor_fires. cbn. rewrite Hs. reflexivity. }
  exists w1. split; [reflexivity |]. split; [exact Hl |].
  split; [| split].
  - intros Hfn.
    rewrite (NRT_MemInfo_release_last_fires p m w1 Hl eq_refl Hfire).
    unfold bind at 1.
    rewrite (call_dtor_managed (set_refct 0 m)
               (set_meminfos (<[p := set_refct 0 m]> (meminfos w1)) w1) eq_refl).
    cbn [dtor_info set_refct m].
    destruct (Z.eqb_spec f NULL); [contradiction |].
    match goal with
    | |- exists w', NRT_MemInfo_destroy p ?W = _ /\ _ =>
        assert (Hl2 : meminfos W !! p = Some (set_refct 0 m)) by apply lookup_insert_eq;
        assert (Hc2 : can_dealloc W (set_refct 0 m)) by exact Hf;
        rewrite (NRT_MemInfo_destroy_spec p _ W Hl2 Hc2)
    end.
    eexists. split; [reflexivity |]. subst w1. world_proj.
    split; [unfold release_calls, dtor_call; cbn; rewrite <- !app_assoc; reflexivity |].
    split; [reflexivity |].
    rewrite !delete_insert_eq. reflexivity.
  - intros ->.
    rewrite (NRT_MemInfo_release_last_fires p m w1 Hl eq_refl Hfire).
    unfold bind at 1.
    rewrite (call_dtor_managed (set_refct 0 m)
               (set_meminfos (<[p := set_refct 0 m]> (meminfos w1)) w1) eq_refl).
    reflexivity.
  - unfold NRT_MemSys_shutdown at 1, modify_msys at 1, modify at 1, bind at 1.
    match goal with
    | |- exists w', NRT_MemInfo_release p ?W = _ /\ _ =>
        assert (Hl2 : meminfos W !! p = Some m) by exact Hl;
        rewrite (NRT_MemInfo_release_last_quiet p m W Hl2 eq_refl
                   ltac:(reflexivity) ltac:(exact Hf))
    end.
    eexists. split; [reflexivity |]. subst w1. world_proj.
    unfold release_calls. cbn. rewrite <- !app_assoc. reflexivity.
Qed.

Lemma managed_memory_lifecycle_witness :
  exists w1,
    nrt_manage_memory 5000 777 (started (1000 :: nil)) = Ret 1000 w1 /\
    (exists w', NRT_MemInfo_release 1000 w1 = Ret tt w') /\
    NRT_MemInfo_release 1000
      (after (nrt_manage_memory 5000 NULL) (started (1000 :: nil))) = Undefined.
Proof.
  destruct (managed_memory_lifecycle 5000 777 1000 (started (1000 :: nil)))
    as (w1 & E & _ & Hrel & _).
  - vm_compute. discriminate.
  - vm_compute. discriminate.
  - reflexivity.
  - discriminate.
  - reflexivity.
  - exists w1. split; [exact E |]. split.
    + destruct Hrel as (w' & E' & _); [discriminate |]. exists w'. exact E'.
    + vm_compute. reflexivity.
Defined.

(** ** External allocators *)

Lemma symbol_at_None_neq (a : Z) (s : symbol) : symbol_at a = None -> a <> &s.
Proof. intros H ->. rewrite symbol_at_addr_of in H. discriminate. Qed.

(** X8.  A handle allocated through an external allocator whose functions
    live outside the runtime goes back to that allocator: construction
    followed by the last release calls the allocator's [malloc] once and its
    [free] once, both with the allocator's [opaque_data], and never the
    bound [malloc] or [free]; all four global counters go up by one all the
    same. *)
Theorem external_allocator_round_trip
    (sz a p : Z) (ea : NRT_ExternalAllocator) (w : World) :
  a <> NULL ->
  allocators w !! a = Some ea ->
  ext_malloc ea <> NULL ->
  ext_free ea <> NULL ->
  symbol_at (ext_malloc ea) = None ->
  symbol_at (ext_free ea) = None ->
  hd NULL (oracle w) = p ->
  p <> NULL ->
  exists w',
    (do mi <- NRT_MemInfo_alloc_external sz a; NRT_MemInfo_release mi) w = Ret tt w' /\
    trace w' = trace w ++
      mkEvent (ext_malloc ea) (wrap64 (sizeof_MemInfo + sz) :: opaque_data ea :: nil) ::
      mkEvent (ext_free ea) (p :: opaque_data ea :: nil) :: nil /\
    meminfos w' = delete p (meminfos w) /\
    stats_alloc (TheMSys w') = wrap64 (stats_alloc (TheMSys w) + 1) /\
    stats_free (TheMSys w') = wrap64 (stats_free (TheMSys w) + 1) /\
    stats_mi_alloc (TheMSys w') = wrap64 (stats_mi_alloc (TheMSys w) + 1) /\
    stats_mi_free (TheMSys w') = wrap64 (stats_mi_free (TheMSys w) + 1).
Proof.
  intros Ha Hea Hfm Hff Hsm Hsf Ho Hp.
  pose proof (NRT_Allocate_External_env (wrap64 (sizeof_MemInfo + sz)) a ea w Ha Hea Hfm
                ltac:(rewrite Hsm; discriminate)) as E.
  rewrite Ho in E.
  step (NRT_MemInfo_alloc_external_ok sz a p w _ E Hp).
  set (m := mkMemInfo 1 NULL NULL (wrap64 (p + sizeof_MemInfo)) sz a).
  set (w1 := initialised p m (allocated_by ea (wrap64 (sizeof_MemInfo + sz)) w)).
  assert (Hl : meminfos w1 !! p = Some m) by apply lookup_insert_eq.
  assert (Hne : (ext_free ea =? &S_sample_external_free) = false).
  { apply Z.eqb_neq. apply symbol_at_None_neq. exact Hsf. }
  assert (Hc : can_dealloc w1 m).
  { unfold can_dealloc. cbn [external_allocator m].
    destruct (Z.eqb_spec a NULL); [contradiction |].
    exists ea. split; [exact Hea |]. split; [exact Hff |].
    intros Hs. apply Z.eqb_neq in Hne. contradiction. }
  rewrite (NRT_MemInfo_release_last_quiet p m w1 Hl eq_refl eq_refl Hc).
  eexists. split; [reflexivity |]. subst w1. world_proj.
  split.
  { unfold release_calls. cbn [external_allocator m]. world_proj.
    destruct (Z.eqb_spec a NULL); [contradiction |].
    rewrite Hea, Hne. rewrite <- app_assoc. reflexivity. }
  split; [apply delete_insert_eq |].
  repeat split.
Qed.

Lemma external_allocator_round_trip_witness :
  exists w',
    (do mi <- NRT_MemInfo_alloc_external 8 12500; NRT_MemInfo_release mi)
      (ex_foreign_allocator (1000 :: nil)) = Ret tt w' /\
    trace w' = mkEvent 9001 (56 :: 4242 :: nil) :: mkEvent 9003 (1000 :: 4242 :: nil) :: nil.
Proof.
  destruct (external_allocator_round_trip 8 12500 1000 foreign_allocator
              (ex_foreign_allocator (1000 :: nil)))
    as (w' & E & Ht & _).
  - discriminate.
  - vm_compute. reflexivity.
  - discriminate.
  - discriminate.
  - reflexivity.
  - reflexivity.
  - reflexivity.
  - discriminate.
  - exists w'. split; [exact E |]. rewrite Ht. vm_compute. reflexivity.
Defined.

(** ** Aligned payloads *)

(** X9.  For every positive alignment below 2^31, power of two or not, and
    a block that the allocator placed inside the address space, the aligned
    constructors put the payload inside the block they asked for: the data
    pointer is a multiple of [align], at most [align - 1] bytes behind the
    end of the handle, and the [size] payload bytes end at least [align]
    bytes before the end of the [sizeof(MemInfo) + size + 2 * align] bytes
    requested.  [NRT_MemInfo_alloc_safe_aligned_external] (and with a null
    allocator [NRT_MemInfo_alloc_aligned]) return the handle with that data
    pointer. *)
Theorem aligned_payload_inside_block (sz align a p : Z) (w w1 : World) :
  0 < align < 2 ^ 31 ->
  0 <= sz ->
  0 < p ->
  p + (sizeof_MemInfo + sz + 2 * align) <= 2 ^ 64 ->
  NRT_Allocate_External (sizeof_MemInfo + sz + 2 * align) a w = Ret p w1 ->
  exists d,
    nrt_allocate_meminfo_and_data_align sz align a w = Ret (d, p) w1 /\
    d mod align = 0 /\
    p + sizeof_MemInfo <= d < p + sizeof_MemInfo + align /\
    d + sz + align <= p + (sizeof_MemInfo + sz + 2 * align) /\
    (exists w',
       NRT_MemInfo_alloc_safe_aligned_external sz align a w = Ret p w' /\
       meminfos w' !! p = Some (mkMemInfo 1 &S_nrt_internal_dtor_safe sz d sz a) /\
       pattern_at (bytes w') d (MIN sz 256) 203) /\
    (a = NULL ->
     exists w',
       NRT_MemInfo_alloc_aligned sz align w = Ret p w' /\
       meminfos w' !! p = Some (mkMemInfo 1 NULL NULL d sz NULL)).
Proof.
  intros Hal Hsz Hp Hfit E. unfold sizeof_MemInfo in *.
  assert (Hreq : wrap64 (48 + wrap64 (sz + wrap32 (2 * align))) = 48 + sz + 2 * align).
  { unfold wrap32, wrap64.
    rewrite (Z.mod_small (2 * align)) by lia.
    rewrite (Z.mod_small (sz + 2 * align)) by lia.
    rewrite Z.mod_small by lia. lia. }
  assert (E' : NRT_Allocate_External
                 (wrap64 (sizeof_MemInfo + wrap64 (sz + wrap32 (2 * align)))) a w = Ret p w1).
  { unfold sizeof_MemInfo. rewrite Hreq. exact E. }
  assert (Hbase : wrap64 (p + sizeof_MemInfo) = p + 48).
  { unfold sizeof_MemInfo. apply wrap64_small. lia. }
  destruct (align_offset_spec (p + 48) align ltac:(lia)) as (Hoff & Hmod & _).
  set (d := p + 48 + align_offset (p + 48) align).
  assert (Hd : wrap64 (wrap64 (p + sizeof_MemInfo) +
                       align_offset (wrap64 (p + sizeof_MemInfo)) align) = d).
  { rewrite Hbase. apply wrap64_small. subst d. lia. }
  assert (Hpn : p <> NULL) by (unfold NULL; lia).
  exists d.
  split.
  { rewrite (nrt_allocate_meminfo_and_data_align_ok sz align a p w w1 E' ltac:(lia)).
    rewrite Hd. reflexivity. }
  split; [exact Hmod |].
  split; [subst d; lia |].
  split; [subst d; lia |].
  split.
  - rewrite (NRT_MemInfo_alloc_safe_aligned_external_ok sz align a p w w1 E'
               ltac:(lia) Hpn).
    rewrite Hd. eexists. split; [reflexivity |].
    split; [apply lookup_insert_eq | apply fill_lookup].
  - intros ->. unfold NRT_MemInfo_alloc_aligned.
    step (nrt_allocate_meminfo_and_data_align_ok sz align NULL p w w1 E' ltac:(lia)).
    cbv beta iota. rewrite Hd.
    step (NRT_MemInfo_init_ok p d sz NULL NULL NULL w1 Hpn).
    eexists. split; [reflexivity |]. apply lookup_insert_eq.
Qed.

Lemma aligned_payload_inside_block_witness :
  exists d w',
    NRT_MemInfo_alloc_safe_aligned_external 16 24 NULL (started (1000 :: nil)) =
      Ret 1000 w' /\
    meminfos w' !! 1000 = Some (mkMemInfo 1 &S_nrt_internal_dtor_safe 16 d 16 NULL) /\
    d mod 24 = 0 /\ 1048 <= d < 1072.
Proof.
  destruct (aligned_payload_inside_block 16 24 NULL 1000 (started (1000 :: nil))
              (allocated 112 (started (1000 :: nil))))
    as (d & _ & Hmod & Hrange & _ & (w' & E & Hh & _) & _).
  - lia.
  - lia.
  - lia.
  - vm_compute. discriminate.
  - vm_compute. reflexivity.
  - exists d, w'. split; [exact E |]. split; [exact Hh |].
    split; [exact Hmod | exact Hrange].
Defined.

(** ** Constructors on a failed allocation *)

Lemma nrt_allocate_meminfo_and_data_null (sz a : Z) (w w1 : World) :
  NRT_Allocate_External (wrap64 (sizeof_MemInfo + sz)) a w = Ret NULL w1 ->
  nrt_allocate_meminfo_and_data sz a w = Ret (sizeof_MemInfo, NULL) w1.
Proof. intros E. unfold nrt_allocate_meminfo_and_data. step E. reflexivity. Qed.

Lemma nrt_allocate_meminfo_and_data_align_null (sz al a : Z) (w w1 : World) :
  NRT_Allocate_External
    (wrap64 (sizeof_MemInfo + wrap64 (sz + wrap32 (2 * al)))) a w = Ret NULL w1 ->
  nrt_allocate_meminfo_and_data_align sz al a w = Undefined \/
  exists d, nrt_allocate_meminfo_and_data_align sz al a w = Ret (d, NULL) w1.
Proof.
  intros E. unfold nrt_allocate_meminfo_and_data_align.
  step (nrt_allocate_meminfo_and_data_null _ a w w1 E). cbv beta iota zeta.
  destruct (al =? 0); [left; reflexivity | right; eauto].
Qed.

(** X10.  None of the constructors that place the handle in a freshly
    allocated block tests the block: when the underlying allocation returns
    null, [NRT_MemInfo_alloc], [NRT_MemInfo_alloc_external],
    [NRT_MemInfo_alloc_safe], [NRT_MemInfo_alloc_dtor_safe], the three
    aligned variants, [NRT_MemInfo_new] and [nrt_manage_memory] go on to
    initialise the handle through the null pointer, and so does
    [NRT_MemInfo_new_varsize] when its payload was allocated but the handle
    was not: the behaviour is undefined, no null handle is returned. *)
Theorem constructors_undefined_on_null_block (sz al a d f i : Z) (w : World) :
  malloc (allocator (TheMSys w)) <> NULL ->
  (a = NULL \/ exists ea, allocators w !! a = Some ea /\ ext_malloc ea <> NULL) ->
  allocation_fails w ->
  NRT_MemInfo_alloc sz w = Undefined /\
  NRT_MemInfo_alloc_external sz a w = Undefined /\
  NRT_MemInfo_alloc_safe sz w = Undefined /\
  NRT_MemInfo_alloc_dtor_safe sz f w = Undefined /\
  NRT_MemInfo_alloc_aligned sz al w = Undefined /\
  NRT_MemInfo_alloc_safe_aligned sz al w = Undefined /\
  NRT_MemInfo_alloc_safe_aligned_external sz al a w = Undefined /\
  NRT_MemInfo_new d sz f i w = Undefined /\
  nrt_manage_memory d f w = Undefined /\
  (forall w0 p, malloc (allocator (TheMSys w0)) <> NULL ->
     hd NULL (oracle w0) = p -> p <> NULL -> hd NULL (tl (oracle w0)) = NULL ->
     NRT_MemInfo_new_varsize sz w0 = Undefined).
Proof.
  intros Hm Ha Ho.
  assert (Hg : forall n, exists w1, NRT_Allocate_External n NULL w = Ret NULL w1).
  { intros n. rewrite (NRT_Allocate_External_global n w Hm), Ho. eauto. }
  assert (He : forall n, exists w1, NRT_Allocate_External n a w = Ret NULL w1).
  { intros n. destruct (NRT_Allocate_External_fails n a w Hm Ha Ho) as (w1 & E & _).
    eauto. }
  assert (Hsingle : forall a' before s' f' i' e',
            (forall n, exists w1, NRT_Allocate_External n a' w = Ret NULL w1) ->
            (forall x, exists g, before x = modify g) ->
            (do r <- nrt_allocate_meminfo_and_data sz a';
             let '(data_p, mi) := r in
             before data_p ;; NRT_MemInfo_init mi data_p s' f' i' e' ;; ret mi) w
            = Undefined).
  { intros a' before s' f' i' e' Hn Hb.
    destruct (Hn (wrap64 (sizeof_MemInfo + sz))) as (w1 & E).
    step (nrt_allocate_meminfo_and_data_null sz a' w w1 E). cbv beta iota.
    destruct (Hb sizeof_MemInfo) as (g & ->). reflexivity. }
  assert (Haligned : forall a' before s' f' i' e',
            (forall n, exists w1, NRT_Allocate_External n a' w = Ret NULL w1) ->
            (forall x, exists g, before x = modify g) ->
            (do r <- nrt_allocate_meminfo_and_data_align sz al a';
             let '(data_p, mi) := r in
             before data_p ;; NRT_MemInfo_init mi data_p s' f' i' e' ;; ret mi) w
            = Undefined).
  { intros a' before s' f' i' e' Hn Hb.
    destruct (Hn (wrap64 (sizeof_MemInfo + wrap64 (sz + wrap32 (2 * al))))) as (w1 & E).
    destruct (nrt_allocate_meminfo_and_data_align_null sz al a' w w1 E) as [E' | (x & E')].
    - unfold bind. rewrite E'. reflexivity.
    - step E'. cbv beta iota. destruct (Hb x) as (g & ->). reflexivity. }
  assert (Hid : forall x : Z, exists g, ret tt = modify g).
  { intros _. exists (fun w => w). reflexivity. }
  assert (Hms : forall n (x : Z), exists g, memset x 203 n = modify g).
  { intros n x. eexists. reflexivity. }
  split; [exact (Hsingle NULL (fun _ => ret tt) sz NULL NULL NULL Hg Hid) |].
  split; [exact (Hsingle a (fun _ => ret tt) sz NULL NULL a He Hid) |].
  split; [exact (Hsingle NULL (fun x => memset x 203 (MIN sz 256)) sz _ NULL NULL Hg (Hms _)) |].
  split; [exact (Hsingle NULL (fun x => memset x 203 (MIN sz 256)) sz _ f NULL Hg (Hms _)) |].
  split; [exact (Haligned NULL (fun _ => ret tt) sz NULL NULL NULL Hg Hid) |].
  split; [exact (Haligned NULL (fun x => memset x 203 (MIN sz 256)) sz _ sz NULL Hg (Hms _)) |].
  split; [exact (Haligned a (fun x => memset x 203 (MIN sz 256)) sz _ sz a He (Hms _)) |].
  assert (Hnew : forall d' s' f' i', NRT_MemInfo_new d' s' f' i' w = Undefined).
  { intros. unfold NRT_MemInfo_new, NRT_Allocate.
    destruct (Hg sizeof_MemInfo) as (w1 & E). step E. reflexivity. }
  split; [apply Hnew |].
  split; [apply Hnew |].
  intros w0 p Hm0 H1 Hp H2. unfold NRT_MemInfo_new_varsize.
  pose proof (NRT_Allocate_ok sz w0 Hm0) as E. rewrite H1 in E. step E.
  destruct (Z.eqb_spec p NULL); [contradiction |].
  unfold NRT_MemInfo_new.
  pose proof (NRT_Allocate_ok sizeof_MemInfo (allocated sz w0) Hm0) as E2.
  change (hd NULL (oracle (allocated sz w0))) with (hd NULL (tl (oracle w0))) in E2.
  rewrite H2 in E2. unfold bind at 1. unfold bind at 1. rewrite E2. reflexivity.
Qed.

Lemma constructors_undefined_on_null_block_witness :
  NRT_MemInfo_alloc 8 (started nil) = Undefined /\
  NRT_MemInfo_alloc_aligned 8 16 (started nil) = Undefined /\
  nrt_manage_memory 5000 777 (started nil) = Undefined.
Proof.
  destruct (constructors_undefined_on_null_block 8 16 NULL 5000 777 NULL (started nil))
    as (H1 & _ & _ & _ & H5 & _ & _ & _ & H9 & _).
  - vm_compute. discriminate.
  - left. reflexivity.
  - reflexivity.
  - split; [exact H1 |]. split; [exact H5 | exact H9].
Defined.

(** ** Re-initialisation *)

(** X11.  [NRT_MemSys_init] zeroes the four counters, rebinds the libc
    allocator and clears the shutdown flag without regard to the handles
    that are live.  So a rebinding right after it always goes through,
    whatever was allocated before; and a handle that was allocated before
    the initialisation and released after it leaves [stats_free] and
    [stats_mi_free] at 1 against [stats_alloc] and [stats_mi_alloc] at 0, so
    that rebinding to other functions is then fatal although no handle is
    live. *)
Theorem init_resets_counters (sz p fm fr ff : Z) (w : World) :
  (exists w',
     (NRT_MemSys_init ;; NRT_MemSys_set_allocator fm fr ff) w = Ret tt w' /\
     TheMSys w' = mkMemSys 0 0 0 0 0 (mkAllocator fm fr ff) /\
     meminfos w' = meminfos w /\ trace w' = trace w) /\
  (malloc (allocator (TheMSys w)) <> NULL ->
   hd NULL (oracle w) = p ->
   p <> NULL ->
   (fm <> &S_malloc \/ fr <> &S_realloc \/ ff <> &S_free) ->
   exists w',
     (do mi <- NRT_MemInfo_alloc sz;
      NRT_MemSys_init ;;
      NRT_MemInfo_release mi ;;
      NRT_MemSys_set_allocator fm fr ff) w =
       Abort "cannot change allocator while blocks are allocated" w' /\
     meminfos w' = delete p (meminfos w) /\
     TheMSys w' = mkMemSys 0 0 1 0 1 (mkAllocator &S_malloc &S_realloc &S_free)).
Proof.
  split.
  - unfold NRT_MemSys_init at 1, modify_msys at 1, modify at 1, bind at 1.
    match goal with
    | |- exists w', NRT_MemSys_set_allocator fm fr ff ?W = _ /\ _ =>
        destruct (set_allocator_cases fm fr ff W) as [(_ & Hu & _) | (_ & E)]
    end.
    + exfalso. destruct Hu as [Hu | Hu]; apply Hu; reflexivity.
    + rewrite E. eexists. split; [reflexivity |]. repeat split.
  - intros Hm Ho Hp Hdiff.
    step (NRT_MemInfo_alloc_ok sz p w Hm Ho Hp).
    set (m := mkMemInfo 1 NULL NULL (wrap64 (p + sizeof_MemInfo)) sz NULL).
    set (w1 := initialised p m (allocated (wrap64 (sizeof_MemInfo + sz)) w)).
    assert (Hl : meminfos w1 !! p = Some m) by apply lookup_insert_eq.
    unfold NRT_MemSys_init at 1, modify_msys at 1, modify at 1, bind at 1.
    match goal with
    | |- exists w', bind (NRT_MemInfo_release p) _ ?W = _ /\ _ =>
        assert (Hl2 : meminfos W !! p = Some m) by exact Hl;
        rewrite (bind_Ret _ _ _ _ _
                   (NRT_MemInfo_release_last_quiet p m W Hl2 eq_refl eq_refl
                      ltac:(discriminate)))
    end.
    match goal with
    | |- exists w', NRT_MemSys_set_allocator fm fr ff ?W = _ /\ _ =>
        destruct (set_allocator_cases fm fr ff W) as [(_ & _ & E) | (Hn & _)]
    end.
    + rewrite E. eexists. split; [reflexivity |]. subst w1. world_proj.
      split; [apply delete_insert_eq | reflexivity].
    + exfalso. apply Hn. split; [exact Hdiff |]. left. discriminate.
Qed.

Lemma init_resets_counters_witness :
  exists w',
    (do mi <- NRT_MemInfo_alloc 8;
     NRT_MemSys_init ;;
     NRT_MemInfo_release mi ;;
     NRT_MemSys_set_allocator 7001 7002 7003) (started (1000 :: nil)) =
      Abort "cannot change allocator while blocks are allocated" w' /\
    meminfos w' = delete 1000 (meminfos (started (1000 :: nil))).
Proof.
  destruct (proj2 (init_resets_counters 8 1000 7001 7002 7003 (started (1000 :: nil))))
    as (w' & E & Hh & _).
  - vm_compute. discriminate.
  - reflexivity.
  - discriminate.
  - left. discriminate.
  - exists w'. split; [exact E | exact Hh].
Defined.

(** ** What the accessors read back *)

(** X12.  What the accessors read back from a handle built by
    [NRT_MemInfo_new]: [NRT_MemInfo_data], [NRT_MemInfo_size] and
    [NRT_MemInfo_parent] return the data pointer, the size and the
    destructor context that were passed in, [NRT_MemInfo_external_allocator]
    returns null, and [NRT_MemInfo_refcount] returns 1, unless the data
    pointer passed in was null, in which case it reports [(size_t)-1] for
    the live handle.  [NRT_MemInfo_refcount] of a null handle is
    [(size_t)-1] too, without any dereference. *)
Theorem accessors_read_back (d s f i p : Z) (w : World) :
  malloc (allocator (TheMSys w)) <> NULL ->
  hd NULL (oracle w) = p ->
  p <> NULL ->
  value_of ((do mi <- NRT_MemInfo_new d s f i;
             do x1 <- NRT_MemInfo_data mi;
             do x2 <- NRT_MemInfo_size mi;
             do x3 <- NRT_MemInfo_parent mi;
             do x4 <- NRT_MemInfo_external_allocator mi;
             do x5 <- NRT_MemInfo_refcount mi;
             ret (mi, x1, x2, x3, x4, x5)) w) =
    Some (p, d, s, i, NULL, if d =? NULL then SIZE_MAX else 1) /\
  NRT_MemInfo_refcount NULL w = Ret SIZE_MAX w.
Proof.
  intros Hm Ho Hp. split; [| reflexivity].
  step (NRT_MemInfo_new_ok d s f i p w Hm Ho Hp).
  set (w1 := initialised _ _ _).
  assert (Hl : meminfos w1 !! p = Some (mkMemInfo 1 f i d s NULL))
    by apply lookup_insert_eq.
  step (NRT_MemInfo_data_ok _ _ _ Hl). step (NRT_MemInfo_size_ok _ _ _ Hl).
  step (NRT_MemInfo_parent_ok _ _ _ Hl).
  step (NRT_MemInfo_external_allocator_ok _ _ _ Hl).
  unfold NRT_MemInfo_refcount.
  destruct (Z.eqb_spec p NULL); [contradiction |].
  unfold bind at 1. step (load_live _ _ _ Hl).
  cbn [data refct]. destruct (d =? NULL); reflexivity.
Qed.

Lemma accessors_read_back_witness :
  value_of ((do mi <- NRT_MemInfo_new 5000 8 777 42;
             do x1 <- NRT_MemInfo_data mi;
             do x2 <- NRT_MemInfo_size mi;
             do x3 <- NRT_MemInfo_parent mi;
             do x4 <- NRT_MemInfo_external_allocator mi;
             do x5 <- NRT_MemInfo_refcount mi;
             ret (mi, x1, x2, x3, x4, x5)) (started (1000 :: nil))) =
    Some (1000, 5000, 8, 42, NULL, 1).
Proof.
  apply (accessors_read_back 5000 8 777 42 1000 (started (1000 :: nil))).
  - vm_compute. discriminate.
  - reflexivity.
  - discriminate.
Defined.

(** ** The handle bookkeeping of every operation *)

Lemma quiet_bind {A B} (m : M A) (k : A -> M B) :
  quiet m -> (forall a, quiet (k a)) -> quiet (bind m k).
Proof.
  intros Hm Hk w b w' E. apply bind_inv in E as (a & w1 & E1 & E2).
  rewrite (Hk a _ _ _ E2). exact (Hm _ _ _ E1).
Qed.

Lemma quiet_ret {A} (a : A) : quiet (ret a).
Proof. intros w b w' E. inversion E. reflexivity. Qed.

Lemma quiet_undefined {A} : quiet (@undefined A).
Proof. intros w b w' E. discriminate. Qed.

Lemma quiet_fatal {A} (msg : string) : quiet (@nrt_fatal_error A msg).
Proof. intros w b w' E. discriminate. Qed.

Lemma quiet_modify (f : World -> World) :
  (forall w, handle_view (f w) = handle_view w) -> quiet (modify f).
Proof. intros H w b w' E. inversion E. apply H. Qed.

Lemma quiet_get_msys : quiet get_msys.
Proof. intros w b w' E. inversion E. reflexivity. Qed.

Lemma quiet_incr_stats_alloc : quiet (modify_msys incr_stats_alloc).
Proof. apply quiet_modify. reflexivity. Qed.

Lemma quiet_incr_stats_free : quiet (modify_msys incr_stats_free).
Proof. apply quiet_modify. reflexivity. Qed.

Lemma quiet_load (mi : Z) : quiet (load mi).
Proof.
  intros w b w' E. unfold load in E.
  destruct (meminfos w !! mi); inversion E. reflexivity.
Qed.

Lemma quiet_load_allocator (a : Z) : quiet (load_allocator a).
Proof.
  intros w b w' E. unfold load_allocator in E.
  destruct (allocators w !! a); inversion E. reflexivity.
Qed.

Lemma quiet_indirect (f : Z) (a : list Z) : quiet (indirect f a).
Proof.
  unfold indirect. destruct (f =? NULL);
    [apply quiet_undefined | apply quiet_modify; reflexivity].
Qed.

Lemma quiet_env_alloc : quiet env_alloc.
Proof. intros w b w' E. inversion E. reflexivity. Qed.

Lemma quiet_env_effect (f : Z) (a : list Z) : quiet (env_effect f a).
Proof. apply quiet_modify. reflexivity. Qed.

Lemma quiet_memset (ptr c n : Z) : quiet (memset ptr c n).
Proof. apply quiet_modify. reflexivity. Qed.

Create HintDb quiet.

#[local] Hint Resolve quiet_ret quiet_undefined quiet_fatal quiet_get_msys
  quiet_incr_stats_alloc quiet_incr_stats_free quiet_load quiet_load_allocator
  quiet_indirect quiet_env_alloc quiet_env_effect quiet_memset : quiet.

Ltac quiet_step :=
  match goal with
  | |- quiet (bind _ _) => apply quiet_bind; [| intros]
  | |- quiet (if ?c then _ else _) => destruct c
  | |- quiet (match ?x with _ => _ end) => destruct x
  | |- quiet _ => solve [auto with quiet]
  end.

Lemma quiet_call_extern (f : Z) (a : list Z) : quiet (call_extern f a).
Proof. unfold call_extern. repeat quiet_step. Qed.

Lemma quiet_NRT_Allocate_External (sz a : Z) : quiet (NRT_Allocate_External sz a).
Proof.
  unfold NRT_Allocate_External, call_ext_malloc, sample_external_malloc, call_alloc.
  repeat quiet_step.
Qed.

Lemma quiet_NRT_Allocate (sz : Z) : quiet (NRT_Allocate sz).
Proof. apply quiet_NRT_Allocate_External. Qed.

Lemma quiet_NRT_Reallocate (ptr sz : Z) : quiet (NRT_Reallocate ptr sz).
Proof. unfold NRT_Reallocate, call_alloc. repeat quiet_step. Qed.

#[local] Hint Resolve quiet_call_extern quiet_NRT_Allocate_External quiet_NRT_Allocate
  quiet_NRT_Reallocate : quiet.

Lemma quiet_nrt_allocate_meminfo_and_data (sz a : Z) :
  quiet (nrt_allocate_meminfo_and_data sz a).
Proof. unfold nrt_allocate_meminfo_and_data. repeat quiet_step. Qed.

Lemma quiet_nrt_allocate_meminfo_and_data_align (sz al a : Z) :
  quiet (nrt_allocate_meminfo_and_data_align sz al a).
Proof.
  unfold nrt_allocate_meminfo_and_data_align.
  apply quiet_bind; [apply quiet_nrt_allocate_meminfo_and_data |].
  intros [base mi]. cbv zeta. repeat quiet_step.
Qed.

Lemma handle_view_eq (w w' : World) :
  handle_view w' = handle_view w ->
  meminfos w' = meminfos w /\
  stats_mi_alloc (TheMSys w') = stats_mi_alloc (TheMSys w) /\
  stats_mi_free (TheMSys w') = stats_mi_free (TheMSys w).
Proof. unfold handle_view. intros E. inversion E. repeat split; assumption. Qed.

Lemma NRT_MemInfo_init_created (mi d s f i e : Z) (w0 w w' : World) :
  handle_view w = handle_view w0 ->
  NRT_MemInfo_init mi d s f i e w = Ret tt w' ->
  created mi w0 w'.
Proof.
  intros Hv E. apply handle_view_eq in Hv as (Hh & Ha & Hf).
  unfold NRT_MemInfo_init in E.
  destruct (Z.eqb_spec mi NULL); [discriminate |]. inversion E.
  split; [assumption |]. exists (mkMemInfo 1 f i d s e).
  cbn. rewrite Hh, Ha, Hf. repeat split.
Qed.

(** The constructors that place the handle in the block they allocate. *)
Lemma block_constructor_created (alloc : M (Z * Z)) (before : Z -> M unit)
    (s f i e r : Z) (w w' : World) :
  quiet alloc ->
  (forall d, quiet (before d)) ->
  (do p <- alloc;
   let '(data_p, mi) := p in
   before data_p ;; NRT_MemInfo_init mi data_p s f i e ;; ret mi) w = Ret r w' ->
  created r w w'.
Proof.
  intros Halloc Hbefore E. invert_run.
  match goal with
  | Ha : alloc w = Ret _ ?w1, Hb : before _ ?w1 = Ret _ ?w2,
    Hi : NRT_MemInfo_init _ _ _ _ _ _ ?w2 = Ret _ _ |- _ =>
      apply Halloc in Ha; apply (Hbefore _) in Hb;
      exact (NRT_MemInfo_init_created _ _ _ _ _ _ w w2 _ (eq_trans Hb Ha) Hi)
  end.
Qed.

Lemma NRT_MemInfo_new_created (d s f i r : Z) (w0 w w' : World) :
  handle_view w = handle_view w0 ->
  NRT_MemInfo_new d s f i w = Ret r w' ->
  created r w0 w'.
Proof.
  intros Hv E. unfold NRT_MemInfo_new in E. invert_run.
  match goal with
  | Ha : NRT_Allocate _ w = Ret _ ?w1,
    Hi : NRT_MemInfo_init _ _ _ _ _ _ ?w1 = Ret _ _ |- _ =>
      apply quiet_NRT_Allocate in Ha;
      exact (NRT_MemInfo_init_created _ _ _ _ _ _ w0 w1 _ (eq_trans Ha Hv) Hi)
  end.
Qed.

Lemma NRT_MemInfo_new_varsize_footprint (sz r : Z) (w w' : World) :
  NRT_MemInfo_new_varsize sz w = Ret r w' ->
  (r = NULL /\ handle_view w' = handle_view w) \/ created r w w'.
Proof.
  intros E. unfold NRT_MemInfo_new_varsize in E.
  apply bind_inv in E as (p & w1 & Ea & E).
  apply quiet_NRT_Allocate in Ea.
  destruct (Z.eqb_spec p NULL) as [-> | Hp].
  - inversion E. subst. left. split; [reflexivity | exact Ea].
  - invert_run. right.
    match goal with
    | Hn : NRT_MemInfo_new _ _ _ _ _ = Ret _ _ |- _ =>
        exact (NRT_MemInfo_new_created _ _ _ _ _ w w1 _ Ea Hn)
    end.
Qed.

Lemma store_updated (mi : Z) (f : MemInfo -> MemInfo) (w w' : World) :
  store mi f w = Ret tt w' ->
  exists m, updated mi m (f m) w w'.
Proof.
  intros E. unfold store, bind, load in E.
  destruct (meminfos w !! mi) as [m |] eqn:Hm; [| discriminate].
  inversion E. exists m. repeat split; assumption.
Qed.

Lemma NRT_MemInfo_new_varsize_dtor_footprint (sz d r : Z) (w w' : World) :
  NRT_MemInfo_new_varsize_dtor sz d w = Ret r w' ->
  (r = NULL /\ handle_view w' = handle_view w) \/ created r w w'.
Proof.
  intros E. unfold NRT_MemInfo_new_varsize_dtor in E.
  apply bind_inv in E as (mi & w1 & En & E).
  apply NRT_MemInfo_new_varsize_footprint in En.
  apply bind_inv in E as ([] & w2 & Es & E). inversion E. subst.
  destruct En as [[-> Hv] | (Hr & m & Hm1 & Hh & Ha & Hf)].
  - inversion Es. subst. left. split; [reflexivity | exact Hv].
  - destruct (Z.eqb_spec r NULL); [contradiction |]. cbn [negb] in Es.
    apply store_updated in Es as (m0 & Hl & Hh' & Ha' & Hf').
    right. split; [exact Hr |].
    rewrite Hh, lookup_insert_eq in Hl. inversion Hl. subst m0.
    exists (set_dtor_info d m). split; [exact Hm1 |].
    rewrite Hh', Hh, insert_insert_eq, Ha', Hf', Ha, Hf. repeat split.
Qed.

Lemma plain_constructor_created (alloc : M (Z * Z)) (s f i e r : Z) (w w' : World) :
  quiet alloc ->
  (do p <- alloc;
   let '(data_p, mi) := p in
   NRT_MemInfo_init mi data_p s f i e ;; ret mi) w = Ret r w' ->
  created r w w'.
Proof.
  intros Halloc E. invert_run.
  match goal with
  | Ha : alloc w = Ret _ ?w1, Hi : NRT_MemInfo_init _ _ _ _ _ _ ?w1 = Ret _ _ |- _ =>
      apply Halloc in Ha;
      exact (NRT_MemInfo_init_created _ _ _ _ _ _ w w1 _ Ha Hi)
  end.
Qed.

Lemma exec_constructor_created (op : public_op) (r : Z) (w w' : World) :
  match op with
  | Op_alloc _ | Op_alloc_external _ _ | Op_alloc_safe _ | Op_alloc_dtor_safe _ _
  | Op_alloc_aligned _ _ | Op_alloc_safe_aligned _ _
  | Op_alloc_safe_aligned_external _ _ _
  | Op_new _ _ _ _ | Op_manage_memory _ _ => True
  | _ => False
  end ->
  exec op w = Ret r w' -> created r w w'.
Proof.
  destruct op; intros Hop E; try contradiction; cbn [exec] in E.
  - exact (plain_constructor_created _ _ _ _ _ _ _ _
             (quiet_nrt_allocate_meminfo_and_data sz NULL) E).
  - exact (plain_constructor_created _ _ _ _ _ _ _ _
             (quiet_nrt_allocate_meminfo_and_data sz a) E).
  - exact (block_constructor_created _ (fun d => memset d 203 (MIN sz 256)) _ _ _ _ _ _ _
             (quiet_nrt_allocate_meminfo_and_data sz NULL)
             (fun d => quiet_memset d 203 (MIN sz 256)) E).
  - exact (block_constructor_created _ (fun d => memset d 203 (MIN sz 256)) _ _ _ _ _ _ _
             (quiet_nrt_allocate_meminfo_and_data sz NULL)
             (fun d => quiet_memset d 203 (MIN sz 256)) E).
  - exact (plain_constructor_created _ _ _ _ _ _ _ _
             (quiet_nrt_allocate_meminfo_and_data_align sz align NULL) E).
  - exact (block_constructor_created _ (fun d => memset d 203 (MIN sz 256)) _ _ _ _ _ _ _
             (quiet_nrt_allocate_meminfo_and_data_align sz align NULL)
             (fun d => quiet_memset d 203 (MIN sz 256)) E).
  - exact (block_constructor_created _ (fun d => memset d 203 (MIN sz 256)) _ _ _ _ _ _ _
             (quiet_nrt_allocate_meminfo_and_data_align sz align a)
             (fun d => quiet_memset d 203 (MIN sz 256)) E).
  - exact (NRT_MemInfo_new_created _ _ _ _ _ w w w' eq_refl E).
  - exact (NRT_MemInfo_new_created _ _ _ _ _ w w w' eq_refl E).
Qed.

(** *** Freeing and destroying *)

Lemma NRT_Free_inv (ptr : Z) (w w' : World) :
  NRT_Free ptr w = Ret tt w' ->
  handle_view w' = (delete ptr (meminfos w), stats_mi_alloc (TheMSys w),
                    stats_mi_free (TheMSys w)).
Proof.
  intros E. unfold NRT_Free, call_free, env_free in E. invert_run.
  repeat match goal with
  | H : get_msys _ = Ret _ _ |- _ => inversion H; clear H; subst
  | H : indirect _ _ _ = Ret _ _ |- _ => apply quiet_indirect in H
  | H : modify _ _ = Ret _ _ |- _ => inversion H; clear H; subst
  | H : modify_msys _ _ = Ret _ _ |- _ => inversion H; clear H; subst
  end.
  match goal with
  | H : handle_view _ = handle_view _ |- _ =>
      apply handle_view_eq in H as (Hh & Ha & Hf)
  end.
  unfold handle_view. cbn. rewrite Hh, Ha, Hf. reflexivity.
Qed.

Lemma call_ext_free_inv (f ptr o : Z) (w w' : World) :
  call_ext_free f ptr o w = Ret tt w' ->
  handle_view w' = (delete ptr (meminfos w), stats_mi_alloc (TheMSys w),
                    stats_mi_free (TheMSys w)).
Proof.
  intros E. unfold call_ext_free in E.
  apply bind_inv in E as ([] & w1 & Ei & E). apply quiet_indirect in Ei.
  apply handle_view_eq in Ei as (Hh & Ha & Hf).
  assert (Hfree : forall w2, env_free ptr w1 = Ret tt w2 ->
            handle_view w2 = (delete ptr (meminfos w), stats_mi_alloc (TheMSys w),
                              stats_mi_free (TheMSys w))).
  { intros w2 E2. inversion E2. unfold handle_view. cbn. rewrite Hh, Ha, Hf. reflexivity. }
  destruct (symbol_at f) as [[] |]; try (apply Hfree; exact E).
  unfold sample_external_free, call_free in E. invert_run.
  repeat match goal with
  | H : get_msys _ = Ret _ _ |- _ => inversion H; clear H; subst
  | H : indirect _ _ _ = Ret _ _ |- _ => apply quiet_indirect in H
  end.
  match goal with
  | H : handle_view ?w2 = handle_view _, H2 : env_free _ ?w2 = Ret _ _ |- _ =>
      apply handle_view_eq in H as (Hh' & Ha' & Hf'); inversion H2
  end.
  unfold handle_view. cbn. rewrite Hh', Ha', Hf', Hh, Ha, Hf. reflexivity.
Qed.

Lemma NRT_dealloc_inv (mi : Z) (w w' : World) :
  NRT_dealloc mi w = Ret tt w' ->
  handle_view w' = (delete mi (meminfos w), stats_mi_alloc (TheMSys w),
                    stats_mi_free (TheMSys w)).
Proof.
  intros E. unfold NRT_dealloc in E.
  apply bind_inv in E as (m & w1 & El & E). apply load_inv in El as [-> Hm].
  destruct (negb (external_allocator m =? NULL)).
  - apply bind_inv in E as (ea & w1 & El & E).
    apply quiet_load_allocator in El. apply handle_view_eq in El as (Hh & Ha & Hf).
    apply bind_inv in E as ([] & w2 & Ef & E). apply call_ext_free_inv in Ef.
    rewrite (quiet_incr_stats_free _ _ _ E), Ef, Hh, Ha, Hf. reflexivity.
  - exact (NRT_Free_inv _ _ _ E).
Qed.

Lemma NRT_MemInfo_destroy_inv (mi : Z) (w w' : World) :
  NRT_MemInfo_destroy mi w = Ret tt w' ->
  handle_view w' = (delete mi (meminfos w), stats_mi_alloc (TheMSys w),
                    wrap64 (stats_mi_free (TheMSys w) + 1)).
Proof.
  intros E. unfold NRT_MemInfo_destroy in E.
  apply bind_inv in E as ([] & w1 & Ed & E). apply NRT_dealloc_inv in Ed.
  inversion E. inversion Ed. unfold handle_view. cbn. congruence.
Qed.

Lemma call_dtor_inv (f p s i : Z) (w w' : World) :
  call_dtor f p s i w = Ret tt w' ->
  handle_view w' = handle_view w \/
  f = &S_nrt_varsize_dtor /\
  handle_view w' = (delete p (meminfos w), stats_mi_alloc (TheMSys w),
                    stats_mi_free (TheMSys w)).
Proof.
  intros E. unfold call_dtor in E.
  apply bind_inv in E as ([] & w1 & Ei & E). apply quiet_indirect in Ei.
  destruct (symbol_at f) as [sy |] eqn:Hs.
  2: { left. apply quiet_env_effect in E. congruence. }
  destruct sy;
    try (left; apply quiet_env_effect in E; congruence).
  - left. apply quiet_memset in E. congruence.
  - left. unfold nrt_internal_custom_dtor_safe, nrt_internal_dtor_safe in E.
    apply bind_inv in E as ([] & w2 & Ec & E). apply quiet_memset in E.
    assert (handle_view w2 = handle_view w1) by
      (destruct (negb (i =? NULL));
       [exact (quiet_call_extern _ _ _ _ _ Ec) | inversion Ec; reflexivity]).
    congruence.
  - right. split; [exact (symbol_at_Some _ _ Hs) |].
    unfold nrt_varsize_dtor in E.
    apply bind_inv in E as ([] & w2 & Ec & E). apply NRT_Free_inv in E.
    assert (Hv : handle_view w2 = handle_view w1) by
      (destruct (negb (i =? NULL));
       [exact (quiet_call_extern _ _ _ _ _ Ec) | inversion Ec; reflexivity]).
    rewrite Ei in Hv. apply handle_view_eq in Hv as (Hh & Ha & Hf).
    rewrite E, Hh, Ha, Hf. reflexivity.
  - left. apply quiet_call_extern in E. congruence.
Qed.

(** *** Acquire, release and the resizable-buffer operations *)

Lemma handle_view_inj (w : World) (h : gmap Z MemInfo) (a f : Z) :
  handle_view w = (h, a, f) ->
  meminfos w = h /\ stats_mi_alloc (TheMSys w) = a /\ stats_mi_free (TheMSys w) = f.
Proof. unfold handle_view. intros E. inversion E. repeat split. Qed.

Lemma updated_trans (mi : Z) (m m1 m2 : MemInfo) (w w1 w2 : World) :
  updated mi m m1 w w1 -> updated mi m1 m2 w1 w2 -> updated mi m m2 w w2.
Proof.
  intros (Hm & Hh & Ha & Hf) (_ & Hh' & Ha' & Hf').
  split; [exact Hm |].
  rewrite Hh', Hh, insert_insert_eq, Ha', Hf', Ha, Hf. repeat split.
Qed.

Lemma updated_after_quiet (mi : Z) (m m' : MemInfo) (w0 w w' : World) :
  handle_view w = handle_view w0 -> updated mi m m' w w' -> updated mi m m' w0 w'.
Proof.
  intros Hv (Hm & Hh & Ha & Hf). apply handle_view_eq in Hv as (Hh0 & Ha0 & Hf0).
  unfold updated. rewrite <- Hh0, <- Ha0, <- Hf0. repeat split; assumption.
Qed.

Lemma store_updated_at (mi : Z) (f : MemInfo -> MemInfo) (m : MemInfo) (w w' : World) :
  meminfos w !! mi = Some m ->
  store mi f w = Ret tt w' ->
  updated mi m (f m) w w'.
Proof.
  intros Hm E. apply store_updated in E as (m0 & Hu).
  assert (m0 = m) by (destruct Hu as (Hm0 & _); congruence). subst m0. exact Hu.
Qed.

Lemma NRT_MemInfo_acquire_footprint (mi : Z) (w w' : World) :
  NRT_MemInfo_acquire mi w = Ret tt w' ->
  exists m, 0 < refct m /\ updated mi m (set_refct (wrap64 (refct m + 1)) m) w w'.
Proof.
  intros E. unfold NRT_MemInfo_acquire in E.
  apply bind_inv in E as (m & w1 & El & E). apply load_inv in El as [-> Hm].
  apply bind_inv in E as ([] & w1 & Ea & E). apply assert_inv in Ea as [Hpos ->].
  exists m. split; [apply Z.ltb_lt; exact Hpos |].
  exact (store_updated_at mi _ m w w' Hm E).
Qed.

Lemma NRT_MemInfo_call_dtor_inv (mi : Z) (m : MemInfo) (w w' : World) :
  meminfos w !! mi = Some m ->
  NRT_MemInfo_call_dtor mi w = Ret tt w' ->
  (meminfos w' = delete mi (meminfos w) \/
   dtor m = &S_nrt_varsize_dtor /\
   meminfos w' = delete mi (delete (data m) (meminfos w))) /\
  stats_mi_alloc (TheMSys w') = stats_mi_alloc (TheMSys w) /\
  stats_mi_free (TheMSys w') = wrap64 (stats_mi_free (TheMSys w) + 1).
Proof.
  intros Hm E. unfold NRT_MemInfo_call_dtor in E.
  apply bind_inv in E as (m0 & w1 & El & E). apply load_inv in El as [-> Hm0].
  assert (m0 = m) by congruence. subst m0.
  apply bind_inv in E as (s & w1 & Es & E). inversion Es. subst s w1. clear Es.
  apply bind_inv in E as ([] & w1 & Ed & E).
  apply NRT_MemInfo_destroy_inv in E. apply handle_view_inj in E as (Hh & Ha & Hf).
  destruct (negb (dtor m =? NULL) && (shutting (TheMSys w) =? 0)).
  - apply call_dtor_inv in Ed as [Hv | [Hd Hv]].
    + apply handle_view_eq in Hv as (Hh1 & Ha1 & Hf1).
      rewrite Hh, Ha, Hf, Hh1, Ha1, Hf1. repeat split. left. reflexivity.
    + apply handle_view_inj in Hv as (Hh1 & Ha1 & Hf1).
      rewrite Hh, Ha, Hf, Hh1, Ha1, Hf1. repeat split. right. split; [exact Hd | reflexivity].
  - inversion Ed. subst w1. rewrite Hh, Ha, Hf. repeat split. left. reflexivity.
Qed.

Lemma NRT_MemInfo_release_footprint (mi : Z) (w w' : World) :
  NRT_MemInfo_release mi w = Ret tt w' ->
  exists m, 0 < refct m /\
            if wrap64 (refct m - 1) =? 0 then destroyed mi m w w'
            else updated mi m (set_refct (wrap64 (refct m - 1)) m) w w'.
Proof.
  intros E. unfold NRT_MemInfo_release in E.
  apply bind_inv in E as (m & w1 & El & E). apply load_inv in El as [-> Hm].
  apply bind_inv in E as ([] & w1 & Ea & E). apply assert_inv in Ea as [Hpos ->].
  cbv zeta in E.
  apply bind_inv in E as ([] & w1 & Es & E).
  apply (store_updated_at mi _ m w w1 Hm) in Es.
  exists m. split; [apply Z.ltb_lt; exact Hpos |].
  destruct (wrap64 (refct m - 1) =? 0).
  - destruct Es as (_ & Hh1 & Ha1 & Hf1).
    assert (Hm1 : meminfos w1 !! mi = Some (set_refct (wrap64 (refct m - 1)) m))
      by (rewrite Hh1; apply lookup_insert_eq).
    destruct (NRT_MemInfo_call_dtor_inv mi _ w1 w' Hm1 E) as (Hh & Ha & Hf).
    split; [exact Hm |]. rewrite Ha, Hf, Ha1, Hf1.
    split; [| split; reflexivity].
    destruct Hh as [Hh | [Hd Hh]]; rewrite Hh, Hh1.
    + left. apply delete_insert_eq.
    + right. split; [exact Hd |]. cbn [data set_refct].
      rewrite (delete_delete _ mi), delete_insert_eq. apply delete_delete.
  - inversion E. subst w'. exact Es.
Qed.

(** A resize that returns: both resize functions end in the same stores. *)
Lemma resize_footprint (alloc : M Z) (mi sz r : Z) (m : MemInfo) (w w' : World) :
  quiet alloc ->
  meminfos w !! mi = Some m ->
  (do p <- alloc;
   store mi (set_data p) ;;
   if p =? NULL then ret NULL else
   store mi (set_size sz) ;;
   ret p) w = Ret r w' ->
  exists m', refct m' = refct m /\ updated mi m m' w w'.
Proof.
  intros Hq Hm E.
  apply bind_inv in E as (p & w1 & Ea & E). apply Hq in Ea.
  assert (Hm1 : meminfos w1 !! mi = Some m)
    by (apply handle_view_eq in Ea as (-> & _); exact Hm).
  apply bind_inv in E as ([] & w2 & Es & E).
  apply (store_updated_at mi _ m w1 w2 Hm1) in Es.
  destruct (p =? NULL).
  - inversion E. subst. exists (set_data p m). split; [reflexivity |].
    exact (updated_after_quiet _ _ _ _ _ _ Ea Es).
  - apply bind_inv in E as ([] & w3 & Es2 & E). inversion E. subst.
    assert (Hm2 : meminfos w2 !! mi = Some (set_data r m))
      by (destruct Es as (_ & -> & _); apply lookup_insert_eq).
    apply (store_updated_at mi _ _ w2 w' Hm2) in Es2.
    exists (set_size sz (set_data r m)). split; [reflexivity |].
    exact (updated_after_quiet _ _ _ _ _ _ Ea (updated_trans _ _ _ _ _ _ _ Es Es2)).
Qed.

Lemma NRT_MemInfo_varsize_alloc_footprint (mi sz r : Z) (w w' : World) :
  NRT_MemInfo_varsize_alloc mi sz w = Ret r w' ->
  exists m m', refct m' = refct m /\ updated mi m m' w w'.
Proof.
  intros E. unfold NRT_MemInfo_varsize_alloc in E.
  apply bind_inv in E as (m & w1 & El & E). apply load_inv in El as [-> Hm].
  destruct (negb (dtor m =? &S_nrt_varsize_dtor)); [discriminate |].
  exists m. exact (resize_footprint _ mi sz r m w w' (quiet_NRT_Allocate sz) Hm E).
Qed.

Lemma NRT_MemInfo_varsize_realloc_footprint (mi sz r : Z) (w w' : World) :
  NRT_MemInfo_varsize_realloc mi sz w = Ret r w' ->
  exists m m', refct m' = refct m /\ updated mi m m' w w'.
Proof.
  intros E. unfold NRT_MemInfo_varsize_realloc in E.
  apply bind_inv in E as (m & w1 & El & E). apply load_inv in El as [-> Hm].
  destruct (negb (dtor m =? &S_nrt_varsize_dtor)); [discriminate |].
  exists m.
  exact (resize_footprint _ mi sz r m w w' (quiet_NRT_Reallocate (data m) sz) Hm E).
Qed.

Lemma NRT_MemInfo_varsize_free_footprint (mi ptr : Z) (w w' : World) :
  NRT_MemInfo_varsize_free mi ptr w = Ret tt w' ->
  exists m,
    meminfos w !! mi = Some m /\ ptr <> mi /\
    meminfos w' =
      (if ptr =? data m then <[mi := set_data NULL m]> (delete ptr (meminfos w))
       else delete ptr (meminfos w)) /\
    stats_mi_alloc (TheMSys w') = stats_mi_alloc (TheMSys w) /\
    stats_mi_free (TheMSys w') = stats_mi_free (TheMSys w).
Proof.
  intros E. unfold NRT_MemInfo_varsize_free in E.
  apply bind_inv in E as ([] & w1 & Ef & E).
  apply NRT_Free_inv in Ef. apply handle_view_inj in Ef as (Hh & Ha & Hf).
  apply bind_inv in E as (m & w2 & El & E). apply load_inv in El as [-> Hm].
  rewrite Hh in Hm. apply lookup_delete_Some in Hm as [Hne Hm].
  exists m. split; [exact Hm |]. split; [exact Hne |].
  destruct (ptr =? data m).
  - apply store_updated in E as (m0 & Hm0 & Hh' & Ha' & Hf').
    assert (m0 = m).
    { rewrite Hh, lookup_delete_ne in Hm0 by exact Hne. congruence. }
    subst m0. rewrite Hh', Hh, Ha', Hf', Ha, Hf. repeat split.
  - inversion E. subst w'. rewrite Hh, Ha, Hf. repeat split.
Qed.

(** What every operation that returns did to the live handles and to the two
    handle counters. *)
Lemma exec_footprint (op : public_op) (r : Z) (w w' : World) :
  exec op w = Ret r w' -> footprint op r w w'.
Proof.
  intros E.
  destruct op; cbn [footprint];
    try (match type of E with
         | exec ?o _ = _ => exact (exec_constructor_created o r w w' I E)
         end);
    cbn [exec] in E.
  - exact (NRT_MemInfo_new_varsize_footprint _ _ _ _ E).
  - exact (NRT_MemInfo_new_varsize_dtor_footprint _ _ _ _ _ E).
  - apply bind_inv in E as ([] & w1 & E & Er). inversion Er. subst.
    exact (NRT_MemInfo_acquire_footprint _ _ _ E).
  - apply bind_inv in E as ([] & w1 & E & Er). inversion Er. subst.
    exact (NRT_MemInfo_release_footprint _ _ _ E).
  - exact (NRT_MemInfo_varsize_alloc_footprint _ _ _ _ _ E).
  - exact (NRT_MemInfo_varsize_realloc_footprint _ _ _ _ _ E).
  - apply bind_inv in E as ([] & w1 & E & Er). inversion Er. subst.
    exact (NRT_MemInfo_varsize_free_footprint _ _ _ _ E).
Qed.

(** ** Reference counts of live handles *)

Lemma counts_valid_insert (a : Z) (m : MemInfo) (w w' : World) :
  counts_valid w ->
  0 < refct m <= SIZE_MAX ->
  meminfos w' = <[a := m]> (meminfos w) ->
  counts_valid w'.
Proof.
  intros H Hm Hh b mb Hb. rewrite Hh in Hb.
  destruct (Z.eq_dec b a) as [-> | Hne].
  - rewrite lookup_insert_eq in Hb. inversion Hb. subst. exact Hm.
  - rewrite lookup_insert_ne in Hb by congruence. exact (H b mb Hb).
Qed.

Lemma counts_valid_subseteq (w w' : World) :
  counts_valid w -> meminfos w' ⊆ meminfos w -> counts_valid w'.
Proof. intros H Hs b mb Hb. exact (H b mb (lookup_weaken _ _ _ _ Hb Hs)). Qed.

Lemma created_counts_valid (r : Z) (w w' : World) :
  counts_valid w -> created r w w' -> counts_valid w'.
Proof.
  intros H (_ & m & Hr & Hh & _).
  apply (counts_valid_insert r m w w' H); [| exact Hh].
  rewrite Hr. unfold SIZE_MAX. lia.
Qed.

Lemma updated_counts_valid (mi : Z) (m m' : MemInfo) (w w' : World) :
  counts_valid w -> 0 < refct m' <= SIZE_MAX -> updated mi m m' w w' -> counts_valid w'.
Proof. intros H Hm (_ & Hh & _). exact (counts_valid_insert mi m' w w' H Hm Hh). Qed.

Lemma exec_keeps_counts_valid (op : public_op) (r : Z) (w w' : World) :
  counts_valid w -> no_overflow op r w -> exec op w = Ret r w' -> counts_valid w'.
Proof.
  intros H Hok E. apply exec_footprint in E.
  destruct op; cbn [footprint no_overflow] in E, Hok;
    try (exact (created_counts_valid r w w' H E)).
  - destruct E as [[_ Hv] | E]; [| exact (created_counts_valid r w w' H E)].
    apply handle_view_eq in Hv as (Hh & _). unfold counts_valid. rewrite Hh. exact H.
  - destruct E as [[_ Hv] | E]; [| exact (created_counts_valid r w w' H E)].
    apply handle_view_eq in Hv as (Hh & _). unfold counts_valid. rewrite Hh. exact H.
  - destruct E as (m & Hpos & Hu).
    apply (updated_counts_valid _ _ _ _ _ H) in Hu; [exact Hu |].
    pose proof (Hok m (proj1 Hu)) as Hlt. cbn [refct set_refct].
    unfold SIZE_MAX in *. rewrite wrap64_small by lia. lia.
  - destruct E as (m & Hpos & E).
    assert (Hm : meminfos w !! mi = Some m)
      by (destruct (wrap64 (refct m - 1) =? 0); apply E).
    pose proof (H mi m Hm) as Hr. unfold SIZE_MAX in Hr.
    destruct (Z.eqb_spec (wrap64 (refct m - 1)) 0) as [_ | Hnz].
    + destruct E as (_ & Hh & _). apply (counts_valid_subseteq w w' H).
      destruct Hh as [-> | [_ ->]].
      * apply delete_subseteq.
      * etransitivity; apply delete_subseteq.
    + apply (updated_counts_valid _ _ _ _ _ H) in E; [exact E |].
      cbn [refct set_refct]. rewrite wrap64_small in * by lia.
      unfold SIZE_MAX. lia.
  - destruct E as (m & m' & Hr & Hu).
    apply (updated_counts_valid _ _ _ _ _ H) in Hu; [exact Hu |].
    rewrite Hr. exact (H mi m (proj1 Hu)).
  - destruct E as (m & m' & Hr & Hu).
    apply (updated_counts_valid _ _ _ _ _ H) in Hu; [exact Hu |].
    rewrite Hr. exact (H mi m (proj1 Hu)).
  - destruct E as (m & Hm & Hne & Hh & _).
    assert (Hd : counts_valid (set_meminfos (delete ptr (meminfos w)) w))
      by (apply (counts_valid_subseteq w _ H); apply delete_subseteq).
    destruct (ptr =? data m).
    + exact (counts_valid_insert mi (set_data NULL m) _ w' Hd (H mi m Hm) Hh).
    + intros b mb Hb. rewrite Hh in Hb. exact (Hd b mb Hb).
Qed.

Lemma counts_valid_started (o : list Z) (eff : Z -> list Z -> gmap Z Z -> gmap Z Z) :
  counts_valid (started_with o eff).
Proof. intros a m Hm. cbn in Hm. rewrite lookup_empty in Hm. discriminate. Qed.

(** X13.  [NRT_MemInfo_refcount] "should never return 0 for a valid MemInfo":
    in every state reached from one in which the live handles have counts
    between 1 and [SIZE_MAX] (the state after [NRT_MemSys_init], for one) by
    the constructors, acquire, release and the resizable-buffer operations,
    every live handle still has such a count, and [NRT_MemInfo_refcount]
    returns a number that is not 0 for it, without changing the state.  The
    one use that has to be excluded is an acquire on a handle whose count is
    [SIZE_MAX] already: [mi->refct++] wraps to 0 there. *)
Theorem refcount_never_zero (w0 w : World) (mi : Z) (m : MemInfo) :
  counts_valid w0 ->
  reaches no_overflow w0 w ->
  meminfos w !! mi = Some m ->
  0 < refct m <= SIZE_MAX /\
  exists n, NRT_MemInfo_refcount mi w = Ret n w /\ 0 < n <= SIZE_MAX.
Proof.
  intros H0 Hr Hm.
  assert (H : counts_valid w).
  { clear Hm. induction Hr as [| w w' op r _ IH Hok E]; [exact H0 |].
    exact (exec_keeps_counts_valid op r w w' IH Hok E). }
  split; [exact (H mi m Hm) |].
  unfold NRT_MemInfo_refcount.
  destruct (mi =? NULL).
  - exists SIZE_MAX. split; [reflexivity | unfold SIZE_MAX; lia].
  - step (load_live _ _ _ Hm).
    destruct (negb (data m =? NULL)).
    + exists (refct m). split; [reflexivity | exact (H mi m Hm)].
    + exists SIZE_MAX. split; [reflexivity | unfold SIZE_MAX; lia].
Qed.

Lemma refcount_never_zero_witness :
  meminfos ex_life3 !! 2000 = Some (mkMemInfo 2 &S_nrt_varsize_dtor NULL 3000 64 NULL) /\
  NRT_MemInfo_refcount 2000 ex_life3 = Ret 2 ex_life3.
Proof.
  assert (Hm : meminfos ex_life3 !! 2000 =
               Some (mkMemInfo 2 &S_nrt_varsize_dtor NULL 3000 64 NULL))
    by (vm_compute; reflexivity).
  split; [exact Hm |].
  assert (R1 : reaches no_overflow ex_life0 ex_life1).
  { apply (reaches_step no_overflow ex_life0 ex_life0 ex_life1 (Op_new_varsize 16) 2000).
    - apply reaches_start.
    - exact I.
    - vm_compute. reflexivity. }
  assert (R2 : reaches no_overflow ex_life0 ex_life2).
  { apply (reaches_step no_overflow ex_life0 ex_life1 ex_life2 (Op_acquire 2000) 0 R1).
    - intros m' Hm'. vm_compute in Hm'. inversion Hm'. reflexivity.
    - vm_compute. reflexivity. }
  assert (R3 : reaches no_overflow ex_life0 ex_life3).
  { apply (reaches_step no_overflow ex_life0 ex_life2 ex_life3
             (Op_varsize_alloc 2000 64) 3000 R2).
    - exact I.
    - vm_compute. reflexivity. }
  destruct (refcount_never_zero ex_life0 ex_life3 2000 _
              (counts_valid_started _ _) R3 Hm) as (_ & n & E & _).
  rewrite E. f_equal.
  vm_compute in E. inversion E. reflexivity.
Defined.

(** ** The handle counters and the live handles *)

Lemma counted_incr (a f n : Z) :
  wrap64 (a - f) = wrap64 n -> wrap64 (wrap64 (a + 1) - f) = wrap64 (n + 1).
Proof.
  unfold wrap64. intros H. rewrite Zminus_mod_idemp_l.
  replace (a + 1 - f) with (a - f + 1) by lia.
  rewrite <- Zplus_mod_idemp_l, H, Zplus_mod_idemp_l. reflexivity.
Qed.

Lemma counted_decr (a f n : Z) :
  wrap64 (a - f) = wrap64 n -> wrap64 (a - wrap64 (f + 1)) = wrap64 (n - 1).
Proof.
  unfold wrap64. intros H. rewrite Zminus_mod_idemp_r.
  replace (a - (f + 1)) with (a - f - 1) by lia.
  rewrite <- Zminus_mod_idemp_l, H, Zminus_mod_idemp_l. reflexivity.
Qed.

Lemma created_counted (r : Z) (w w' : World) :
  handles_counted w -> meminfos w !! r = None -> created r w w' -> handles_counted w'.
Proof.
  unfold handles_counted. intros H Hfresh (_ & m & _ & Hh & Ha & Hf).
  rewrite Hh, Ha, Hf, (map_size_insert_None r m (meminfos w) Hfresh), Nat2Z.inj_succ.
  apply counted_incr. exact H.
Qed.

Lemma updated_counted (mi : Z) (m m' : MemInfo) (w w' : World) :
  handles_counted w -> updated mi m m' w w' -> handles_counted w'.
Proof.
  unfold handles_counted. intros H (Hm & Hh & Ha & Hf).
  rewrite Hh, Ha, Hf, (map_size_insert_Some mi m' (meminfos w) (mk_is_Some _ _ Hm)). exact H.
Qed.

Lemma quiet_counted (w w' : World) :
  handles_counted w -> handle_view w' = handle_view w -> handles_counted w'.
Proof.
  unfold handles_counted. intros H Hv. apply handle_view_eq in Hv as (-> & -> & ->).
  exact H.
Qed.

Lemma destroyed_counted (mi : Z) (m : MemInfo) (w w' : World) :
  handles_counted w ->
  (dtor m = &S_nrt_varsize_dtor -> meminfos w !! data m = None) ->
  destroyed mi m w w' ->
  handles_counted w'.
Proof.
  unfold handles_counted. intros H Hp (Hm & Hh & Ha & Hf).
  assert (Hh' : meminfos w' = delete mi (meminfos w)).
  { destruct Hh as [Hh | [Hd Hh]]; [exact Hh |].
    rewrite Hh, (delete_id _ _ (Hp Hd)). reflexivity. }
  rewrite Hh', Ha, Hf, (map_size_delete_Some mi (meminfos w) (mk_is_Some _ _ Hm)).
  assert (Hpos : base.size (meminfos w) <> 0%nat).
  { intros Hz. apply map_size_empty_inv in Hz. rewrite Hz, lookup_empty in Hm.
    discriminate. }
  replace (Z.of_nat (Nat.pred (base.size (meminfos w))))
    with (Z.of_nat (base.size (meminfos w)) - 1) by lia.
  apply counted_decr. exact H.
Qed.

Lemma exec_keeps_handles_counted (op : public_op) (r : Z) (w w' : World) :
  handles_counted w -> blocks_apart op r w -> exec op w = Ret r w' -> handles_counted w'.
Proof.
  intros H Hok E. apply exec_footprint in E.
  destruct op; cbn [footprint blocks_apart] in E, Hok;
    try (exact (created_counted r w w' H (Hok (proj1 E)) E)).
  - destruct E as [[_ Hv] | E]; [exact (quiet_counted w w' H Hv) |].
    exact (created_counted r w w' H (Hok (proj1 E)) E).
  - destruct E as [[_ Hv] | E]; [exact (quiet_counted w w' H Hv) |].
    exact (created_counted r w w' H (Hok (proj1 E)) E).
  - destruct E as (m & _ & Hu). exact (updated_counted _ _ _ _ _ H Hu).
  - destruct E as (m & _ & E).
    destruct (wrap64 (refct m - 1) =? 0).
    + exact (destroyed_counted mi m w w' H (Hok m (proj1 E)) E).
    + exact (updated_counted _ _ _ _ _ H E).
  - destruct E as (m & m' & _ & Hu). exact (updated_counted _ _ _ _ _ H Hu).
  - destruct E as (m & m' & _ & Hu). exact (updated_counted _ _ _ _ _ H Hu).
  - destruct E as (m & Hm & Hne & Hh & Ha & Hf).
    rewrite (delete_id _ _ Hok) in Hh.
    destruct (ptr =? data m).
    + apply (updated_counted mi m (set_data NULL m) w w' H). repeat split; assumption.
    + apply (quiet_counted w w' H). unfold handle_view. rewrite Hh, Ha, Hf. reflexivity.
Qed.

Lemma handles_counted_started (o : list Z) (eff : Z -> list Z -> gmap Z Z -> gmap Z Z) :
  handles_counted (started_with o eff).
Proof. reflexivity. Qed.

(** X14.  The two handle counters count the live handles: in every state
    reached from one in which [stats_mi_alloc - stats_mi_free] is the number
    of live handles (the state after [NRT_MemSys_init], for one) by the
    constructors, acquire, release and the resizable-buffer operations, the
    difference, in [size_t] arithmetic, is again the number of live handles.
    So when the two counters are equal, no handle is live.  The blocks of
    the heap are taken to be apart: an allocation does not return the
    address of a live handle, and a payload that is freed is not the block
    of a live handle. *)
Theorem handle_counters_count_live_handles (w0 w : World) :
  handles_counted w0 ->
  reaches blocks_apart w0 w ->
  handles_counted w /\
  (stats_mi_alloc (TheMSys w) = stats_mi_free (TheMSys w) ->
   Z.of_nat (base.size (meminfos w)) < 2 ^ 64 ->
   meminfos w = ∅).
Proof.
  intros H0 Hr.
  assert (H : handles_counted w).
  { induction Hr as [| w w' op r _ IH Hok E]; [exact H0 |].
    exact (exec_keeps_handles_counted op r w w' IH Hok E). }
  split; [exact H |].
  intros Heq Hlt. unfold handles_counted in H.
  rewrite Heq, Z.sub_diag in H.
  rewrite (wrap64_small (Z.of_nat _)) in H by lia.
  apply map_size_empty_inv. change (wrap64 0) with 0 in H. lia.
Qed.

Lemma handle_counters_count_live_handles_witness :
  stats_mi_alloc (TheMSys ex_life5) = 1 /\
  stats_mi_free (TheMSys ex_life5) = 1 /\
  meminfos ex_life5 = ∅.
Proof.
  split; [vm_compute; reflexivity |].
  split; [vm_compute; reflexivity |].
  assert (R1 : reaches blocks_apart ex_life0 ex_life1).
  { apply (reaches_step blocks_apart ex_life0 ex_life0 ex_life1 (Op_new_varsize 16) 2000).
    - apply reaches_start.
    - intros _. vm_compute. reflexivity.
    - vm_compute. reflexivity. }
  assert (R2 : reaches blocks_apart ex_life0 ex_life2).
  { apply (reaches_step blocks_apart ex_life0 ex_life1 ex_life2 (Op_acquire 2000) 0 R1).
    - exact I.
    - vm_compute. reflexivity. }
  assert (R3 : reaches blocks_apart ex_life0 ex_life3).
  { apply (reaches_step blocks_apart ex_life0 ex_life2 ex_life3
             (Op_varsize_alloc 2000 64) 3000 R2).
    - exact I.
    - vm_compute. reflexivity. }
  assert (R4 : reaches blocks_apart ex_life0 ex_life4).
  { apply (reaches_step blocks_apart ex_life0 ex_life3 ex_life4 (Op_release 2000) 0 R3).
    - intros m Hm _. vm_compute in Hm. inversion Hm. vm_compute. reflexivity.
    - vm_compute. reflexivity. }
  assert (R5 : reaches blocks_apart ex_life0 ex_life5).
  { apply (reaches_step blocks_apart ex_life0 ex_life4 ex_life5 (Op_release 2000) 0 R4).
    - intros m Hm _. vm_compute in Hm. inversion Hm. vm_compute. reflexivity.
    - vm_compute. reflexivity. }
  apply (proj2 (handle_counters_count_live_handles ex_life0 ex_life5
                  (handles_counted_started _ _) R5)).
  - vm_compute. reflexivity.
  - vm_compute. reflexivity.
Defined.

(** ** The sample external allocator *)

(** X15.  [sample_external_free] does not look at its token: a handle
    whose external allocator has [sample_external_free] as its [free] goes
    back, at its last release, through [sample_external_free] to the bound
    [free], whatever [opaque_data] the allocator carries (where
    [sample_external_malloc] refuses every token but its own).  The call is
    counted once, in [stats_free], although two release functions ran. *)
Theorem sample_free_ignores_token
    (sz a p : Z) (ea : NRT_ExternalAllocator) (w w1 : World) :
  NRT_Allocate_External (wrap64 (sizeof_MemInfo + sz)) a w = Ret p w1 ->
  p <> NULL ->
  a <> NULL ->
  allocators w1 !! a = Some ea ->
  ext_free ea = &S_sample_external_free ->
  free (allocator (TheMSys w1)) <> NULL ->
  exists w',
    (do mi <- NRT_MemInfo_alloc_external sz a; NRT_MemInfo_release mi) w = Ret tt w' /\
    trace w' = trace w1 ++
      mkEvent &S_sample_external_free (p :: opaque_data ea :: nil) ::
      mkEvent (free (allocator (TheMSys w1))) (p :: nil) :: nil /\
    meminfos w' = delete p (meminfos w1) /\
    stats_free (TheMSys w') = wrap64 (stats_free (TheMSys w1) + 1) /\
    stats_mi_free (TheMSys w') = wrap64 (stats_mi_free (TheMSys w1) + 1).
Proof.
  intros E Hp Ha Hea Hfree Hf.
  step (NRT_MemInfo_alloc_external_ok sz a p w w1 E Hp).
  set (m := mkMemInfo 1 NULL NULL (wrap64 (p + sizeof_MemInfo)) sz a).
  set (w2 := initialised p m w1).
  assert (Hl : meminfos w2 !! p = Some m) by apply lookup_insert_eq.
  assert (Hc : can_dealloc w2 m).
  { unfold can_dealloc. cbn [external_allocator m].
    destruct (Z.eqb_spec a NULL); [contradiction |].
    exists ea. split; [exact Hea |]. split; [| intros _; exact Hf].
    rewrite Hfree. apply addr_of_nonnull. }
  rewrite (NRT_MemInfo_release_last_quiet p m w2 Hl eq_refl eq_refl Hc).
  eexists. split; [reflexivity |]. subst w2. world_proj.
  split.
  { unfold release_calls. cbn [external_allocator m]. world_proj.
    destruct (Z.eqb_spec a NULL); [contradiction |].
    rewrite Hea, Hfree, Z.eqb_refl. reflexivity. }
  split; [apply delete_insert_eq |].
  split; reflexivity.
Qed.

Lemma sample_free_ignores_token_witness :
  exists w',
    (do mi <- NRT_MemInfo_alloc_external 8 &S_sample_external_allocator;
     NRT_MemInfo_release mi) (started (1000 :: nil)) = Ret tt w' /\
    trace w' =
      mkEvent &S_sample_external_malloc (56 :: &S_sample_external_opaque_data :: nil) ::
      mkEvent &S_malloc (56 :: nil) ::
      mkEvent &S_sample_external_free (1000 :: &S_sample_external_opaque_data :: nil) ::
      mkEvent &S_free (1000 :: nil) :: nil.
Proof.
  destruct (sample_free_ignores_token 8 &S_sample_external_allocator 1000
              sample_external_allocator (started (1000 :: nil))
              (allocated_by_sample sample_external_allocator 56 (started (1000 :: nil))))
    as (w' & E & Ht & _).
  - vm_compute. reflexivity.
  - discriminate.
  - discriminate.
  - vm_compute. reflexivity.
  - reflexivity.
  - vm_compute. discriminate.
  - exists w'. split; [exact E |]. rewrite Ht. vm_compute. reflexivity.
Defined.
